(** * Client subscription loop with complete data change

    A shallow embedding of
    [examples/client_subscription_loop_complete_data_change.c]: the five
    callbacks and [main] are written as programs over the calls they make
    into the open62541 client library, the C runtime and the two global
    variables.  Two semantics are given: [exec], an uninterrupted run of
    one function against fixed answers of the environment, and [step], a
    machine with a call stack in which the library calls back into the
    application and SIGINT is delivered asynchronously. *)

From Stdlib Require Import ZArith List String Bool Lia Arith.
Import ListNotations.
Local Open Scope string_scope.
Local Open Scope list_scope.
Local Open Scope Z_scope.

Set Implicit Arguments.

(** ** Data of the client library, as the example uses it *)

Definition UA_UInt32 := Z.
Definition UA_UInt16 := Z.
Definition UA_StatusCode := Z.
Definition UA_DateTime := Z.

(** [UA_Client *], [UA_ClientConfig *] and [void *] are addresses. *)
Definition UA_ClientPtr := Z.
Definition UA_ClientConfigPtr := Z.
Definition VoidPtr := Z.
Definition NULL : VoidPtr := 0.

(** POSIX and ISO C constants of [signal.h] and [stdlib.h]. *)
Definition SIGINT : Z := 2.
Definition EXIT_SUCCESS : Z := 0.

(** Enumerators the example switches on; every other value of the
    underlying C enum falls into the [default:] branch. *)
Inductive UA_SecureChannelState :=
| UA_SECURECHANNELSTATE_CLOSED
| UA_SECURECHANNELSTATE_HEL_SENT
| UA_SECURECHANNELSTATE_OPN_SENT
| UA_SECURECHANNELSTATE_OPEN
| UA_SECURECHANNELSTATE_other (v : Z).

Inductive UA_SessionState :=
| UA_SESSIONSTATE_ACTIVATED
| UA_SESSIONSTATE_CLOSED
| UA_SESSIONSTATE_other (v : Z).

Inductive UA_TimestampsToReturn :=
| UA_TIMESTAMPSTORETURN_SOURCE
| UA_TIMESTAMPSTORETURN_SERVER
| UA_TIMESTAMPSTORETURN_BOTH
| UA_TIMESTAMPSTORETURN_NEITHER.

Inductive UA_LogLevel :=
| UA_LOGLEVEL_TRACE | UA_LOGLEVEL_DEBUG | UA_LOGLEVEL_INFO
| UA_LOGLEVEL_WARNING | UA_LOGLEVEL_ERROR | UA_LOGLEVEL_FATAL.

Inductive UA_Logger := UA_Log_Stdout.
Inductive UA_LogCategory := UA_LOGCATEGORY_USERLAND.

Inductive UA_NodeId := UA_NODEID_NUMERIC (nsIndex : Z) (identifier : Z).

Record UA_DateTimeStruct := {
  nanoSec : UA_UInt16; microSec : UA_UInt16; milliSec : UA_UInt16;
  sec : UA_UInt16; min : UA_UInt16; hour : UA_UInt16;
  day : UA_UInt16; month : UA_UInt16; year : UA_UInt16 }.

(** The functions of the program are the only values a function pointer
    takes in it. *)
Inductive FnPtr :=
| fn_NULL
| fn_stopHandler
| fn_handler_currentTimeChanged
| fn_deleteSubscriptionCallback
| fn_subscriptionInactivityCallback
| fn_stateCallback.

(** Types the headers of the library declare and the example never looks
    into. *)
Class LibraryTypes := {
  UA_Variant : Type;
  UA_CreateSubscriptionRequest : Type;
  (** the members of [UA_MonitoringParameters] besides [clientHandle]
      (sampling interval, filter, queue size, discard policy) *)
  UA_MonitoringParameters_rest : Type;
  (** the members of [UA_MonitoredItemCreateRequest] besides
      [requestedParameters] (item to monitor, monitoring mode) *)
  UA_MonitoredItemCreateRequest_rest : Type
}.

Section Types.

Context {T : LibraryTypes}.

Record UA_DataValue := {
  value : UA_Variant;
  status : UA_StatusCode;
  sourceTimestamp : UA_DateTime;
  serverTimestamp : UA_DateTime }.

Record UA_MonitoredItemNotification := {
  mn_clientHandle : UA_UInt32;
  mn_value : UA_DataValue }.

(** [monitoredItems] with [monitoredItemsSize] its length. *)
Record UA_DataChangeNotification := {
  monitoredItems : list UA_MonitoredItemNotification }.

Definition monitoredItemsSize (n : UA_DataChangeNotification) : nat :=
  List.length (monitoredItems n).

Record UA_MonitoringParameters := {
  clientHandle : UA_UInt32;
  otherParameters : UA_MonitoringParameters_rest }.

Record UA_MonitoredItemCreateRequest := {
  requestedParameters : UA_MonitoringParameters;
  otherMembers : UA_MonitoredItemCreateRequest_rest }.

Record UA_ResponseHeader := { serviceResult : UA_StatusCode }.

Record UA_CreateSubscriptionResponse := {
  responseHeader : UA_ResponseHeader;
  subscriptionId : UA_UInt32 }.

Record UA_MonitoredItemCreateResult := {
  statusCode : UA_StatusCode;
  monitoredItemId : UA_UInt32 }.

End Types.

(** What the headers of the library provide and the example only uses:
    constants, the scalar test on a variant and the read of a
    [UA_DateTime] behind its [data], the calendar conversion and the
    default requests.  The program is verified for every such library. *)
Class ClientLibrary {T : LibraryTypes} := {
  UA_STATUSCODE_GOOD : UA_StatusCode;
  UA_NS0ID_SERVER_SERVERSTATUS_CURRENTTIME : Z;
  UA_TYPES_DATETIME : Z;
  (** [UA_Variant_hasScalarType(v, &UA_TYPES[i])] *)
  UA_Variant_hasScalarType : UA_Variant -> Z -> bool;
  (** [*(UA_DateTime * ) v->data] *)
  UA_Variant_data_DateTime : UA_Variant -> UA_DateTime;
  UA_DateTime_toStruct : UA_DateTime -> UA_DateTimeStruct;
  UA_CreateSubscriptionRequest_default : UA_CreateSubscriptionRequest;
  UA_MonitoredItemCreateRequest_default :
    UA_NodeId -> UA_MonitoredItemCreateRequest
}.

Section Program.

Context {T : LibraryTypes} {L : ClientLibrary}.

(** ** Calls *)

(** Everything a function of the example does besides computing on its
    locals: a call into the library or the C runtime, a store into the
    client configuration, or an access to one of the two globals. *)
Inductive Call :=
| c_UA_LOG (level : UA_LogLevel) (logger : UA_Logger)
           (category : UA_LogCategory) (msg : string) (args : list Z)
| c_signal (signum : Z) (handler : FnPtr)
| c_UA_Client_new
| c_UA_Client_getConfig (client : UA_ClientPtr)
| c_UA_ClientConfig_setDefault (cc : UA_ClientConfigPtr)
| c_set_stateCallback (cc : UA_ClientConfigPtr) (f : FnPtr)
| c_set_subscriptionInactivityCallback (cc : UA_ClientConfigPtr) (f : FnPtr)
| c_UA_Client_connect (client : UA_ClientPtr) (endpointUrl : string)
| c_sleep_ms (ms : Z)
| c_UA_Client_run_iterate (client : UA_ClientPtr) (timeout : Z)
| c_UA_Client_delete (client : UA_ClientPtr)
| c_UA_Client_Subscriptions_createCompleteDataChange
    (client : UA_ClientPtr) (request : UA_CreateSubscriptionRequest)
    (subscriptionContext : VoidPtr) (statusChangeCallback : FnPtr)
    (deleteCallback : FnPtr) (dataChangeCallback : FnPtr)
| c_UA_Client_MonitoredItems_createDataChange
    (client : UA_ClientPtr) (subId : UA_UInt32)
    (timestampsToReturn : UA_TimestampsToReturn)
    (item : UA_MonitoredItemCreateRequest)
    (context : VoidPtr) (callback : FnPtr) (deleteCallback : FnPtr)
| c_load_running
| c_store_running (v : bool)
| c_load_currentTimeClientHandle.

(** The type of what a call returns. *)
Definition Ans (c : Call) : Type :=
  match c with
  | c_UA_Client_new => UA_ClientPtr
  | c_UA_Client_getConfig _ => UA_ClientConfigPtr
  | c_UA_ClientConfig_setDefault _ => UA_StatusCode
  | c_UA_Client_connect _ _ => UA_StatusCode
  | c_UA_Client_run_iterate _ _ => UA_StatusCode
  | c_UA_Client_Subscriptions_createCompleteDataChange _ _ _ _ _ _ =>
      UA_CreateSubscriptionResponse
  | c_UA_Client_MonitoredItems_createDataChange _ _ _ _ _ _ _ =>
      UA_MonitoredItemCreateResult
  | c_load_running => bool
  | c_load_currentTimeClientHandle => UA_UInt32
  | _ => unit
  end.

(** ** Programs *)

Inductive prog (R : Type) : Type :=
| Ret (r : R)
| Do (c : Call) (k : Ans c -> prog R)
| While (cond : prog bool) (body : prog unit) (k : prog R).

Arguments Ret {R} r.
Arguments Do {R} c k.
Arguments While {R} cond body k.

Fixpoint bind {A B} (p : prog A) (f : A -> prog B) : prog B :=
  match p with
  | Ret r => f r
  | Do c k => Do c (fun a => bind (k a) f)
  | While cond body k => While cond body (bind k f)
  end.

Definition call (c : Call) : prog (Ans c) := Do c (fun a => Ret a).

(** A call as a statement: what it returns is dropped. *)
Definition call_ (c : Call) : prog unit := Do c (fun _ => Ret tt).

End Program.

Declare Scope prog_scope.
Delimit Scope prog_scope with prog.
Notation "x <- p ;; q" := (bind p (fun x => q))
  (at level 61, p at next level, right associativity) : prog_scope.
Notation "p ;; q" := (bind p (fun _ => q))
  (at level 61, right associativity) : prog_scope.

(** ** The program *)

Section Source.

Context {T : LibraryTypes} {L : ClientLibrary}.

Local Open Scope prog_scope.

(** [UA_Boolean running = true; UA_UInt32 currentTimeClientHandle = 42;] *)
Record Globals := {
  running : bool;
  currentTimeClientHandle : UA_UInt32 }.

Definition initial_globals : Globals :=
  {| running := true; currentTimeClientHandle := 42 |}.

Definition UA_LOG_INFO logger category msg args : prog unit :=
  call_ (c_UA_LOG UA_LOGLEVEL_INFO logger category msg args).

Definition UA_LOG_ERROR logger category msg args : prog unit :=
  call_ (c_UA_LOG UA_LOGLEVEL_ERROR logger category msg args).

(** [for(size_t i = i0; i < i0 + count; i++) body] *)
Fixpoint for_loop (count : nat) (i : nat) (body : nat -> prog unit)
  : prog unit :=
  match count with
  | O => Ret tt
  | S count' => body i ;; for_loop count' (S i) body
  end.

Definition stopHandler (sign : Z) : prog unit :=
  UA_LOG_INFO UA_Log_Stdout UA_LOGCATEGORY_USERLAND "Received Ctrl-C" [] ;;
  call_ (c_store_running false).

(** The body of the [for] loop of [handler_currentTimeChanged], at the
    element [monitored_notification = &monitoredItems[i]]. *)
Definition handle_notification
    (monitored_notification : UA_MonitoredItemNotification) : prog unit :=
  handle <- call c_load_currentTimeClientHandle ;;
  if mn_clientHandle monitored_notification =? handle then
    UA_LOG_INFO UA_Log_Stdout UA_LOGCATEGORY_USERLAND
                "currentTime has changed!" [] ;;
    let value_ := mn_value monitored_notification in
    if UA_Variant_hasScalarType (value value_) UA_TYPES_DATETIME then
      let raw_date := UA_Variant_data_DateTime (value value_) in
      let dts := UA_DateTime_toStruct raw_date in
      UA_LOG_INFO UA_Log_Stdout UA_LOGCATEGORY_USERLAND
                  "date is: %02u-%02u-%04u %02u:%02u:%02u.%03u"
                  [day dts; month dts; year dts; hour dts; min dts;
                   sec dts; milliSec dts]
    else Ret tt
  else Ret tt.

Definition handler_currentTimeChanged (client : UA_ClientPtr)
    (subId : UA_UInt32) (subContext : VoidPtr)
    (dataChangeNotification : UA_DataChangeNotification) : prog unit :=
  for_loop (monitoredItemsSize dataChangeNotification) 0 (fun i =>
    match nth_error (monitoredItems dataChangeNotification) i with
    | None => Ret tt (* not reached: i < monitoredItemsSize *)
    | Some monitored_notification =>
        handle_notification monitored_notification
    end).

Definition deleteSubscriptionCallback (client : UA_ClientPtr)
    (subscriptionId_ : UA_UInt32) (subscriptionContext : VoidPtr)
  : prog unit :=
  UA_LOG_INFO UA_Log_Stdout UA_LOGCATEGORY_USERLAND
              "Subscription Id %u was deleted" [subscriptionId_].

Definition subscriptionInactivityCallback (client : UA_ClientPtr)
    (subId : UA_UInt32) (subContext : VoidPtr) : prog unit :=
  UA_LOG_INFO UA_Log_Stdout UA_LOGCATEGORY_USERLAND
              "Inactivity for subscription %u" [subId].

Definition stateCallback (client : UA_ClientPtr)
    (channelState : UA_SecureChannelState) (sessionState : UA_SessionState)
    (recoveryStatus : UA_StatusCode) : prog unit :=
  match channelState with
  | UA_SECURECHANNELSTATE_CLOSED =>
      UA_LOG_INFO UA_Log_Stdout UA_LOGCATEGORY_USERLAND
                  "The client is disconnected" []
  | UA_SECURECHANNELSTATE_HEL_SENT =>
      UA_LOG_INFO UA_Log_Stdout UA_LOGCATEGORY_USERLAND "Waiting for ack" []
  | UA_SECURECHANNELSTATE_OPN_SENT =>
      UA_LOG_INFO UA_Log_Stdout UA_LOGCATEGORY_USERLAND
                  "Waiting for OPN Response" []
  | UA_SECURECHANNELSTATE_OPEN =>
      UA_LOG_INFO UA_Log_Stdout UA_LOGCATEGORY_USERLAND
                  "A SecureChannel to the server is open" []
  | UA_SECURECHANNELSTATE_other _ => Ret tt
  end ;;
  match sessionState with
  | UA_SESSIONSTATE_ACTIVATED =>
      UA_LOG_INFO UA_Log_Stdout UA_LOGCATEGORY_USERLAND
                  "A session with the server is activated" [] ;;
      (* A new session was created. We need to create the subscription. *)
      let request := UA_CreateSubscriptionRequest_default in
      response <- call (c_UA_Client_Subscriptions_createCompleteDataChange
                          client request NULL fn_NULL
                          fn_deleteSubscriptionCallback
                          fn_handler_currentTimeChanged) ;;
      if serviceResult (responseHeader response) =? UA_STATUSCODE_GOOD then
        UA_LOG_INFO UA_Log_Stdout UA_LOGCATEGORY_USERLAND
                    "Create subscription succeeded, id %u"
                    [subscriptionId response] ;;
        (* Add a MonitoredItem *)
        let currentTimeNode :=
          UA_NODEID_NUMERIC 0 UA_NS0ID_SERVER_SERVERSTATUS_CURRENTTIME in
        let monRequest :=
          UA_MonitoredItemCreateRequest_default currentTimeNode in
        handle <- call c_load_currentTimeClientHandle ;;
        let monRequest :=
          {| requestedParameters :=
               {| clientHandle := handle;
                  otherParameters :=
                    otherParameters (requestedParameters monRequest) |};
             otherMembers := otherMembers monRequest |} in
        monResponse <- call (c_UA_Client_MonitoredItems_createDataChange
                               client (subscriptionId response)
                               UA_TIMESTAMPSTORETURN_BOTH monRequest
                               NULL fn_NULL fn_NULL) ;;
        if statusCode monResponse =? UA_STATUSCODE_GOOD then
          UA_LOG_INFO UA_Log_Stdout UA_LOGCATEGORY_USERLAND
                      "Monitoring UA_NS0ID_SERVER_SERVERSTATUS_CURRENTTIME', id %u"
                      [monitoredItemId monResponse]
        else Ret tt
      else Ret tt (* return *)
  | UA_SESSIONSTATE_CLOSED =>
      UA_LOG_INFO UA_Log_Stdout UA_LOGCATEGORY_USERLAND
                  "Session disconnected" []
  | UA_SESSIONSTATE_other _ => Ret tt
  end.

(** The body of [while(running)]; [continue] ends it. *)
Definition main_loop_body (client : UA_ClientPtr) : prog unit :=
  retval <- call (c_UA_Client_connect client "opc.tcp://localhost:4840") ;;
  if negb (retval =? UA_STATUSCODE_GOOD) then
    UA_LOG_ERROR UA_Log_Stdout UA_LOGCATEGORY_USERLAND
                 "Not connected. Retrying to connect in 1 second" [] ;;
    call_ (c_sleep_ms 1000) (* continue *)
  else
    call_ (c_UA_Client_run_iterate client 1000).

(** What follows the loop: clean up and return. *)
Definition main_cleanup (client : UA_ClientPtr) : prog Z :=
  call_ (c_UA_Client_delete client) ;; (* Disconnects the client internally *)
  Ret EXIT_SUCCESS.

Definition main : prog Z :=
  call_ (c_signal SIGINT fn_stopHandler) ;; (* catches ctrl-c *)
  client <- call c_UA_Client_new ;;
  cc <- call (c_UA_Client_getConfig client) ;;
  call_ (c_UA_ClientConfig_setDefault cc) ;;
  call_ (c_set_stateCallback cc fn_stateCallback) ;;
  call_ (c_set_subscriptionInactivityCallback
          cc fn_subscriptionInactivityCallback) ;;
  While (call c_load_running) (main_loop_body client) (main_cleanup client).

End Source.

(** ** Semantics *)

Section Semantics.

Context {T : LibraryTypes} {L : ClientLibrary}.

Local Open Scope prog_scope.

(** The environment answers the calls that leave the program. *)
Definition Oracle := forall c : Call, Ans c.

(** Accesses to the globals are answered by the store; every other call
    by the environment. *)
Definition is_memory (c : Call) : bool :=
  match c with
  | c_load_running | c_store_running _ | c_load_currentTimeClientHandle => true
  | _ => false
  end.

Definition perform (o : Oracle) (c : Call) (g : Globals) : Ans c * Globals :=
  match c as c0 return Ans c0 * Globals with
  | c_load_running => (running g, g)
  | c_store_running v =>
      (tt, {| running := v;
              currentTimeClientHandle := currentTimeClientHandle g |})
  | c_load_currentTimeClientHandle => (currentTimeClientHandle g, g)
  | c0 => (o c0, g)
  end.

(** The calls that leave the program are what a run shows. *)
Definition observe (c : Call) : list Call :=
  if is_memory c then [] else [c].

(** *** Uninterrupted runs

    [exec fuel p o g] runs [p] from the globals [g] to its end, no callback
    and no signal arriving in between; [fuel] bounds the iterations of
    [While]. *)
Fixpoint exec (fuel : nat) :
  forall R : Type,
    prog R -> Oracle -> Globals -> option (list Call * Globals * R) :=
  fix go (R : Type) (p : prog R) (o : Oracle) (g : Globals) {struct p} :=
    match p with
    | Ret r => Some ([], g, r)
    | Do c k =>
        let (a, g1) := perform o c g in
        match go R (k a) o g1 with
        | Some (t, g2, r) => Some (observe c ++ t, g2, r)
        | None => None
        end
    | While cond body k =>
        match go bool cond o g with
        | Some (t1, g1, true) =>
            match go unit body o g1 with
            | Some (t2, g2, _) =>
                match fuel with
                | O => None
                | S fuel' =>
                    match exec fuel' (While cond body k) o g2 with
                    | Some (t3, g3, r) => Some (t1 ++ t2 ++ t3, g3, r)
                    | None => None
                    end
                end
            | None => None
            end
        | Some (t1, g1, false) =>
            match go R k o g1 with
            | Some (t2, g2, r) => Some (t1 ++ t2, g2, r)
            | None => None
            end
        | None => None
        end
    end.

Arguments exec fuel {R} p o g.

(** *** The machine *)

(** A call of the library back into the application. *)
Inductive Invocation :=
| call_stateCallback (client : UA_ClientPtr)
    (channelState : UA_SecureChannelState) (sessionState : UA_SessionState)
    (recoveryStatus : UA_StatusCode)
| call_handler_currentTimeChanged (client : UA_ClientPtr)
    (subId : UA_UInt32) (subContext : VoidPtr)
    (dataChangeNotification : UA_DataChangeNotification)
| call_deleteSubscriptionCallback (client : UA_ClientPtr)
    (subscriptionId_ : UA_UInt32) (subscriptionContext : VoidPtr)
| call_subscriptionInactivityCallback (client : UA_ClientPtr)
    (subId : UA_UInt32) (subContext : VoidPtr).

Definition body_of (i : Invocation) : prog unit :=
  match i with
  | call_stateCallback client cs ss rs => stateCallback client cs ss rs
  | call_handler_currentTimeChanged client subId ctx n =>
      handler_currentTimeChanged client subId ctx n
  | call_deleteSubscriptionCallback client subId ctx =>
      deleteSubscriptionCallback client subId ctx
  | call_subscriptionInactivityCallback client subId ctx =>
      subscriptionInactivityCallback client subId ctx
  end.

(** What the process runs when a signal arrives: the handler installed
    with [signal], if it is a signal handler of the program. *)
Definition signal_body (handler : FnPtr) (signum : Z) : option (prog unit) :=
  match handler with
  | fn_stopHandler => Some (stopHandler signum)
  | _ => None
  end.

(** The calls of the client library during which it processes network
    traffic and calls back. *)
Definition reentrant (c : Call) : bool :=
  match c with
  | c_UA_Client_connect _ _
  | c_UA_Client_run_iterate _ _
  | c_UA_Client_delete _
  | c_UA_Client_Subscriptions_createCompleteDataChange _ _ _ _ _ _
  | c_UA_Client_MonitoredItems_createDataChange _ _ _ _ _ _ _ => true
  | _ => false
  end.

(** The process: the globals, the handler installed for SIGINT, and the
    call stack with [main] at the bottom. *)
Record Config := {
  globals : Globals;
  sigint_handler : FnPtr;         (* [fn_NULL]: none installed *)
  stack : list (prog unit);       (* callbacks in progress, innermost first *)
  main_frame : prog Z }.

Definition initial_config : Config :=
  {| globals := initial_globals;
     sigint_handler := fn_NULL;
     stack := [];
     main_frame := main |}.

Definition depth (cfg : Config) : nat := List.length (stack cfg).

(** What a step shows: the frame at depth [d] ([main] is at depth 0)
    makes a call and gets its answer, enters an iteration of a loop or
    returns; the library calls back; a signal arrives. *)
Inductive Label :=
| LCall (d : nat) (c : Call) (a : Ans c)
| LLoop (d : nat)
| LReturn (d : nat)
| LInvoke (d : nat) (i : Invocation)
| LSignal (signum : Z).

(** What the environment decides at a step. *)
Inductive Choice :=
| Run (o : Oracle)
| Callback (i : Invocation)
| Signal.

(** One iteration of [While] laid out. *)
Definition unfold_While {R} (cond : prog bool) (body : prog unit)
    (k : prog R) : prog R :=
  x <- cond ;; if (x : bool) then body ;; While cond body k else k.

(** The next step of one frame. *)
Definition step_prog {R} (o : Oracle) (d : nat) (p : prog R) (g : Globals)
  : option (Label * prog R * Globals) :=
  match p with
  | Ret _ => None
  | Do c k => let (a, g') := perform o c g in Some (LCall d c a, k a, g')
  | While cond body k => Some (LLoop d, unfold_While cond body k, g)
  end.

(** The call a frame is about to make or is waiting in. *)
Definition pending {R} (p : prog R) : option Call :=
  match p with
  | Do c _ => Some c
  | _ => None
  end.

Definition pending_reentrant {R} (p : prog R) : bool :=
  match pending p with
  | Some c => reentrant c
  | None => false
  end.

Definition installs (l : Label) (old : FnPtr) : FnPtr :=
  match l with
  | LCall _ (c_signal signum handler) _ =>
      if signum =? SIGINT then handler else old
  | _ => old
  end.

Definition terminated (cfg : Config) : option Z :=
  match stack cfg, main_frame cfg with
  | [], Ret code => Some code
  | _, _ => None
  end.

Definition push (p : prog unit) (cfg : Config) : Config :=
  {| globals := globals cfg;
     sigint_handler := sigint_handler cfg;
     stack := p :: stack cfg;
     main_frame := main_frame cfg |}.

(** One step of the machine.  [Run o]: the innermost frame goes on; a
    callback at its end returns to the frame below, a [While] is laid
    out, a call is made and answered, by the store or by [o].
    [Callback i]: the library, during a call the innermost frame waits
    in, calls back into the application.  [Signal]: SIGINT is delivered
    and the handler installed for it is entered.  There is no step when
    [main] has returned. *)
Definition step (cfg : Config) (ch : Choice) : option (Label * Config) :=
  match ch with
  | Run o =>
      match stack cfg with
      | [] =>
          match step_prog o 0 (main_frame cfg) (globals cfg) with
          | Some (l, p', g') =>
              Some (l, {| globals := g';
                          sigint_handler := installs l (sigint_handler cfg);
                          stack := [];
                          main_frame := p' |})
          | None => None
          end
      | Ret _ :: rest =>
          Some (LReturn (depth cfg),
                {| globals := globals cfg;
                   sigint_handler := sigint_handler cfg;
                   stack := rest;
                   main_frame := main_frame cfg |})
      | f :: rest =>
          match step_prog o (depth cfg) f (globals cfg) with
          | Some (l, f', g') =>
              Some (l, {| globals := g';
                          sigint_handler := installs l (sigint_handler cfg);
                          stack := f' :: rest;
                          main_frame := main_frame cfg |})
          | None => None
          end
      end
  | Callback i =>
      let waiting :=
        match stack cfg with
        | [] => pending_reentrant (main_frame cfg)
        | f :: _ => pending_reentrant f
        end in
      if waiting then Some (LInvoke (depth cfg) i, push (body_of i) cfg)
      else None
  | Signal =>
      match terminated cfg, signal_body (sigint_handler cfg) SIGINT with
      | None, Some p => Some (LSignal SIGINT, push p cfg)
      | _, _ => None
      end
  end.

(** The run of the machine under a schedule: what it shows and where it
    ends, when every choice of the schedule is possible. *)
Fixpoint run (cfg : Config) (sched : list Choice)
  : option (list Label * Config) :=
  match sched with
  | [] => Some ([], cfg)
  | ch :: sched' =>
      match step cfg ch with
      | Some (l, cfg') =>
          match run cfg' sched' with
          | Some (t, cfg'') => Some (l :: t, cfg'')
          | None => None
          end
      | None => None
      end
  end.

End Semantics.

(** ** Environments given by a table of answers *)

Section Answers.

Context {T : LibraryTypes} {L : ClientLibrary}.

Record Answers := {
  ans_UA_Client_new : UA_ClientPtr;
  ans_UA_Client_getConfig : UA_ClientConfigPtr;
  ans_UA_ClientConfig_setDefault : UA_StatusCode;
  ans_UA_Client_connect : UA_StatusCode;
  ans_UA_Client_run_iterate : UA_StatusCode;
  ans_createCompleteDataChange : UA_CreateSubscriptionResponse;
  ans_createDataChange : UA_MonitoredItemCreateResult }.

(** The accesses to the globals are never answered by the environment;
    their entries are placeholders. *)
Definition oracle_of (a : Answers) : Oracle :=
  fun c =>
    match c as c0 return Ans c0 with
    | c_UA_Client_new => ans_UA_Client_new a
    | c_UA_Client_getConfig _ => ans_UA_Client_getConfig a
    | c_UA_ClientConfig_setDefault _ => ans_UA_ClientConfig_setDefault a
    | c_UA_Client_connect _ _ => ans_UA_Client_connect a
    | c_UA_Client_run_iterate _ _ => ans_UA_Client_run_iterate a
    | c_UA_Client_Subscriptions_createCompleteDataChange _ _ _ _ _ _ =>
        ans_createCompleteDataChange a
    | c_UA_Client_MonitoredItems_createDataChange _ _ _ _ _ _ _ =>
        ans_createDataChange a
    | c_load_running => true
    | c_load_currentTimeClientHandle => 0
    | _ => tt
    end.

End Answers.

(** ** One library

    An instance of the library interface, to run the program on concrete
    inputs: a variant is empty, a scalar or an array of integers tagged
    with the index of its type, and the calendar conversion is the
    proleptic Gregorian one on 100 ns ticks since 1601-01-01. *)

Module Example.

Inductive Variant :=
| empty
| scalar (type_index : Z) (data : Z)
| array (type_index : Z) (data : list Z).

Definition types : LibraryTypes :=
  {| UA_Variant := Variant;
     UA_CreateSubscriptionRequest := unit;
     UA_MonitoringParameters_rest := unit;
     UA_MonitoredItemCreateRequest_rest := UA_NodeId |}.

#[local] Existing Instance types.

Definition hasScalarType (v : Variant) (type_index : Z) : bool :=
  match v with
  | scalar t _ => t =? type_index
  | _ => false
  end.

Definition data_DateTime (v : Variant) : UA_DateTime :=
  match v with
  | scalar _ d => d
  | _ => 0
  end.

Definition toStruct (t : UA_DateTime) : UA_DateTimeStruct :=
  let secs := t / 10000000 in
  let days := secs / 86400 in
  let z := days - 134774 + 719468 in
  let era := z / 146097 in
  let doe := z - era * 146097 in
  let yoe := (doe - doe / 1460 + doe / 36524 - doe / 146096) / 365 in
  let doy := doe - (365 * yoe + yoe / 4 - yoe / 100) in
  let mp := (5 * doy + 2) / 153 in
  let m := if mp <? 10 then mp + 3 else mp - 9 in
  {| nanoSec := (t mod 10) * 100;
     microSec := (t / 10) mod 1000;
     milliSec := (t / 10000) mod 1000;
     sec := secs mod 60;
     min := (secs / 60) mod 60;
     hour := (secs / 3600) mod 24;
     day := doy - (153 * mp + 2) / 5 + 1;
     month := m;
     year := yoe + era * 400 + (if m <=? 2 then 1 else 0) |}.

Definition library : @ClientLibrary types :=
  {| UA_STATUSCODE_GOOD := 0;
     UA_NS0ID_SERVER_SERVERSTATUS_CURRENTTIME := 2258;
     UA_TYPES_DATETIME := 12;
     UA_Variant_hasScalarType := hasScalarType;
     UA_Variant_data_DateTime := data_DateTime;
     UA_DateTime_toStruct := toStruct;
     UA_CreateSubscriptionRequest_default := tt;
     UA_MonitoredItemCreateRequest_default := fun n =>
       @Build_UA_MonitoredItemCreateRequest types
         (@Build_UA_MonitoringParameters types 0 tt) n |}.

#[local] Existing Instance library.

Definition BadConnectionClosed : UA_StatusCode := 0x80AE0000.

(** An environment in which every request succeeds. *)
Definition all_good : Answers :=
  {| ans_UA_Client_new := 4096;
     ans_UA_Client_getConfig := 4104;
     ans_UA_ClientConfig_setDefault := 0;
     ans_UA_Client_connect := 0;
     ans_UA_Client_run_iterate := 0;
     ans_createCompleteDataChange :=
       {| responseHeader := {| serviceResult := 0 |}; subscriptionId := 7 |};
     ans_createDataChange := {| statusCode := 0; monitoredItemId := 1 |} |}.

(** An environment in which the creation of the subscription fails. *)
Definition subscription_fails : Answers :=
  {| ans_UA_Client_new := 4096;
     ans_UA_Client_getConfig := 4104;
     ans_UA_ClientConfig_setDefault := 0;
     ans_UA_Client_connect := 0;
     ans_UA_Client_run_iterate := 0;
     ans_createCompleteDataChange :=
       {| responseHeader := {| serviceResult := BadConnectionClosed |};
          subscriptionId := 0 |};
     ans_createDataChange := {| statusCode := 0; monitoredItemId := 1 |} |}.

(** An environment in which the connection attempts fail. *)
Definition connect_fails : Answers :=
  {| ans_UA_Client_new := 4096;
     ans_UA_Client_getConfig := 4104;
     ans_UA_ClientConfig_setDefault := 0;
     ans_UA_Client_connect := BadConnectionClosed;
     ans_UA_Client_run_iterate := 0;
     ans_createCompleteDataChange :=
       {| responseHeader := {| serviceResult := 0 |}; subscriptionId := 7 |};
     ans_createDataChange := {| statusCode := 0; monitoredItemId := 1 |} |}.

(** The program is started and every connection attempt fails, three
    times so far. *)
Definition retry_schedule : list Choice :=
  repeat (Run (oracle_of connect_fails)) 21.

(** The program is started and connects; SIGINT arrives while the
    connection is made and the handler runs to its end ... *)
Definition stop_schedule : list Choice :=
  repeat (Run (oracle_of all_good)) 8 ++ [Signal] ++
  repeat (Run (oracle_of all_good)) 3.

(** ... and then the program runs until [main] returns. *)
Definition exit_schedule : list Choice :=
  repeat (Run (oracle_of all_good)) 5.


Definition trace_of (r : option (list Label * Config)) : list Label :=
  match r with
  | Some (t, _) => t
  | None => []
  end.

Definition config_of (r : option (list Label * Config)) : Config :=
  match r with
  | Some (_, c) => c
  | None => initial_config
  end.

Definition retry_trace : list Label :=
  Eval vm_compute in trace_of (run initial_config retry_schedule).
Definition retry_config : Config :=
  Eval vm_compute in config_of (run initial_config retry_schedule).
Definition stop_config : Config :=
  Eval vm_compute in config_of (run initial_config stop_schedule).
Definition exit_config : Config :=
  Eval vm_compute in config_of (run stop_config exit_schedule).

(** 2020-02-29 12:34:56.789 *)
Definition a_time : UA_DateTime := 132274532967890000.

Definition element (handle : UA_UInt32) (v : Variant)
  : UA_MonitoredItemNotification :=
  {| mn_clientHandle := handle;
     mn_value := {| value := v; status := 0;
                    sourceTimestamp := a_time; serverTimestamp := a_time |} |}.

End Example.

(** ** Auxiliary definitions of the proofs *)

Section Auxiliary.

Context {T : LibraryTypes} {L : ClientLibrary}.

Local Open Scope prog_scope.

(** A program without [While]: every function of the example but [main]. *)
Fixpoint loop_free {R} (p : prog R) : Prop :=
  match p with
  | Ret _ => True
  | Do _ k => forall a, loop_free (k a)
  | While _ _ _ => False
  end.

(** [f] on the elements of [l], first to last. *)
Fixpoint each {A} (l : list A) (f : A -> prog unit) : prog unit :=
  match l with
  | [] => Ret tt
  | x :: l' => f x ;; each l' f
  end.

(** The two reports of [handler_currentTimeChanged]. *)
Definition change_report : Call :=
  c_UA_LOG UA_LOGLEVEL_INFO UA_Log_Stdout UA_LOGCATEGORY_USERLAND
           "currentTime has changed!" [].

Definition date_report (v : UA_Variant) : Call :=
  let dts := UA_DateTime_toStruct (UA_Variant_data_DateTime v) in
  c_UA_LOG UA_LOGLEVEL_INFO UA_Log_Stdout UA_LOGCATEGORY_USERLAND
           "date is: %02u-%02u-%04u %02u:%02u:%02u.%03u"
           [day dts; month dts; year dts; hour dts; min dts; sec dts;
            milliSec dts].

Definition is_change_report (c : Call) : bool :=
  match c with
  | c_UA_LOG UA_LOGLEVEL_INFO _ _ msg _ =>
      String.eqb msg "currentTime has changed!"
  | _ => false
  end.

Definition is_DateTime_scalar (mn : UA_MonitoredItemNotification) : bool :=
  UA_Variant_hasScalarType (value (mn_value mn)) UA_TYPES_DATETIME.

(** What the handler is expected to do at one element whose client handle
    is the registered one. *)
Definition handling (mn : UA_MonitoredItemNotification) : list Call :=
  change_report ::
  (if is_DateTime_scalar mn then [date_report (value (mn_value mn))] else []).

(** The client handle a call asks the server to echo, when the call is a
    monitored-item creation. *)
Definition requested_handle (c : Call) : option UA_UInt32 :=
  match c with
  | c_UA_Client_MonitoredItems_createDataChange _ _ _ item _ _ _ =>
      Some (clientHandle (requestedParameters item))
  | _ => None
  end.

Fixpoint requested_handles (t : list Call) : list UA_UInt32 :=
  match t with
  | [] => []
  | c :: t' =>
      match requested_handle c with
      | Some h => h :: requested_handles t'
      | None => requested_handles t'
      end
  end.

(** What [stateCallback] logs for the state of the channel. *)
Definition channel_report (channelState : UA_SecureChannelState)
  : list Call :=
  match channelState with
  | UA_SECURECHANNELSTATE_CLOSED =>
      [c_UA_LOG UA_LOGLEVEL_INFO UA_Log_Stdout UA_LOGCATEGORY_USERLAND
                "The client is disconnected" []]
  | UA_SECURECHANNELSTATE_HEL_SENT =>
      [c_UA_LOG UA_LOGLEVEL_INFO UA_Log_Stdout UA_LOGCATEGORY_USERLAND
                "Waiting for ack" []]
  | UA_SECURECHANNELSTATE_OPN_SENT =>
      [c_UA_LOG UA_LOGLEVEL_INFO UA_Log_Stdout UA_LOGCATEGORY_USERLAND
                "Waiting for OPN Response" []]
  | UA_SECURECHANNELSTATE_OPEN =>
      [c_UA_LOG UA_LOGLEVEL_INFO UA_Log_Stdout UA_LOGCATEGORY_USERLAND
                "A SecureChannel to the server is open" []]
  | UA_SECURECHANNELSTATE_other _ => []
  end.

(** The two requests of [stateCallback] as it issues them. *)
Definition subscription_request (client : UA_ClientPtr) : Call :=
  c_UA_Client_Subscriptions_createCompleteDataChange
    client UA_CreateSubscriptionRequest_default NULL fn_NULL
    fn_deleteSubscriptionCallback fn_handler_currentTimeChanged.

Definition monitored_item_request (client : UA_ClientPtr)
    (subId : UA_UInt32) (handle : UA_UInt32) : Call :=
  let monRequest :=
    UA_MonitoredItemCreateRequest_default
      (UA_NODEID_NUMERIC 0 UA_NS0ID_SERVER_SERVERSTATUS_CURRENTTIME) in
  c_UA_Client_MonitoredItems_createDataChange
    client subId UA_TIMESTAMPSTORETURN_BOTH
    {| requestedParameters :=
         {| clientHandle := handle;
            otherParameters :=
              otherParameters (requestedParameters monRequest) |};
       otherMembers := otherMembers monRequest |}
    NULL fn_NULL fn_NULL.

Definition is_log (c : Call) : bool :=
  match c with
  | c_UA_LOG _ _ _ _ _ => true
  | _ => false
  end.

Definition batch (l : list UA_MonitoredItemNotification)
  : UA_DataChangeNotification := {| monitoredItems := l |}.

End Auxiliary.

(** ** The control flow of [main] and what the runs of the machine show *)

Section Control.

Context {T : LibraryTypes} {L : ClientLibrary}.

Local Open Scope prog_scope.

(** Every call a program can make, whatever it is answered, is in [P]. *)
Fixpoint all_calls (P : Call -> Prop) (R : Type) (p : prog R) : Prop :=
  match p with
  | Ret _ => True
  | Do c k => P c /\ forall a, all_calls P (k a)
  | While cond body k =>
      all_calls P cond /\ all_calls P body /\ all_calls P k
  end.

(** The calls of the callbacks: the logger, the two requests and the read
    of the handle; the signal handler also clears [running]. *)
Definition frame_call (signals : bool) (c : Call) : Prop :=
  match c with
  | c_UA_LOG _ _ _ _ _
  | c_UA_Client_Subscriptions_createCompleteDataChange _ _ _ _ _ _
  | c_UA_Client_MonitoredItems_createDataChange _ _ _ _ _ _ _
  | c_load_currentTimeClientHandle => True
  | c_store_running v => signals = true /\ v = false
  | _ => False
  end.

Definition choice_ok (signals : bool) (ch : Choice) : Prop :=
  match ch with
  | Signal => signals = true
  | _ => True
  end.

(** The points of [main]: before each of its calls, at the loop and at
    its test, and at the end. *)
Inductive MainPC :=
| at_signal
| at_new
| at_getConfig (client : UA_ClientPtr)
| at_setDefault (client : UA_ClientPtr) (cc : UA_ClientConfigPtr)
| at_set_stateCallback (client : UA_ClientPtr) (cc : UA_ClientConfigPtr)
| at_set_inactivityCallback (client : UA_ClientPtr) (cc : UA_ClientConfigPtr)
| at_while (client : UA_ClientPtr)
| at_test (client : UA_ClientPtr)
| at_connect (client : UA_ClientPtr)
| at_log_error (client : UA_ClientPtr)
| at_sleep (client : UA_ClientPtr)
| at_iterate (client : UA_ClientPtr)
| at_delete (client : UA_ClientPtr)
| at_return.

Definition main_while (client : UA_ClientPtr) : prog Z :=
  While (call c_load_running) (main_loop_body client) (main_cleanup client).

(** What is left of [main] at each point. *)
Definition main_at (pc : MainPC) : prog Z :=
  match pc with
  | at_signal => main
  | at_new =>
      client <- call c_UA_Client_new ;;
      cc <- call (c_UA_Client_getConfig client) ;;
      call_ (c_UA_ClientConfig_setDefault cc) ;;
      call_ (c_set_stateCallback cc fn_stateCallback) ;;
      call_ (c_set_subscriptionInactivityCallback
               cc fn_subscriptionInactivityCallback) ;;
      main_while client
  | at_getConfig client =>
      cc <- call (c_UA_Client_getConfig client) ;;
      call_ (c_UA_ClientConfig_setDefault cc) ;;
      call_ (c_set_stateCallback cc fn_stateCallback) ;;
      call_ (c_set_subscriptionInactivityCallback
               cc fn_subscriptionInactivityCallback) ;;
      main_while client
  | at_setDefault client cc =>
      call_ (c_UA_ClientConfig_setDefault cc) ;;
      call_ (c_set_stateCallback cc fn_stateCallback) ;;
      call_ (c_set_subscriptionInactivityCallback
               cc fn_subscriptionInactivityCallback) ;;
      main_while client
  | at_set_stateCallback client cc =>
      call_ (c_set_stateCallback cc fn_stateCallback) ;;
      call_ (c_set_subscriptionInactivityCallback
               cc fn_subscriptionInactivityCallback) ;;
      main_while client
  | at_set_inactivityCallback client cc =>
      call_ (c_set_subscriptionInactivityCallback
               cc fn_subscriptionInactivityCallback) ;;
      main_while client
  | at_while client => main_while client
  | at_test client =>
      unfold_While (call c_load_running) (main_loop_body client)
                   (main_cleanup client)
  | at_connect client => main_loop_body client ;; main_while client
  | at_log_error client =>
      (UA_LOG_ERROR UA_Log_Stdout UA_LOGCATEGORY_USERLAND
                    "Not connected. Retrying to connect in 1 second" [] ;;
       call_ (c_sleep_ms 1000)) ;;
      main_while client
  | at_sleep client => call_ (c_sleep_ms 1000) ;; main_while client
  | at_iterate client =>
      call_ (c_UA_Client_run_iterate client 1000) ;; main_while client
  | at_delete client => main_cleanup client
  | at_return => Ret EXIT_SUCCESS
  end.

Definition endpointUrl : string := "opc.tcp://localhost:4840".

Definition connect_error_log : Call :=
  c_UA_LOG UA_LOGLEVEL_ERROR UA_Log_Stdout UA_LOGCATEGORY_USERLAND
           "Not connected. Retrying to connect in 1 second" [].

(** The step [main] takes at each point: the call with its answer, and
    the point it leads to. *)
Definition main_step (pc : MainPC) (o : Oracle) (g : Globals)
  : option (Label * MainPC) :=
  match pc with
  | at_signal =>
      Some (LCall 0 (c_signal SIGINT fn_stopHandler) (o _), at_new)
  | at_new =>
      Some (LCall 0 c_UA_Client_new (o c_UA_Client_new),
            at_getConfig (o c_UA_Client_new))
  | at_getConfig client =>
      Some (LCall 0 (c_UA_Client_getConfig client) (o _),
            at_setDefault client (o (c_UA_Client_getConfig client)))
  | at_setDefault client cc =>
      Some (LCall 0 (c_UA_ClientConfig_setDefault cc) (o _),
            at_set_stateCallback client cc)
  | at_set_stateCallback client cc =>
      Some (LCall 0 (c_set_stateCallback cc fn_stateCallback) (o _),
            at_set_inactivityCallback client cc)
  | at_set_inactivityCallback client cc =>
      Some (LCall 0 (c_set_subscriptionInactivityCallback
                       cc fn_subscriptionInactivityCallback) (o _),
            at_while client)
  | at_while client => Some (LLoop 0, at_test client)
  | at_test client =>
      Some (LCall 0 c_load_running (running g),
            if running g then at_connect client else at_delete client)
  | at_connect client =>
      Some (LCall 0 (c_UA_Client_connect client endpointUrl) (o _),
            if negb (o (c_UA_Client_connect client endpointUrl)
                     =? UA_STATUSCODE_GOOD)
            then at_log_error client else at_iterate client)
  | at_log_error client =>
      Some (LCall 0 connect_error_log (o _), at_sleep client)
  | at_sleep client =>
      Some (LCall 0 (c_sleep_ms 1000) (o _), at_while client)
  | at_iterate client =>
      Some (LCall 0 (c_UA_Client_run_iterate client 1000) (o _),
            at_while client)
  | at_delete client =>
      Some (LCall 0 (c_UA_Client_delete client) (o _), at_return)
  | at_return => None
  end.

(** *** Reading a run *)

(** The step of [main] itself, as opposed to one of a callback. *)
Definition is_main_label (l : Label) : bool :=
  match l with
  | LCall O _ _ | LLoop O => true
  | _ => false
  end.

(** The calls of a run, and those that leave the program made by [main]
    itself. *)
Definition calls (tr : list Label) : list Call :=
  flat_map (fun l => match l with LCall _ c _ => [c] | _ => [] end) tr.

Definition main_calls (tr : list Label) : list Call :=
  flat_map (fun l => match l with LCall O c _ => observe c | _ => [] end) tr.

(** The number of steps [main] itself takes in a run. *)
Definition main_steps (tr : list Label) : nat :=
  List.length (filter is_main_label tr).

Definition count (f : Call -> bool) (tr : list Label) : nat :=
  List.length (filter f (calls tr)).

Definition is_connect (c : Call) : bool :=
  match c with c_UA_Client_connect _ _ => true | _ => false end.
Definition is_iterate (c : Call) : bool :=
  match c with c_UA_Client_run_iterate _ _ => true | _ => false end.
Definition is_delete (c : Call) : bool :=
  match c with c_UA_Client_delete _ => true | _ => false end.

(** The values of [running] along a run, from the one it starts with. *)
Fixpoint running_history (cfg : Config) (sched : list Choice) : list bool :=
  running (globals cfg) ::
  match sched with
  | [] => []
  | ch :: sched' =>
      match step cfg ch with
      | Some (_, cfg') => running_history cfg' sched'
      | None => []
      end
  end.

Definition no_signal (sched : list Choice) : Prop :=
  Forall (fun ch => ch <> Signal) sched.

(** Every connection attempt of the run was answered with a status other
    than Good. *)
Definition connect_failed (l : Label) : Prop :=
  match l with
  | LCall _ c a =>
      match c as c0 return Ans c0 -> Prop with
      | c_UA_Client_connect _ _ => fun r => r <> UA_STATUSCODE_GOOD
      | _ => fun _ => True
      end a
  | _ => True
  end.

Definition connects_fail (tr : list Label) : Prop := Forall connect_failed tr.

(** What [main] calls before the loop, and in one iteration in which the
    connection attempt fails. *)
Definition startup_calls (client : UA_ClientPtr) (cc : UA_ClientConfigPtr)
  : list Call :=
  [c_signal SIGINT fn_stopHandler;
   c_UA_Client_new;
   c_UA_Client_getConfig client;
   c_UA_ClientConfig_setDefault cc;
   c_set_stateCallback cc fn_stateCallback;
   c_set_subscriptionInactivityCallback cc fn_subscriptionInactivityCallback].

Definition retry_cycle (client : UA_ClientPtr) : list Call :=
  [c_UA_Client_connect client endpointUrl;
   connect_error_log;
   c_sleep_ms 1000].

Definition prefix {A} (l1 l2 : list A) : Prop := exists l, l2 = l1 ++ l.

(** *** The machine seen from [main]

    A step of the machine is a step of [main] along its control flow, or
    a step in which [main] stays where it is: a callback or the signal
    handler is entered, takes a step or returns. *)

Definition apply_label (l : Label) (g : Globals) : Globals :=
  match l with
  | LCall _ (c_store_running v) _ =>
      {| running := v; currentTimeClientHandle := currentTimeClientHandle g |}
  | _ => g
  end.

Definition frame_label (signals : bool) (l : Label) : Prop :=
  match l with
  | LCall _ c _ => frame_call signals c
  | LSignal _ => signals = true
  | _ => True
  end.

Inductive astep (signals : bool)
  : MainPC * Globals -> Label -> MainPC * Globals -> Prop :=
| astep_main pc o g l pc' :
    main_step pc o g = Some (l, pc') ->
    astep signals (pc, g) l (pc', g)
| astep_frame pc g l :
    is_main_label l = false ->
    frame_label signals l ->
    astep signals (pc, g) l (pc, apply_label l g).

Inductive asteps (signals : bool)
  : MainPC * Globals -> list Label -> MainPC * Globals -> Prop :=
| asteps_nil a : asteps signals a [] a
| asteps_cons a l b tr c :
    astep signals a l b -> asteps signals b tr c ->
    asteps signals a (l :: tr) c.

(** The configurations the machine is in: [main] at one of its points,
    below callbacks that make the calls of callbacks only. *)
Definition inv (signals : bool) (cfg : Config) (pc : MainPC) : Prop :=
  main_frame cfg = main_at pc /\
  Forall (all_calls (frame_call signals) (R := unit)) (stack cfg).

(** Callbacks in progress and, with signals, signal handlers. *)
Definition frames_ok (signals : bool) (stk : list (prog unit)) : Prop :=
  Forall (fun f => loop_free f /\ all_calls (frame_call signals) f) stk.

(** [main] at the loop, nothing above it. *)
Definition loop_config (client : UA_ClientPtr) (g : Globals) (h : FnPtr)
  : Config :=
  {| globals := g; sigint_handler := h; stack := [];
     main_frame := main_at (at_while client) |}.

(** *** Measures on the points of [main] *)

(** What [main] has called when it is at a point, no iteration of the
    loop having connected so far. *)
Definition main_progress (pc : MainPC) (done : list Call) : Prop :=
  match pc with
  | at_signal => done = []
  | at_new => done = firstn 1 (startup_calls 0 0)
  | at_getConfig client => done = firstn 2 (startup_calls client 0)
  | at_setDefault client cc => done = firstn 3 (startup_calls client cc)
  | at_set_stateCallback client cc => done = firstn 4 (startup_calls client cc)
  | at_set_inactivityCallback client cc =>
      done = firstn 5 (startup_calls client cc)
  | at_while client | at_test client | at_connect client =>
      exists cc n,
        done = startup_calls client cc ++
               List.concat (repeat (retry_cycle client) n)
  | at_log_error client =>
      exists cc n,
        done = startup_calls client cc ++
               List.concat (repeat (retry_cycle client) n) ++
               firstn 1 (retry_cycle client)
  | at_sleep client =>
      exists cc n,
        done = startup_calls client cc ++
               List.concat (repeat (retry_cycle client) n) ++
               firstn 2 (retry_cycle client)
  | at_iterate _ | at_delete _ | at_return => False
  end.




Definition steps_left (pc : MainPC) : nat :=
  match pc with
  | at_signal => 9
  | at_new => 8
  | at_getConfig _ => 7
  | at_setDefault _ _ => 6
  | at_set_stateCallback _ _ => 5
  | at_set_inactivityCallback _ _ => 4
  | at_while _ => 3
  | at_test _ => 2
  | at_connect _ => 6
  | at_log_error _ => 5
  | at_sleep _ => 4
  | at_iterate _ => 4
  | at_delete _ => 1
  | at_return => 0
  end.


Definition leaving (pc : MainPC) : bool :=
  match pc with
  | at_delete _ | at_return => true
  | _ => false
  end.





End Control.

(** ** Further definitions: what every call of every run satisfies *)

Section Discipline.

Context {T : LibraryTypes} {L : ClientLibrary}.

Local Open Scope prog_scope.

(** What the store answers to the read of the handle, as long as the
    handle is 42. *)
Definition answer_ok (c : Call) : Ans c -> Prop :=
  match c as c0 return Ans c0 -> Prop with
  | c_load_currentTimeClientHandle => fun a => a = 42
  | _ => fun _ => True
  end.

(** Every call a program can make is in [P], the handle being read as
    42 and the other calls being answered in any way. *)
Fixpoint all_calls_handle42 (P : Call -> Prop) (R : Type) (p : prog R)
  : Prop :=
  match p with
  | Ret _ => True
  | Do c k => P c /\ forall a, answer_ok c a -> all_calls_handle42 P (k a)
  | While cond body k =>
      all_calls_handle42 P cond /\ all_calls_handle42 P body /\
      all_calls_handle42 P k
  end.

(** A configuration whose frames, [main] included, stay within [P]. *)
Definition within (P : Call -> Prop) (cfg : Config) : Prop :=
  currentTimeClientHandle (globals cfg) = 42 /\
  all_calls_handle42 P (main_frame cfg) /\
  Forall (all_calls_handle42 P (R := unit)) (stack cfg).

(** The monitored items are created with the handle 42, both timestamps
    and no callback of their own. *)
Definition monitors_with_handle42 (c : Call) : Prop :=
  match c with
  | c_UA_Client_MonitoredItems_createDataChange
      _ _ timestampsToReturn item context callback deleteCallback =>
      clientHandle (requestedParameters item) = 42 /\
      timestampsToReturn = UA_TIMESTAMPSTORETURN_BOTH /\
      context = NULL /\ callback = fn_NULL /\ deleteCallback = fn_NULL
  | _ => True
  end.

(** The endpoint, the time-out of an iteration and the back-off are
    fixed. *)
Definition fixed_parameters (c : Call) : Prop :=
  match c with
  | c_UA_Client_connect _ url => url = "opc.tcp://localhost:4840"
  | c_UA_Client_run_iterate _ timeout => timeout = 1000
  | c_sleep_ms ms => ms = 1000
  | _ => True
  end.

(** Each function of the program is registered in its own role, and in
    no other. *)
Definition registers_own_functions (c : Call) : Prop :=
  match c with
  | c_signal signum handler => signum = SIGINT /\ handler = fn_stopHandler
  | c_set_stateCallback _ f => f = fn_stateCallback
  | c_set_subscriptionInactivityCallback _ f =>
      f = fn_subscriptionInactivityCallback
  | c_UA_Client_Subscriptions_createCompleteDataChange
      _ _ _ statusChangeCallback deleteCallback dataChangeCallback =>
      statusChangeCallback = fn_NULL /\
      deleteCallback = fn_deleteSubscriptionCallback /\
      dataChangeCallback = fn_handler_currentTimeChanged
  | c_UA_Client_MonitoredItems_createDataChange _ _ _ _ _ callback
      deleteCallback =>
      callback = fn_NULL /\ deleteCallback = fn_NULL
  | _ => True
  end.

(** The three properties at once. *)
Definition disciplined (c : Call) : Prop :=
  monitors_with_handle42 c /\ fixed_parameters c /\ registers_own_functions c.

End Discipline.

(** ** Further definitions: the shape of the runs *)

Section Shape.

Context {T : LibraryTypes} {L : ClientLibrary}.

Local Open Scope prog_scope.

(** The calls [main] itself makes. *)
Definition main_call (c : Call) : Prop :=
  match c with
  | c_UA_LOG level _ _ _ _ => level = UA_LOGLEVEL_ERROR
  | c_UA_Client_Subscriptions_createCompleteDataChange _ _ _ _ _ _
  | c_UA_Client_MonitoredItems_createDataChange _ _ _ _ _ _ _
  | c_store_running _
  | c_load_currentTimeClientHandle => False
  | _ => True
  end.

(** One iteration of the loop in which the connection is there. *)
Definition iterate_cycle (client : UA_ClientPtr) : list Call :=
  [c_UA_Client_connect client endpointUrl;
   c_UA_Client_run_iterate client 1000].

Definition iteration (client : UA_ClientPtr) (it : list Call) : Prop :=
  it = retry_cycle client \/ it = iterate_cycle client.

(** What [main] has called when it is at a point, in any run. *)
Definition main_history (pc : MainPC) (done : list Call) : Prop :=
  match pc with
  | at_signal => done = []
  | at_new => done = firstn 1 (startup_calls 0 0)
  | at_getConfig client => done = firstn 2 (startup_calls client 0)
  | at_setDefault client cc => done = firstn 3 (startup_calls client cc)
  | at_set_stateCallback client cc => done = firstn 4 (startup_calls client cc)
  | at_set_inactivityCallback client cc =>
      done = firstn 5 (startup_calls client cc)
  | at_while client | at_test client | at_connect client | at_delete client =>
      exists cc its,
        Forall (iteration client) its /\
        done = startup_calls client cc ++ List.concat its
  | at_log_error client | at_iterate client =>
      exists cc its,
        Forall (iteration client) its /\
        done = startup_calls client cc ++ List.concat its ++
               [c_UA_Client_connect client endpointUrl]
  | at_sleep client =>
      exists cc its,
        Forall (iteration client) its /\
        done = startup_calls client cc ++ List.concat its ++
               [c_UA_Client_connect client endpointUrl; connect_error_log]
  | at_return =>
      exists client cc its,
        Forall (iteration client) its /\
        done = startup_calls client cc ++ List.concat its ++
               [c_UA_Client_delete client]
  end.

(** The last call [main] made that left the program, with its answer. *)
Definition last_main_call (tr : list Label) : option Label :=
  fold_left (fun acc l =>
               match l with
               | LCall O c _ => if is_memory c then acc else Some l
               | _ => acc
               end) tr None.

(** What came before a step that is the iterate call, the error report
    or the sleep: the connection attempt with the matching answer. *)
Definition follows_connect (pre : list Label) (l : Label) : Prop :=
  match l with
  | LCall _ (c_UA_Client_run_iterate client _) _ =>
      exists r : UA_StatusCode,
        last_main_call pre =
          Some (LCall 0 (c_UA_Client_connect client endpointUrl) r) /\
        r = UA_STATUSCODE_GOOD
  | LCall O (c_UA_LOG _ _ _ _ _) _ =>
      exists client (r : UA_StatusCode),
        last_main_call pre =
          Some (LCall 0 (c_UA_Client_connect client endpointUrl) r) /\
        r <> UA_STATUSCODE_GOOD
  | LCall _ (c_sleep_ms _) _ =>
      exists u, last_main_call pre = Some (LCall 0 connect_error_log u)
  | _ => True
  end.

Definition branches_follow_connect (tr : list Label) : Prop :=
  forall pre l post, tr = pre ++ l :: post -> follows_connect pre l.

(** What [main] has just done when it is at one of the three points
    after the connection attempt. *)
Definition after_connect (pc : MainPC) (acc : list Label) : Prop :=
  match pc with
  | at_iterate client =>
      exists r : UA_StatusCode,
        last_main_call acc =
          Some (LCall 0 (c_UA_Client_connect client endpointUrl) r) /\
        r = UA_STATUSCODE_GOOD
  | at_log_error client =>
      exists r : UA_StatusCode,
        last_main_call acc =
          Some (LCall 0 (c_UA_Client_connect client endpointUrl) r) /\
        r <> UA_STATUSCODE_GOOD
  | at_sleep _ =>
      exists u, last_main_call acc = Some (LCall 0 connect_error_log u)
  | _ => True
  end.

End Shape.

(** ** Further definitions: requests and what entitles to them *)

Section Credit.

Context {T : LibraryTypes} {L : ClientLibrary}.

Local Open Scope prog_scope.

(** A frame affords its calls with a credit of [n]: each call costs
    [cost], each answer brings [gain], and the credit never goes below
    zero, whatever the answers. *)
Fixpoint affords (cost : Call -> nat) (gain : forall c : Call, Ans c -> nat)
    (n : nat) (R : Type) (p : prog R) : Prop :=
  match p with
  | Ret _ => True
  | Do c k =>
      (cost c <= n)%nat /\
      forall a, affords cost gain (n - cost c + gain c a) (k a)
  | While _ _ _ => False
  end.

(** What a step costs and what it brings; an invocation of a callback
    brings [entry]. *)
Definition label_cost (cost : Call -> nat) (l : Label) : nat :=
  match l with
  | LCall _ c _ => cost c
  | _ => 0%nat
  end.

Definition label_gain (gain : forall c : Call, Ans c -> nat)
    (entry : Invocation -> nat) (l : Label) : nat :=
  match l with
  | LCall _ c a => gain c a
  | LInvoke _ i => entry i
  | _ => 0%nat
  end.

Definition total (f : Label -> nat) (tr : list Label) : nat :=
  list_sum (map f tr).

(** A call that costs nothing and brings nothing. *)
Definition free (cost : Call -> nat) (gain : forall c : Call, Ans c -> nat)
    (c : Call) : Prop :=
  cost c = 0%nat /\ forall a, gain c a = 0%nat.

(** The two requests. *)
Definition requests_subscription (c : Call) : bool :=
  match c with
  | c_UA_Client_Subscriptions_createCompleteDataChange _ _ _ _ _ _ => true
  | _ => false
  end.

Definition requests_item (c : Call) : bool :=
  match c with
  | c_UA_Client_MonitoredItems_createDataChange _ _ _ _ _ _ _ => true
  | _ => false
  end.

(** The library enters [stateCallback] with the session activated. *)
Definition activation (i : Invocation) : bool :=
  match i with
  | call_stateCallback _ _ UA_SESSIONSTATE_ACTIVATED _ => true
  | _ => false
  end.

Definition reports_activation (l : Label) : bool :=
  match l with
  | LInvoke _ i => activation i
  | _ => false
  end.

(** The answer to a request for a subscription is Good. *)
Definition created (c : Call) : Ans c -> bool :=
  match c as c0 return Ans c0 -> bool with
  | c_UA_Client_Subscriptions_createCompleteDataChange _ _ _ _ _ _ =>
      fun response =>
        serviceResult (responseHeader response) =? UA_STATUSCODE_GOOD
  | _ => fun _ => false
  end.

Definition subscription_created (l : Label) : bool :=
  match l with
  | LCall _ c a => created c a
  | _ => false
  end.

Definition one (b : bool) : nat := if b then 1%nat else 0%nat.

End Credit.

(** ** Further definitions: the pointers [main] passes on *)

Section Pointers.

Context {T : LibraryTypes} {L : ClientLibrary}.

(** The client and the configuration [main] holds at a point. *)
Definition client_at (pc : MainPC) : option UA_ClientPtr :=
  match pc with
  | at_signal | at_new | at_return => None
  | at_getConfig client | at_setDefault client _
  | at_set_stateCallback client _ | at_set_inactivityCallback client _
  | at_while client | at_test client | at_connect client
  | at_log_error client | at_sleep client | at_iterate client
  | at_delete client => Some client
  end.

Definition config_at (pc : MainPC) : option UA_ClientConfigPtr :=
  match pc with
  | at_setDefault _ cc | at_set_stateCallback _ cc
  | at_set_inactivityCallback _ cc => Some cc
  | _ => None
  end.

(** The client, and the configuration, a call of [main] is made on. *)
Definition passes_client (c : Call) : option UA_ClientPtr :=
  match c with
  | c_UA_Client_getConfig client
  | c_UA_Client_connect client _
  | c_UA_Client_run_iterate client _
  | c_UA_Client_delete client => Some client
  | _ => None
  end.

Definition passes_config (c : Call) : option UA_ClientConfigPtr :=
  match c with
  | c_UA_ClientConfig_setDefault cc
  | c_set_stateCallback cc _
  | c_set_subscriptionInactivityCallback cc _ => Some cc
  | _ => None
  end.

(** What [stateCallback] logs for the state of the session when it is
    not activated. *)
Definition session_report (sessionState : UA_SessionState) : list Call :=
  match sessionState with
  | UA_SESSIONSTATE_CLOSED =>
      [c_UA_LOG UA_LOGLEVEL_INFO UA_Log_Stdout UA_LOGCATEGORY_USERLAND
                "Session disconnected" []]
  | _ => []
  end.

End Pointers.

(** ** Further definitions: the iteration after a failed connection *)

Section Retry.

Context {T : LibraryTypes} {L : ClientLibrary}.

(** The steps [main] itself takes from a point on, one after the
    other. *)
Fixpoint main_path (pc : MainPC) (ls : list Label) : Prop :=
  match ls with
  | [] => True
  | l :: ls' =>
      exists o g pc', main_step pc o g = Some (l, pc') /\ main_path pc' ls'
  end.

(** The client, the endpoint and the answer of a connection attempt. *)
Definition connect_answer (l : Label)
  : option (UA_ClientPtr * string * UA_StatusCode) :=
  match l with
  | LCall _ c a =>
      match c as c0
            return Ans c0 -> option (UA_ClientPtr * string * UA_StatusCode)
      with
      | c_UA_Client_connect client url => fun r => Some (client, url, r)
      | _ => fun _ => None
      end a
  | _ => None
  end.

(** The steps of [main] itself after a connection attempt that failed, as
    far as the run goes: the error report, the sleep of 1000 ms, the
    loop again, the read of [running], and then the next connection
    attempt on the same client when [running] was read true, the
    deletion of the client when it was read false. *)
Definition after_failed_connect (client : UA_ClientPtr) (ls : list Label)
  : Prop :=
  match ls with
  | [] => True
  | l1 :: ls1 =>
      (exists u, l1 = LCall 0 connect_error_log u) /\
      match ls1 with
      | [] => True
      | l2 :: ls2 =>
          (exists u, l2 = LCall 0 (c_sleep_ms 1000) u) /\
          match ls2 with
          | [] => True
          | l3 :: ls3 =>
              l3 = LLoop 0 /\
              match ls3 with
              | [] => True
              | l4 :: ls4 =>
                  exists b : bool,
                    l4 = LCall 0 c_load_running b /\
                    match ls4 with
                    | [] => True
                    | l5 :: _ =>
                        if b
                        then exists r : UA_StatusCode,
                               l5 = LCall 0 (c_UA_Client_connect
                                               client endpointUrl) r
                        else exists u,
                               l5 = LCall 0 (c_UA_Client_delete client) u
                    end
              end
          end
      end
  end.

End Retry.

(** ** One session

    The program is started and connects; while the connection is made
    the library reports the activated session and the callback creates
    the subscription and the item; during the iteration a notification
    arrives; then SIGINT arrives, and the program runs to its end. *)

Module Session.

Import Example.

#[local] Existing Instance Example.types.
#[local] Existing Instance Example.library.

Definition good : Choice := Run (oracle_of all_good).

Definition notification : UA_DataChangeNotification :=
  batch [element 42 (scalar 12 a_time)].

Definition start_schedule : list Choice :=
  repeat good 8 ++
  [Callback (call_stateCallback 4096 UA_SECURECHANNELSTATE_OPEN
                                UA_SESSIONSTATE_ACTIVATED 0)] ++
  repeat good 9 ++
  [Callback (call_handler_currentTimeChanged 4096 7 NULL notification)] ++
  repeat good 4.

Definition end_schedule : list Choice :=
  [Signal] ++ repeat good 7.

Definition schedule : list Choice := start_schedule ++ end_schedule.

Definition start_trace : list Label :=
  Eval vm_compute in trace_of (run initial_config start_schedule).
Definition start_config : Config :=
  Eval vm_compute in config_of (run initial_config start_schedule).
Definition trace : list Label :=
  Eval vm_compute in trace_of (run initial_config schedule).
Definition config : Config :=
  Eval vm_compute in config_of (run initial_config schedule).

(** The request for the item in that run. *)
Definition item : UA_MonitoredItemCreateRequest :=
  {| requestedParameters := {| clientHandle := 42; otherParameters := tt |};
     otherMembers := UA_NODEID_NUMERIC 0 2258 |}.

(** The run up to the call of [UA_Client_run_iterate], and up to the
    deletion of the client. *)
Definition before_iterate : list Label := Eval vm_compute in firstn 27 trace.
Definition after_iterate : list Label := Eval vm_compute in skipn 28 trace.
Definition before_delete : list Label := Eval vm_compute in firstn 30 trace.

End Session.

(** ** One run with a connection that is lost

    The program is started and connects, iterates once, and then the
    connection attempts fail: the second attempt is followed by the
    report, the sleep and the third attempt. *)

Module Mixed.

Import Example.

#[local] Existing Instance Example.types.
#[local] Existing Instance Example.library.

Definition schedule : list Choice :=
  repeat (Run (oracle_of all_good)) 12 ++
  repeat (Run (oracle_of connect_fails)) 6.

Definition trace : list Label :=
  Eval vm_compute in trace_of (run initial_config schedule).
Definition config : Config :=
  Eval vm_compute in config_of (run initial_config schedule).

(** The run up to the attempt that fails, and after it. *)
Definition before_failure : list Label := Eval vm_compute in firstn 12 trace.
Definition after_failure : list Label := Eval vm_compute in skipn 13 trace.

End Mixed.
(** ** Uninterrupted runs of the callbacks *)

Section ExecUnfold.

Context {T : LibraryTypes} {L : ClientLibrary}.

Local Open Scope prog_scope.

Lemma exec_Ret fuel R (r : R) o g : exec fuel (Ret r) o g = Some ([], g, r).
Proof. destruct fuel; reflexivity. Qed.

Lemma exec_Do fuel R c (k : Ans c -> prog R) o g :
  exec fuel (Do c k) o g =
  match exec fuel (k (fst (perform o c g))) o (snd (perform o c g)) with
  | Some (t, g2, r) => Some (observe c ++ t, g2, r)
  | None => None
  end.
Proof. destruct fuel; simpl; destruct (perform o c g); reflexivity. Qed.

End ExecUnfold.

(** Runs a loop-free program whose calls are explicit. *)
Ltac exec_run :=
  repeat first
    [ rewrite exec_Ret
    | rewrite exec_Do
    | progress (unfold UA_LOG_INFO, UA_LOG_ERROR, call, call_; simpl) ].

Section Exec.

Context {T : LibraryTypes} {L : ClientLibrary}.

Local Open Scope prog_scope.

Lemma exec_bind fuel A B (p : prog A) (f : A -> prog B) o g :
  loop_free p ->
  exec fuel (bind p f) o g =
  match exec fuel p o g with
  | Some (t1, g1, a) =>
      match exec fuel (f a) o g1 with
      | Some (t2, g2, r) => Some (t1 ++ t2, g2, r)
      | None => None
      end
  | None => None
  end.
Proof.
  revert f g.
  induction p as [A r | A c k IH | A cond _ body _ k _]; intros f g Hp.
  - simpl. rewrite exec_Ret.
    destruct (exec fuel (f r) o g) as [[[t2 g2] b] | ]; reflexivity.
  - simpl bind. rewrite !exec_Do. rewrite IH by apply Hp.
    destruct (exec fuel (k (fst (perform o c g))) o (snd (perform o c g)))
      as [[[t1 g1] a] | ]; [ | reflexivity].
    destruct (exec fuel (f a) o g1) as [[[t2 g2] b] | ]; [ | reflexivity].
    now rewrite app_assoc.
  - destruct Hp.
Qed.

Lemma loop_free_bind A B (p : prog A) (f : A -> prog B) :
  loop_free p -> (forall a, loop_free (f a)) -> loop_free (bind p f).
Proof.
  revert f. induction p as [A r | A c k IH | A cond _ body _ k _];
    intros f Hp Hf; simpl in *; auto.
Qed.

Lemma loop_free_handle_notification mn : loop_free (handle_notification mn).
Proof.
  unfold handle_notification. simpl. intros h.
  destruct (mn_clientHandle mn =? h); simpl; [ | exact I].
  intros _. destruct (UA_Variant_hasScalarType _ _); simpl; auto.
Qed.

(** The [for] loop over the indices of an array is the iteration over its
    elements. *)
Lemma for_loop_nth_error A (f : A -> prog unit) (l pre : list A) :
  for_loop (List.length l) (List.length pre)
    (fun i => match nth_error (pre ++ l) i with
              | None => Ret tt
              | Some x => f x
              end) = each l f.
Proof.
  revert pre. induction l as [ | x l IH]; intros pre; simpl; [reflexivity | ].
  rewrite nth_error_app2, Nat.sub_diag by lia. simpl.
  replace (pre ++ x :: l) with ((pre ++ [x]) ++ l) by now rewrite <- app_assoc.
  replace (S (List.length pre)) with (List.length (pre ++ [x]))
    by (rewrite length_app; simpl; lia).
  now rewrite IH.
Qed.

Lemma handler_each client subId ctx n :
  handler_currentTimeChanged client subId ctx n =
  each (monitoredItems n) handle_notification.
Proof.
  unfold handler_currentTimeChanged, monitoredItemsSize.
  exact (for_loop_nth_error handle_notification (monitoredItems n) []).
Qed.

Lemma exec_handle_notification fuel mn o g :
  exec fuel (handle_notification mn) o g =
  Some (if mn_clientHandle mn =? currentTimeClientHandle g
        then handling mn else [], g, tt).
Proof.
  unfold handle_notification, handling, is_DateTime_scalar, date_report,
    change_report.
  exec_run.
  destruct (mn_clientHandle mn =? currentTimeClientHandle g); exec_run;
    [ | reflexivity].
  destruct (UA_Variant_hasScalarType _ _); exec_run; reflexivity.
Qed.

Lemma exec_each_handle_notification fuel l o g :
  exec fuel (each l handle_notification) o g =
  Some (flat_map (fun mn =>
                    if mn_clientHandle mn =? currentTimeClientHandle g
                    then handling mn else []) l, g, tt).
Proof.
  induction l as [ | mn l IH]; cbn [each flat_map].
  - apply exec_Ret.
  - rewrite exec_bind by apply loop_free_handle_notification.
    rewrite exec_handle_notification, IH. reflexivity.
Qed.

End Exec.

(** ** The data-change handler *)

Section Handler.

Context {T : LibraryTypes} {L : ClientLibrary}.

Lemma exec_handler fuel client subId ctx n o g :
  exec fuel (handler_currentTimeChanged client subId ctx n) o g =
  Some (flat_map (fun mn =>
                    if mn_clientHandle mn =? currentTimeClientHandle g
                    then handling mn else []) (monitoredItems n), g, tt).
Proof. rewrite handler_each. apply exec_each_handle_notification. Qed.

Lemma filter_change_report_handling mn :
  filter is_change_report (handling mn) = [change_report].
Proof.
  unfold handling, date_report. destruct (is_DateTime_scalar mn); reflexivity.
Qed.

(** C1. For every batch, [handler_currentTimeChanged] goes through the
    elements in the order of the batch: what it does is the concatenation,
    in that order, of the handling of each element whose client handle is
    the registered one (42) and of nothing for every other element; the
    handling is entered exactly once per element with the registered
    handle; the handler returns normally and leaves the globals as they
    were. *)
Theorem handler_dispatches_in_batch_order fuel client subId ctx n o g :
  currentTimeClientHandle g = 42 ->
  let registered := fun mn => mn_clientHandle mn =? 42 in
  let t := flat_map (fun mn => if registered mn then handling mn else [])
                    (monitoredItems n) in
  exec fuel (handler_currentTimeChanged client subId ctx n) o g =
    Some (t, g, tt) /\
  List.length (filter is_change_report t) =
    List.length (filter registered (monitoredItems n)).
Proof.
  intros Hg registered t. split.
  - rewrite exec_handler, Hg. reflexivity.
  - subst t. induction (monitoredItems n) as [ | mn l IH]; [reflexivity | ].
    cbn [flat_map filter]. rewrite filter_app, length_app, IH.
    destruct (registered mn).
    + rewrite filter_change_report_handling. reflexivity.
    + reflexivity.
Qed.

(** What the handler does on a batch is what it does on the elements
    before one element, then at that element, then on those after it. *)
Lemma exec_handler_at fuel client subId ctx pre mn post o g :
  exists t_pre t_post,
    exec fuel (handler_currentTimeChanged client subId ctx (batch pre)) o g =
      Some (t_pre, g, tt) /\
    exec fuel (handler_currentTimeChanged client subId ctx (batch post)) o g =
      Some (t_post, g, tt) /\
    exec fuel (handler_currentTimeChanged client subId ctx
                 (batch (pre ++ mn :: post))) o g =
      Some (t_pre ++
            (if mn_clientHandle mn =? currentTimeClientHandle g
             then handling mn else []) ++ t_post, g, tt).
Proof.
  eexists. eexists. rewrite !exec_handler. simpl monitoredItems.
  split; [reflexivity | ]. split; [reflexivity | ].
  rewrite flat_map_app. reflexivity.
Qed.

(** C6. At every element of a batch whose client handle is 42 and whose
    value is a scalar of type DateTime, the handler reports the change and
    then logs the date with the format of the source and the day, month,
    year, hour, minute, second and millisecond of [UA_DateTime_toStruct]
    of that value, once, between what it does on the elements before and
    after. *)
Theorem handler_formats_DateTime fuel client subId ctx pre mn post o g :
  currentTimeClientHandle g = 42 ->
  mn_clientHandle mn = 42 ->
  UA_Variant_hasScalarType (value (mn_value mn)) UA_TYPES_DATETIME = true ->
  let dts :=
    UA_DateTime_toStruct (UA_Variant_data_DateTime (value (mn_value mn))) in
  exists t_pre t_post,
    exec fuel (handler_currentTimeChanged client subId ctx (batch pre)) o g =
      Some (t_pre, g, tt) /\
    exec fuel (handler_currentTimeChanged client subId ctx (batch post)) o g =
      Some (t_post, g, tt) /\
    exec fuel (handler_currentTimeChanged client subId ctx
                 (batch (pre ++ mn :: post))) o g =
      Some (t_pre ++
            [c_UA_LOG UA_LOGLEVEL_INFO UA_Log_Stdout UA_LOGCATEGORY_USERLAND
               "currentTime has changed!" [];
             c_UA_LOG UA_LOGLEVEL_INFO UA_Log_Stdout UA_LOGCATEGORY_USERLAND
               "date is: %02u-%02u-%04u %02u:%02u:%02u.%03u"
               [day dts; month dts; year dts; hour dts; min dts; sec dts;
                milliSec dts]] ++ t_post, g, tt).
Proof.
  intros Hg Hmn Hty dts.
  destruct (exec_handler_at fuel client subId ctx pre mn post o g)
    as (t_pre & t_post & Hpre & Hpost & H).
  exists t_pre, t_post. split; [exact Hpre | ]. split; [exact Hpost | ].
  rewrite H, Hg, Hmn. unfold handling, is_DateTime_scalar. rewrite Hty.
  reflexivity.
Qed.

(** C8. At every element of a batch whose client handle is 42 and whose
    value is not a scalar of type DateTime, the handler reports the change
    once and does nothing else: no date is logged and the value is not
    used. *)
Theorem handler_ignores_other_values fuel client subId ctx pre mn post o g :
  currentTimeClientHandle g = 42 ->
  mn_clientHandle mn = 42 ->
  UA_Variant_hasScalarType (value (mn_value mn)) UA_TYPES_DATETIME = false ->
  exists t_pre t_post,
    exec fuel (handler_currentTimeChanged client subId ctx (batch pre)) o g =
      Some (t_pre, g, tt) /\
    exec fuel (handler_currentTimeChanged client subId ctx (batch post)) o g =
      Some (t_post, g, tt) /\
    exec fuel (handler_currentTimeChanged client subId ctx
                 (batch (pre ++ mn :: post))) o g =
      Some (t_pre ++
            [c_UA_LOG UA_LOGLEVEL_INFO UA_Log_Stdout UA_LOGCATEGORY_USERLAND
               "currentTime has changed!" []] ++ t_post, g, tt).
Proof.
  intros Hg Hmn Hty.
  destruct (exec_handler_at fuel client subId ctx pre mn post o g)
    as (t_pre & t_post & Hpre & Hpost & H).
  exists t_pre, t_post. split; [exact Hpre | ]. split; [exact Hpost | ].
  rewrite H, Hg, Hmn. unfold handling, is_DateTime_scalar. rewrite Hty.
  reflexivity.
Qed.

End Handler.

(** ** The state callback and the two subscription callbacks *)

Section Callbacks.

Context {T : LibraryTypes} {L : ClientLibrary}.

(** What [stateCallback] does for each state of the session, call by
    call. *)
Lemma exec_stateCallback fuel client cs ss rs (o : Oracle) g :
  let response : UA_CreateSubscriptionResponse :=
    o (subscription_request client) in
  let monResponse : UA_MonitoredItemCreateResult :=
    o (monitored_item_request client (subscriptionId response)
         (currentTimeClientHandle g)) in
  exec fuel (stateCallback client cs ss rs) o g =
  Some (channel_report cs ++
        match ss with
        | UA_SESSIONSTATE_ACTIVATED =>
            [c_UA_LOG UA_LOGLEVEL_INFO UA_Log_Stdout UA_LOGCATEGORY_USERLAND
               "A session with the server is activated" [];
             subscription_request client] ++
            (if serviceResult (responseHeader response)
                =? UA_STATUSCODE_GOOD
             then
               [c_UA_LOG UA_LOGLEVEL_INFO UA_Log_Stdout
                  UA_LOGCATEGORY_USERLAND
                  "Create subscription succeeded, id %u"
                  [subscriptionId response];
                monitored_item_request client (subscriptionId response)
                  (currentTimeClientHandle g)] ++
               (if statusCode monResponse =? UA_STATUSCODE_GOOD
                then
                  [c_UA_LOG UA_LOGLEVEL_INFO UA_Log_Stdout
                     UA_LOGCATEGORY_USERLAND
                     "Monitoring UA_NS0ID_SERVER_SERVERSTATUS_CURRENTTIME', id %u"
                     [monitoredItemId monResponse]]
                else [])
             else [])
        | UA_SESSIONSTATE_CLOSED =>
            [c_UA_LOG UA_LOGLEVEL_INFO UA_Log_Stdout UA_LOGCATEGORY_USERLAND
               "Session disconnected" []]
        | UA_SESSIONSTATE_other _ => []
        end, g, tt).
Proof.
  intros response monResponse. subst response monResponse.
  unfold stateCallback, subscription_request, monitored_item_request.
  destruct cs, ss; exec_run; try reflexivity;
    (destruct (serviceResult _ =? UA_STATUSCODE_GOOD); exec_run;
     [ | reflexivity]);
    (destruct (statusCode _ =? UA_STATUSCODE_GOOD); exec_run; reflexivity).
Qed.

(** C2. When the session is activated and the subscription is created,
    [stateCallback] sends exactly one monitored-item creation request,
    and the request it passes to
    [UA_Client_MonitoredItems_createDataChange] carries the client
    handle of the application, 42, in its requested parameters; in no
    case does it send a creation request with another handle. *)
Theorem stateCallback_requests_clientHandle
    fuel client cs ss rs (o : Oracle) g :
  currentTimeClientHandle g = 42 ->
  exists t,
    exec fuel (stateCallback client cs ss rs) o g = Some (t, g, tt) /\
    (forall h, In h (requested_handles t) -> h = 42) /\
    (ss = UA_SESSIONSTATE_ACTIVATED ->
     serviceResult (responseHeader (o (subscription_request client)))
       = UA_STATUSCODE_GOOD ->
     In (monitored_item_request client
           (subscriptionId (o (subscription_request client))) 42) t /\
     requested_handles t = [42]).
Proof.
  intros Hg. eexists. split; [apply exec_stateCallback | ].
  rewrite Hg. split.
  - intros h. destruct cs, ss; simpl;
      repeat match goal with
             | |- context [if ?b then _ else _] => destruct b; simpl
             end; intuition congruence.
  - intros -> Hgood. rewrite Hgood, Z.eqb_refl. split.
    + apply in_or_app. right. simpl. right. right. right. left. reflexivity.
    + destruct cs; simpl;
        match goal with
        | |- context [if ?b then _ else _] => destruct b; reflexivity
        end.
Qed.

(** C3, as the code has it. On every entry into the session state
    Activated, [stateCallback] logs the activation and requests the
    subscription at once.  When the subscription creation does not
    return Good it does nothing more and returns: no monitored-item
    request, no log.  When it returns Good, the id is logged and the
    monitored item is requested; when that request does not return Good
    nothing more is done and nothing is logged.  In every case the
    callback returns normally, calls nothing but the logger and the two
    requests (it neither disconnects nor deletes the client) and leaves
    the globals as they were. *)
Theorem stateCallback_on_activation fuel client cs rs (o : Oracle) g :
  let response : UA_CreateSubscriptionResponse :=
    o (subscription_request client) in
  let monResponse : UA_MonitoredItemCreateResult :=
    o (monitored_item_request client (subscriptionId response)
         (currentTimeClientHandle g)) in
  exec fuel (stateCallback client cs UA_SESSIONSTATE_ACTIVATED rs) o g =
  Some (channel_report cs ++
        [c_UA_LOG UA_LOGLEVEL_INFO UA_Log_Stdout UA_LOGCATEGORY_USERLAND
           "A session with the server is activated" [];
         subscription_request client] ++
        (if serviceResult (responseHeader response) =? UA_STATUSCODE_GOOD
         then
           [c_UA_LOG UA_LOGLEVEL_INFO UA_Log_Stdout UA_LOGCATEGORY_USERLAND
              "Create subscription succeeded, id %u"
              [subscriptionId response];
            monitored_item_request client (subscriptionId response)
              (currentTimeClientHandle g)] ++
           (if statusCode monResponse =? UA_STATUSCODE_GOOD
            then
              [c_UA_LOG UA_LOGLEVEL_INFO UA_Log_Stdout
                 UA_LOGCATEGORY_USERLAND
                 "Monitoring UA_NS0ID_SERVER_SERVERSTATUS_CURRENTTIME', id %u"
                 [monitoredItemId monResponse]]
            else [])
         else []), g, tt).
Proof. intros response monResponse. apply exec_stateCallback. Qed.

(** C7, as the code has it. For every subscription id, that of the
    subscription the client holds or any other, the deletion callback
    logs the id and does nothing else: the globals, and with them the
    handle the data-change handler answers to, are as before. *)
Theorem deleteSubscriptionCallback_only_logs
    fuel client subscriptionId_ subscriptionContext o g :
  exec fuel (deleteSubscriptionCallback client subscriptionId_
               subscriptionContext) o g =
  Some ([c_UA_LOG UA_LOGLEVEL_INFO UA_Log_Stdout UA_LOGCATEGORY_USERLAND
           "Subscription Id %u was deleted" [subscriptionId_]], g, tt).
Proof. unfold deleteSubscriptionCallback. exec_run. reflexivity. Qed.

(** C10. For every subscription id, the inactivity callback logs the
    condition, calls nothing else and leaves the globals ([running] and
    the registered handle) as they were; the state of the subscription
    and of its monitored item, which the library keeps, is not touched
    since the library is not called. *)
Theorem subscriptionInactivityCallback_only_logs
    fuel client subId subContext o g :
  exec fuel (subscriptionInactivityCallback client subId subContext) o g =
  Some ([c_UA_LOG UA_LOGLEVEL_INFO UA_Log_Stdout UA_LOGCATEGORY_USERLAND
           "Inactivity for subscription %u" [subId]], g, tt).
Proof. unfold subscriptionInactivityCallback. exec_run. reflexivity. Qed.

End Callbacks.

(** ** The machine *)

Section Machine.

Context {T : LibraryTypes} {L : ClientLibrary}.

Local Open Scope prog_scope.

Lemma all_calls_bind P A B (p : prog A) (f : A -> prog B) :
  all_calls P p -> (forall a, all_calls P (f a)) -> all_calls P (bind p f).
Proof.
  revert f. induction p as [A r | A c k IH | A cond _ body _ k IHk];
    intros f Hp Hf; simpl in *.
  - apply Hf.
  - destruct Hp as [Hc Hk]. split; [exact Hc | ]. intros a. now apply IH.
  - destruct Hp as (Hcond & Hbody & Hk). repeat split; auto.
Qed.

Lemma all_calls_each P A (l : list A) (f : A -> prog unit) :
  (forall x, all_calls P (f x)) -> all_calls P (each l f).
Proof.
  intros Hf. induction l as [ | x l IH]; simpl; [exact I | ].
  apply all_calls_bind; auto.
Qed.

Lemma all_calls_handle_notification signals mn :
  all_calls (frame_call signals) (handle_notification mn).
Proof.
  unfold handle_notification. simpl. split; [exact I | ]. intros h.
  destruct (mn_clientHandle mn =? h); simpl; [ | exact I].
  split; [exact I | ]. intros _.
  destruct (UA_Variant_hasScalarType _ _); simpl; auto.
Qed.

Lemma all_calls_stateCallback signals client cs ss rs :
  all_calls (frame_call signals) (stateCallback client cs ss rs).
Proof.
  unfold stateCallback.
  apply all_calls_bind; [destruct cs; simpl; auto | ]. intros _.
  destruct ss; simpl; auto.
  split; [exact I | ]. intros _. split; [exact I | ]. intros response.
  destruct (serviceResult _ =? _); simpl; [ | exact I].
  split; [exact I | ]. intros _. split; [exact I | ]. intros h.
  split; [exact I | ]. intros monResponse.
  destruct (statusCode _ =? _); simpl; auto.
Qed.

(** The callbacks make the calls of callbacks only. *)
Lemma all_calls_body_of signals i :
  all_calls (frame_call signals) (body_of i).
Proof.
  destruct i; simpl body_of.
  - apply all_calls_stateCallback.
  - rewrite handler_each. apply all_calls_each.
    apply all_calls_handle_notification.
  - simpl. auto.
  - simpl. auto.
Qed.

Lemma all_calls_signal_body handler signum p :
  signal_body handler signum = Some p -> all_calls (frame_call true) p.
Proof.
  destruct handler; simpl; try discriminate.
  intros [= <-]. simpl. auto.
Qed.

Lemma all_calls_unfold_While P R cond body (k : prog R) :
  all_calls P (While cond body k) -> all_calls P (unfold_While cond body k).
Proof.
  simpl. intros (Hcond & Hbody & Hk). unfold unfold_While.
  apply all_calls_bind; [exact Hcond | ]. intros [ | ]; [ | exact Hk].
  apply all_calls_bind; [exact Hbody | ]. intros _. simpl. auto.
Qed.

(** A step of a frame stays within the calls of the frame, and only a
    store changes the globals. *)
Lemma step_prog_all_calls P R o d (p p' : prog R) g g' l :
  all_calls P p -> step_prog o d p g = Some (l, p', g') ->
  all_calls P p' /\
  match l with LCall _ c _ => P c | _ => True end /\
  g' = apply_label l g /\
  match l with
  | LCall d' _ _ | LLoop d' => d' = d
  | _ => False
  end.
Proof.
  destruct p as [r | c k | cond body k]; simpl; intros Hp Hstep.
  - discriminate.
  - destruct (perform o c g) as [a g1] eqn:Hperf.
    injection Hstep as <- <- <-. destruct Hp as [Hc Hk].
    repeat split; auto.
    destruct c; simpl in Hperf; injection Hperf as <- <-; reflexivity.
  - injection Hstep as <- <- <-.
    repeat split; auto. now apply all_calls_unfold_While.
Qed.

Lemma main_at_step pc o g :
  step_prog o 0 (main_at pc) g =
  match main_step pc o g with
  | Some (l, pc') => Some (l, main_at pc', g)
  | None => None
  end.
Proof.
  destruct pc; try reflexivity.
  - simpl. destruct (running g); reflexivity.
  - simpl. unfold endpointUrl.
    destruct (_ =? UA_STATUSCODE_GOOD); reflexivity.
Qed.

Lemma inv_initial signals : inv signals initial_config at_signal.
Proof. split; [reflexivity | constructor]. Qed.

(** Every step of the machine is a step of [main] along its control flow
    or a step of a callback. *)
Lemma step_astep signals cfg pc ch l cfg' :
  inv signals cfg pc -> choice_ok signals ch ->
  step cfg ch = Some (l, cfg') ->
  exists pc', inv signals cfg' pc' /\
              astep signals (pc, globals cfg) l (pc', globals cfg').
Proof.
  intros [Hmain Hstack] Hch Hstep. destruct ch as [o | i | ]; simpl in Hstep.
  - destruct (stack cfg) as [ | f rest] eqn:Hs.
    + rewrite Hmain, main_at_step in Hstep.
      destruct (main_step pc o (globals cfg)) as [[l' pc'] | ] eqn:Hpc;
        [ | discriminate].
      injection Hstep as <- <-. exists pc'. split.
      * split; [reflexivity | constructor].
      * now apply astep_main with (o := o).
    + inversion Hstack as [ | f' rest' Hf Hrest]; subst f' rest'.
      assert (Hd : depth cfg = S (List.length rest))
        by (unfold depth; now rewrite Hs).
      assert (Hgen : forall f' g',
                 step_prog o (depth cfg) f (globals cfg) = Some (l, f', g') ->
                 cfg' = {| globals := g';
                           sigint_handler := installs l (sigint_handler cfg);
                           stack := f' :: rest;
                           main_frame := main_frame cfg |} ->
                 exists pc', inv signals cfg' pc' /\
                   astep signals (pc, globals cfg) l (pc', globals cfg')).
      { intros f' g' Hsp ->.
        destruct (step_prog_all_calls _ _ _ _ _ Hf Hsp)
          as (Hf' & Hl & -> & Hdl).
        exists pc. split.
        - split; [exact Hmain | now constructor].
        - simpl. apply astep_frame.
          + destruct l; try contradiction; subst d; now rewrite Hd.
          + destruct l; simpl; auto; contradiction. }
      destruct f as [r | c k | cond body k].
      * injection Hstep as <- <-. exists pc. split.
        -- split; [exact Hmain | exact Hrest].
        -- simpl. apply astep_frame; [ | exact I].
           now rewrite Hd.
      * destruct (step_prog o (depth cfg) (Do c k) (globals cfg))
          as [[[l' f'] g'] | ] eqn:Hsp; [ | discriminate].
        injection Hstep as <- <-. now apply (Hgen f' g').
      * destruct (step_prog o (depth cfg) (While cond body k) (globals cfg))
          as [[[l' f'] g'] | ] eqn:Hsp; [ | discriminate].
        injection Hstep as <- <-. now apply (Hgen f' g').
  - match type of Hstep with
    | (if ?b then _ else _) = _ => destruct b; [ | discriminate]
    end.
    injection Hstep as <- <-. exists pc. split.
    + split; [exact Hmain | ]. simpl. constructor; [ | exact Hstack].
      apply all_calls_body_of.
    + simpl. apply astep_frame; [reflexivity | exact I].
  - destruct (terminated cfg); [discriminate | ].
    destruct (signal_body (sigint_handler cfg) SIGINT) as [p | ] eqn:Hp;
      [ | discriminate].
    injection Hstep as <- <-. simpl in Hch. subst signals. exists pc. split.
    + split; [exact Hmain | ]. simpl. constructor; [ | exact Hstack].
      now apply all_calls_signal_body with (1 := Hp).
    + simpl. apply astep_frame; reflexivity.
Qed.

Lemma run_asteps signals sched : forall cfg pc tr cfg',
  inv signals cfg pc -> Forall (choice_ok signals) sched ->
  run cfg sched = Some (tr, cfg') ->
  exists pc', inv signals cfg' pc' /\
              asteps signals (pc, globals cfg) tr (pc', globals cfg').
Proof.
  induction sched as [ | ch sched IH]; intros cfg pc tr cfg' Hinv Hok Hrun;
    simpl in Hrun.
  - injection Hrun as <- <-. exists pc. split; [exact Hinv | constructor].
  - destruct (step cfg ch) as [[l cfg1] | ] eqn:Hstep; [ | discriminate].
    destruct (run cfg1 sched) as [[t cfg2] | ] eqn:Hrest; [ | discriminate].
    injection Hrun as <- <-. inversion Hok as [ | ? ? Hch Hok']; subst.
    destruct (@step_astep signals cfg pc ch l cfg1 Hinv Hch Hstep)
      as (pc1 & Hinv1 & Hastep).
    destruct (IH _ _ _ _ Hinv1 Hok' Hrest) as (pc2 & Hinv2 & Hasteps).
    exists pc2. split; [exact Hinv2 | ].
    now apply asteps_cons with (b := (pc1, globals cfg1)).
Qed.

Lemma choice_ok_true sched : Forall (choice_ok true) sched.
Proof. apply Forall_forall. intros [ | | ] _; simpl; auto. Qed.

Lemma choice_ok_no_signal sched :
  no_signal sched -> Forall (choice_ok false) sched.
Proof.
  unfold no_signal. rewrite !Forall_forall. intros H ch Hin.
  destruct ch; simpl; auto. now destruct (H _ Hin).
Qed.

Lemma run_app sched1 : forall sched2 cfg,
  run cfg (sched1 ++ sched2) =
  match run cfg sched1 with
  | Some (t1, cfg1) =>
      match run cfg1 sched2 with
      | Some (t2, cfg2) => Some (t1 ++ t2, cfg2)
      | None => None
      end
  | None => None
  end.
Proof.
  induction sched1 as [ | ch sched1 IH]; intros sched2 cfg; simpl.
  - destruct (run cfg sched2) as [[t2 cfg2] | ]; reflexivity.
  - destruct (step cfg ch) as [[l cfg1] | ]; [ | reflexivity].
    rewrite IH. destruct (run cfg1 sched1) as [[t1 cfg1'] | ];
      [ | reflexivity].
    destruct (run cfg1' sched2) as [[t2 cfg2] | ]; reflexivity.
Qed.

(** [main] has returned exactly when it is at its last point. *)
Lemma terminated_inv signals cfg pc code :
  inv signals cfg pc -> terminated cfg = Some code ->
  pc = at_return /\ code = EXIT_SUCCESS.
Proof.
  intros [Hmain _]. unfold terminated. rewrite Hmain.
  destruct (stack cfg); [ | discriminate].
  destruct pc; simpl; try discriminate. intros [= <-]. now split.
Qed.

(** As long as [main] has not returned the machine can take a step. *)
Lemma progress cfg o : terminated cfg = None -> step cfg (Run o) <> None.
Proof.
  unfold terminated. simpl. destruct (stack cfg) as [ | f rest].
  - destruct (main_frame cfg) as [r | c k | cond body k]; simpl;
      try discriminate.
    intros _. destruct (perform o c (globals cfg)). discriminate.
  - intros _. destruct f as [r | c k | cond body k]; simpl; try discriminate.
    destruct (perform o c (globals cfg)). discriminate.
Qed.

(** Induction on a program without [While], at a fixed type of result. *)
Lemma loop_free_ind R (P : prog R -> Prop) :
  (forall r, P (Ret r)) ->
  (forall c k, (forall a, loop_free (k a)) -> (forall a, P (k a)) ->
               P (Do c k)) ->
  forall p, loop_free p -> P p.
Proof.
  intros HRet HDo p. revert P HRet HDo.
  induction p as [A r | A c k IH | A cond _ body _ k _];
    intros P HRet HDo Hp.
  - apply HRet.
  - apply HDo; [exact Hp | ]. intros a. apply IH; auto.
  - destruct Hp.
Qed.

(** The two semantics agree: a callback that the machine runs without
    further callbacks or signals, every call being answered by [o], makes
    the calls of [exec], ends with the globals of [exec] and returns to
    the frame below. *)
Lemma exec_run (p : prog unit) :
  loop_free p ->
  forall fuel o g h rest m t g' r,
    exec fuel p o g = Some (t, g', r) ->
    exists n tr h',
      run {| globals := g; sigint_handler := h;
             stack := p :: rest; main_frame := m |}
          (repeat (Run o) n) =
      Some (tr, {| globals := g'; sigint_handler := h';
                   stack := rest; main_frame := m |}) /\
      flat_map observe (calls tr) = t.
Proof.
  intros Hp. pattern p. revert p Hp. apply loop_free_ind.
  - intros r fuel o g h rest m t g' r' Hexec.
    rewrite exec_Ret in Hexec. injection Hexec as <- <- <-.
    exists 1%nat, [LReturn (S (List.length rest))], h. split; reflexivity.
  - intros c k Hk IH fuel o g h rest m t g' r Hexec.
    rewrite exec_Do in Hexec.
    destruct (perform o c g) as [a g1] eqn:Hperf. simpl in Hexec.
    destruct (exec fuel (k a) o g1) as [[[t1 g2] r1] | ] eqn:Hexec1;
      [ | discriminate].
    injection Hexec as <- <- <-.
    destruct (IH a fuel o g1
                (installs (LCall (S (List.length rest)) c a) h)
                rest m t1 g2 r1 Hexec1)
      as (n & tr & h' & Hrun & Htr).
    exists (S n), (LCall (S (List.length rest)) c a :: tr), h'. split.
    + cbn [repeat run step stack globals sigint_handler main_frame].
      unfold depth, step_prog. cbn [stack List.length]. rewrite Hperf.
      cbn [globals sigint_handler main_frame]. rewrite Hrun. reflexivity.
    + unfold calls in *. cbn [flat_map app]. now rewrite Htr.
Qed.

End Machine.

(** ** The running flag *)

Section Running.

Context {T : LibraryTypes} {L : ClientLibrary}.




(** Without signals the globals do not change. *)
Lemma astep_no_signal_globals pc g l pc' g' :
  astep false (pc, g) l (pc', g') -> g' = g.
Proof.
  inversion 1 as [? o ? ? ? Hstep | ? ? ? Hmain Hframe]; subst; auto.
  destruct l as [d c a | | | | ]; simpl; auto.
  destruct c; simpl in *; auto. now destruct Hframe.
Qed.



(** The handle the application registered is never written: it is 42 in
    every configuration the program reaches. *)
Lemma asteps_handle signals a tr b :
  asteps signals a tr b ->
  currentTimeClientHandle (snd b) = currentTimeClientHandle (snd a).
Proof.
  induction 1 as [ | [pc g] l [pc1 g1] tr c Hstep _ IH]; [reflexivity | ].
  rewrite IH. simpl.
  inversion Hstep as [? o ? ? ? Hmain | ? ? ? Hmain Hframe]; subst; auto.
  destruct l as [d c' a | | | | ]; simpl; auto. destruct c'; reflexivity.
Qed.

Lemma handle_is_42 sched tr cfg :
  run initial_config sched = Some (tr, cfg) ->
  currentTimeClientHandle (globals cfg) = 42.
Proof.
  intros Hrun.
  destruct (run_asteps (inv_initial true) (choice_ok_true sched) Hrun)
    as (pc & _ & Hsteps).
  now apply asteps_handle in Hsteps.
Qed.



End Running.

(** ** The reconnect loop *)

Section Reconnect.

Context {T : LibraryTypes} {L : ClientLibrary}.

Lemma main_calls_cons l tr :
  main_calls (l :: tr) = main_calls [l] ++ main_calls tr.
Proof. unfold main_calls. simpl. now rewrite app_nil_r. Qed.

Lemma main_calls_frame l : is_main_label l = false -> main_calls [l] = [].
Proof.
  destruct l as [[ | d] c a | [ | d] | | | ]; simpl; auto; discriminate.
Qed.

Lemma concat_repeat_snoc A (c : list A) n :
  List.concat (repeat c n) ++ c = List.concat (repeat c (S n)).
Proof.
  induction n as [ | n IH]; simpl in *.
  - now rewrite app_nil_r.
  - now rewrite <- app_assoc, IH.
Qed.

(** While [running] is true and the connection attempts fail, a step
    takes [main] from a point of the retry cycle to the next. *)
Lemma astep_progress pc g l pc' g' done :
  astep false (pc, g) l (pc', g') ->
  running g = true ->
  connects_fail [l] ->
  main_progress pc done ->
  main_progress pc' (done ++ main_calls [l]) /\ g' = g.
Proof.
  intros Hstep Hg Hfail Hdone.
  split; [ | now apply astep_no_signal_globals with (1 := Hstep)].
  inversion Hstep as [? o ? ? ? Hmain | ? ? ? Hmain Hframe]; subst.
  - destruct pc; simpl in Hmain; try discriminate; injection Hmain as <- <-;
      simpl in Hdone |- *; try contradiction; try (subst done; reflexivity).
    + subst done. exists cc, 0%nat. reflexivity.
    + destruct Hdone as (cc & n & ->). exists cc, n. now rewrite app_nil_r.
    + rewrite Hg, app_nil_r. exact Hdone.
    + assert (Hr : o (c_UA_Client_connect client endpointUrl)
                   <> UA_STATUSCODE_GOOD)
        by (apply Forall_inv in Hfail; exact Hfail).
      apply Z.eqb_neq in Hr. rewrite Hr. simpl.
      destruct Hdone as (cc & n & ->). exists cc, n. reflexivity.
    + destruct Hdone as (cc & n & ->). exists cc, n.
      simpl. now rewrite <- app_assoc.
    + destruct Hdone as (cc & n & ->). exists cc, (S n).
      rewrite <- concat_repeat_snoc. simpl. now rewrite <- app_assoc.
  - rewrite main_calls_frame by exact Hmain. now rewrite app_nil_r.
Qed.

Lemma asteps_progress a tr b :
  asteps false a tr b ->
  forall done,
    running (snd a) = true ->
    connects_fail tr ->
    main_progress (fst a) done ->
    main_progress (fst b) (done ++ main_calls tr) /\ snd b = snd a.
Proof.
  induction 1 as [ | [pc g] l [pc1 g1] tr c Hstep _ IH];
    intros done Hg Hfail Hdone.
  - unfold main_calls. simpl. now rewrite app_nil_r.
  - assert (Hl : connects_fail [l])
      by (constructor; [now apply Forall_inv in Hfail | constructor]).
    assert (Htr : connects_fail tr) by now apply Forall_inv_tail in Hfail.
    destruct (@astep_progress pc g l pc1 g1 done Hstep Hg Hl Hdone)
      as [Hdone1 Hg1].
    simpl in Hg1. subst g1.
    destruct (IH _ Hg Htr Hdone1) as [Hdone2 Hg2].
    split; [ | exact Hg2].
    now rewrite main_calls_cons, app_assoc.
Qed.

Lemma main_progress_prefix pc done :
  main_progress pc done ->
  exists client cc n,
    prefix done (startup_calls client cc ++
                 List.concat (repeat (retry_cycle client) n)).
Proof.
  unfold prefix. destruct pc; simpl; intros H; try contradiction;
    try (subst done; exists 0, 0, 0%nat; eexists; reflexivity);
    try (subst done; exists client, 0, 0%nat; eexists; reflexivity);
    try (subst done; exists client, cc, 0%nat; eexists; reflexivity);
    destruct H as (cc & n & ->); exists client, cc.
  - exists n, []. now rewrite app_nil_r.
  - exists n, []. now rewrite app_nil_r.
  - exists n, []. now rewrite app_nil_r.
  - exists (S n), [connect_error_log; c_sleep_ms 1000].
    rewrite <- concat_repeat_snoc. simpl. now rewrite <- app_assoc.
  - exists (S n), [c_sleep_ms 1000].
    rewrite <- concat_repeat_snoc. simpl. now rewrite <- app_assoc.
Qed.

Lemma count_cons f l tr : count f (l :: tr) = (count f [l] + count f tr)%nat.
Proof.
  unfold count, calls. simpl. rewrite app_nil_r, filter_app, length_app.
  reflexivity.
Qed.

Lemma count_frame signals f l :
  is_main_label l = false -> frame_label signals l ->
  (forall c, frame_call signals c -> f c = false) ->
  count f [l] = 0%nat.
Proof.
  intros _ Hl Hf. destruct l as [d c a | | | | ]; try reflexivity.
  unfold count. simpl. now rewrite (Hf c Hl).
Qed.

(** On that way [UA_Client_run_iterate] is not called. *)
Lemma asteps_no_iterate a tr b :
  asteps false a tr b ->
  forall done,
    running (snd a) = true ->
    connects_fail tr ->
    main_progress (fst a) done ->
    count is_iterate tr = 0%nat.
Proof.
  induction 1 as [ | [pc g] l [pc1 g1] tr c Hstep _ IH];
    intros done Hg Hfail Hdone; [reflexivity | ].
  assert (Hl : connects_fail [l])
    by (constructor; [now apply Forall_inv in Hfail | constructor]).
  assert (Htr : connects_fail tr) by now apply Forall_inv_tail in Hfail.
  destruct (@astep_progress pc g l pc1 g1 done Hstep Hg Hl Hdone)
    as [Hdone1 Hg1].
  simpl in Hg1. subst g1. rewrite count_cons, (IH _ Hg Htr Hdone1).
  rewrite Nat.add_0_r.
  inversion Hstep as [? o ? ? ? Hmain | ? ? ? Hmain Hframe]; subst.
  - destruct pc; simpl in Hmain; try discriminate; injection Hmain as <- <-;
      try reflexivity.
    destruct Hdone.
  - apply count_frame with (signals := false); auto.
    intros []; simpl; auto; contradiction.
Qed.

Lemma step_main_at pc o g h :
  step {| globals := g; sigint_handler := h; stack := [];
          main_frame := main_at pc |} (Run o) =
  match main_step pc o g with
  | Some (l, pc') =>
      Some (l, {| globals := g; sigint_handler := installs l h; stack := [];
                  main_frame := main_at pc' |})
  | None => None
  end.
Proof.
  simpl. rewrite main_at_step.
  destruct (main_step pc o g) as [[l pc'] | ]; reflexivity.
Qed.

Lemma count_app f t1 t2 : count f (t1 ++ t2) = (count f t1 + count f t2)%nat.
Proof.
  unfold count, calls. now rewrite flat_map_app, filter_app, length_app.
Qed.

(** One iteration of the loop in which the connection attempt fails
    brings [main] back to the loop. *)
Lemma retry_cycle_run (o : Oracle) client g h :
  running g = true ->
  o (c_UA_Client_connect client endpointUrl) <> UA_STATUSCODE_GOOD ->
  exists tr,
    run (loop_config client g h) (repeat (Run o) 5) =
      Some (tr, loop_config client g h) /\
    main_calls tr = retry_cycle client /\ connects_fail tr /\
    count is_connect tr = 1%nat.
Proof.
  intros Hg Hr. eexists. unfold loop_config. cbn [repeat run].
  rewrite step_main_at. cbn [main_step].
  rewrite step_main_at. cbn [main_step]. rewrite Hg.
  rewrite step_main_at. cbn [main_step].
  apply Z.eqb_neq in Hr. rewrite Hr. cbn [negb].
  rewrite step_main_at. cbn [main_step].
  rewrite step_main_at. cbn [main_step].
  split; [reflexivity | ]. split; [reflexivity | ].
  split; [ | reflexivity].
  apply Z.eqb_neq in Hr.
  repeat (apply Forall_cons; [simpl; try exact I; exact Hr | ]).
  apply Forall_nil.
Qed.

Lemma retry_cycles_run (o : Oracle) client g h n :
  running g = true ->
  o (c_UA_Client_connect client endpointUrl) <> UA_STATUSCODE_GOOD ->
  exists tr,
    run (loop_config client g h) (repeat (Run o) (5 * n)) =
      Some (tr, loop_config client g h) /\
    main_calls tr = List.concat (repeat (retry_cycle client) n) /\
    connects_fail tr /\
    count is_connect tr = n.
Proof.
  intros Hg Hr. induction n as [ | n (tr & Hrun & Hcalls & Hfail & Hn)].
  - exists []. repeat split. constructor.
  - destruct (@retry_cycle_run o client g h Hg Hr)
      as (tr1 & Hrun1 & Hcalls1 & Hfail1 & H1).
    exists (tr1 ++ tr).
    replace (5 * S n)%nat with (5 + 5 * n)%nat by lia.
    rewrite repeat_app, run_app, Hrun1, Hrun. split; [reflexivity | ].
    split; [ | split].
    + unfold main_calls in *. rewrite flat_map_app, Hcalls1, Hcalls.
      reflexivity.
    + apply Forall_app. now split.
    + rewrite count_app, H1, Hn. reflexivity.
Qed.

Lemma loop_free_each A (l : list A) (f : A -> prog unit) :
  (forall x, loop_free (f x)) -> loop_free (each l f).
Proof.
  intros Hf. induction l as [ | x l IH]; simpl; [exact I | ].
  apply loop_free_bind; auto.
Qed.

Lemma loop_free_body_of i : loop_free (body_of i).
Proof.
  destruct i; simpl body_of.
  - unfold stateCallback.
    apply loop_free_bind; [destruct channelState; simpl; auto | ]. intros _.
    destruct sessionState; simpl; auto. intros _ response.
    destruct (serviceResult _ =? _); simpl; auto. intros _ h monResponse.
    destruct (statusCode _ =? _); simpl; auto.
  - rewrite handler_each. apply loop_free_each.
    apply loop_free_handle_notification.
  - simpl. auto.
  - simpl. auto.
Qed.

(** The frames above [main] are callbacks, or signal handlers, in
    progress. *)
Lemma step_frames_ok signals cfg ch l cfg' :
  frames_ok signals (stack cfg) -> choice_ok signals ch ->
  step cfg ch = Some (l, cfg') -> frames_ok signals (stack cfg').
Proof.
  intros Hok Hch Hstep. destruct ch as [o | i | ]; simpl in Hstep.
  - destruct (stack cfg) as [ | f rest] eqn:Hs.
    + destruct (step_prog o 0 (main_frame cfg) (globals cfg))
        as [[[l' p'] g'] | ]; [ | discriminate].
      injection Hstep as <- <-. constructor.
    + inversion Hok as [ | f' rest' [Hlf Hac] Hrest]; subst f' rest'.
      destruct f as [r | c k | cond body k].
      * injection Hstep as <- <-. exact Hrest.
      * simpl in Hstep. destruct (perform o c (globals cfg)) as [a g'].
        injection Hstep as <- <-. simpl. constructor; [ | exact Hrest].
        split; [apply Hlf | apply Hac].
      * destruct Hlf.
  - match type of Hstep with
    | (if ?b then _ else _) = _ => destruct b; [ | discriminate]
    end.
    injection Hstep as <- <-. simpl. constructor; [ | exact Hok].
    split; [apply loop_free_body_of | apply all_calls_body_of].
  - destruct (terminated cfg); [discriminate | ].
    destruct (signal_body (sigint_handler cfg) SIGINT) as [p | ] eqn:Hp;
      [ | discriminate].
    injection Hstep as <- <-. simpl in Hch. subst signals. simpl.
    constructor; [ | exact Hok]. split.
    + destruct (sigint_handler cfg); simpl in Hp; try discriminate.
      injection Hp as <-. simpl. auto.
    + now apply all_calls_signal_body with (1 := Hp).
Qed.

Lemma run_frames_ok signals sched : forall cfg tr cfg',
  frames_ok signals (stack cfg) -> Forall (choice_ok signals) sched ->
  run cfg sched = Some (tr, cfg') -> frames_ok signals (stack cfg').
Proof.
  induction sched as [ | ch sched IH]; intros cfg tr cfg' Hok Hns Hrun;
    simpl in Hrun.
  - now injection Hrun as <- <-.
  - destruct (step cfg ch) as [[l cfg1] | ] eqn:Hstep; [ | discriminate].
    destruct (run cfg1 sched) as [[t cfg2] | ] eqn:Hrest; [ | discriminate].
    injection Hrun as <- <-. inversion Hns as [ | ? ? Hch Hns']; subst.
    apply (IH cfg1 t); auto.
    now apply step_frames_ok with (1 := Hok) (3 := Hstep).
Qed.

(** A callback in progress whose calls all return runs to its end; it
    leaves the globals as they are, but for the signal handler that
    clears [running]. *)
Lemma finish_frame signals (p : prog unit) :
  loop_free p ->
  all_calls (frame_call signals) p ->
  forall o g h rest m,
  exists n tr h' g',
    run {| globals := g; sigint_handler := h;
           stack := p :: rest; main_frame := m |}
        (repeat (Run o) n) =
    Some (tr, {| globals := g'; sigint_handler := h';
                 stack := rest; main_frame := m |}) /\
    connects_fail tr /\
    (signals = false -> g' = g) /\
    (running g = false -> running g' = false).
Proof.
  intros Hp. pattern p. revert p Hp. apply loop_free_ind.
  - intros r _ o g h rest m.
    exists 1%nat, [LReturn (S (List.length rest))], h, g.
    split; [reflexivity | ]. repeat constructor; auto.
  - intros c k Hk IH [Hc Hac] o g h rest m.
    destruct (perform o c g) as [a g1] eqn:Hperf.
    assert (Hg1 : (signals = false -> g1 = g) /\
                  (running g = false -> running g1 = false)).
    { destruct c; simpl in Hc, Hperf; try contradiction;
        injection Hperf as <- <-; auto.
      destruct Hc as [-> ->]. split; [discriminate | reflexivity]. }
    destruct (IH a (Hac a) o g1
                (installs (LCall (S (List.length rest)) c a) h) rest m)
      as (n & tr & h' & g' & Hrun & Hfail & Hsame & Hfalse).
    exists (S n), (LCall (S (List.length rest)) c a :: tr), h', g'.
    split; [ | split; [ | split]].
    + cbn [repeat run step stack globals sigint_handler main_frame].
      unfold depth, step_prog. cbn [stack List.length]. rewrite Hperf.
      cbn [globals sigint_handler main_frame]. rewrite Hrun. reflexivity.
    + constructor; [ | exact Hfail].
      destruct c; simpl in Hc |- *; try exact I; contradiction.
    + intros Hs. rewrite (Hsame Hs). now apply Hg1.
    + intros Hg. apply Hfalse. now apply Hg1.
Qed.

Lemma repeat_add A (x : A) n m : repeat x n ++ repeat x m = repeat x (n + m).
Proof. symmetry. apply repeat_app. Qed.

Lemma finish_stack signals stk :
  frames_ok signals stk ->
  forall o g h m,
  exists n tr h' g',
    run {| globals := g; sigint_handler := h; stack := stk; main_frame := m |}
        (repeat (Run o) n) =
    Some (tr, {| globals := g'; sigint_handler := h';
                 stack := []; main_frame := m |}) /\
    connects_fail tr /\
    (signals = false -> g' = g) /\
    (running g = false -> running g' = false).
Proof.
  induction stk as [ | f stk IH]; intros Hok o g h m.
  - exists 0%nat, [], h, g. split; [reflexivity | ]. repeat constructor; auto.
  - inversion Hok as [ | ? ? [Hlf Hac] Hok']; subst.
    destruct (@finish_frame signals f Hlf Hac o g h stk m)
      as (n1 & tr1 & h1 & g1 & Hrun1 & Hfail1 & Hsame1 & Hfalse1).
    destruct (IH Hok' o g1 h1 m)
      as (n2 & tr2 & h2 & g2 & Hrun2 & Hfail2 & Hsame2 & Hfalse2).
    exists (n1 + n2)%nat, (tr1 ++ tr2), h2, g2.
    rewrite <- repeat_add, run_app, Hrun1, Hrun2.
    split; [reflexivity | ]. split; [apply Forall_app; now split | ].
    split.
    + intros Hs. now rewrite (Hsame2 Hs), (Hsame1 Hs).
    + auto.
Qed.

(** From every point of the retry cycle [main] reaches the loop again
    when its calls return and the connection attempts fail. *)
Lemma main_to_loop pc done (o : Oracle) g h :
  main_progress pc done ->
  running g = true ->
  (forall client,
     o (c_UA_Client_connect client endpointUrl) <> UA_STATUSCODE_GOOD) ->
  exists n tr client h',
    run {| globals := g; sigint_handler := h; stack := [];
           main_frame := main_at pc |} (repeat (Run o) n) =
    Some (tr, loop_config client g h') /\
    connects_fail tr.
Proof.
  intros Hdone Hg Hr.
  assert (Hneq : forall client,
             (o (c_UA_Client_connect client endpointUrl)
              =? UA_STATUSCODE_GOOD) = false)
    by (intros client; apply Z.eqb_neq, Hr).
  unfold loop_config.
  destruct pc; simpl in Hdone; try contradiction;
    [ exists 6%nat | exists 5%nat | exists 4%nat | exists 3%nat
    | exists 2%nat | exists 1%nat | exists 0%nat | exists 4%nat
    | exists 3%nat | exists 2%nat | exists 1%nat ];
    eexists; eexists; eexists; cbn [repeat run];
    repeat (rewrite step_main_at; cbn [main_step];
            rewrite ?Hg, ?Hneq; cbn [negb]);
    (split; [reflexivity | ]);
    repeat (apply Forall_cons; [simpl; try exact I; apply Hr | ]);
    apply Forall_nil.
Qed.

(** The retries are not limited: whatever the number [n], when the
    environment lets every connection attempt fail and delivers no signal
    the program makes [n] attempts, each followed by the error report and
    the sleep of 1000 ms, and is back at the loop. *)
Lemma retry_cycles_unbounded (o : Oracle) n :
  (forall client,
     o (c_UA_Client_connect client endpointUrl) <> UA_STATUSCODE_GOOD) ->
  exists sched tr client cc,
    run initial_config sched =
      Some (tr, loop_config client initial_globals fn_stopHandler) /\
    no_signal sched /\ connects_fail tr /\
    main_calls tr =
      startup_calls client cc ++ List.concat (repeat (retry_cycle client) n).
Proof.
  intros Hr.
  set (client := o c_UA_Client_new).
  set (cc := o (c_UA_Client_getConfig client)).
  destruct (@retry_cycles_run o client initial_globals fn_stopHandler n
              eq_refl (Hr client))
    as (tr & Hrun & Hcalls & Hfail & _).
  exists (repeat (Run o) 6 ++ repeat (Run o) (5 * n)).
  eexists. exists client, cc. rewrite run_app.
  unfold initial_config. change main with (main_at at_signal).
  cbn [repeat run].
  do 6 (rewrite step_main_at; cbn [main_step]).
  fold client. fold cc. cbn [installs]. simpl (SIGINT =? SIGINT).
  change (if true then fn_stopHandler else fn_NULL) with fn_stopHandler.
  fold (loop_config client initial_globals fn_stopHandler).
  rewrite Hrun. split; [reflexivity | ]. split; [ | split].
  - apply Forall_forall. intros ch Hin. apply in_app_or in Hin.
    destruct Hin as [Hin | Hin].
    + simpl in Hin. intuition (subst ch; discriminate).
    + apply repeat_spec in Hin. subst ch. discriminate.
  - apply Forall_app. split; [ | exact Hfail].
    repeat (apply Forall_cons; [exact I | ]). apply Forall_nil.
  - unfold main_calls in *. rewrite flat_map_app, Hcalls. reflexivity.
Qed.

(** As long as no signal is delivered and every connection attempt
    fails, [main], after its start-up calls, only repeats the cycle
    "connect, log the error, sleep 1000 ms", and
    [UA_Client_run_iterate] is never called; [running] is still true,
    the program has not returned, and when the attempts go on failing
    [main] makes as many further attempts as one asks for. *)
Lemma retries_while_connects_fail sched tr cfg :
  run initial_config sched = Some (tr, cfg) ->
  no_signal sched ->
  connects_fail tr ->
  (exists client cc n,
     prefix (main_calls tr)
            (startup_calls client cc ++
             List.concat (repeat (retry_cycle client) n))) /\
  count is_iterate tr = 0%nat /\
  running (globals cfg) = true /\
  terminated cfg = None /\
  (forall o, step cfg (Run o) <> None) /\
  (forall (o : Oracle) n,
     (forall client,
        o (c_UA_Client_connect client endpointUrl) <> UA_STATUSCODE_GOOD) ->
     exists steps tr' cfg',
       run cfg (repeat (Run o) steps) = Some (tr', cfg') /\
       connects_fail tr' /\
       (n <= count is_connect tr')%nat).
Proof.
  intros Hrun Hns Hfail.
  destruct (run_asteps (inv_initial false) (choice_ok_no_signal Hns) Hrun)
    as (pc & Hinv & Hsteps).
  destruct (asteps_progress Hsteps []) as [Hdone Hg];
    [reflexivity | exact Hfail | reflexivity | ].
  simpl in Hdone, Hg.
  assert (Hterm : terminated cfg = None).
  { destruct Hinv as [Hmain _]. unfold terminated. rewrite Hmain.
    destruct (stack cfg); [ | reflexivity].
    destruct pc; simpl in Hdone |- *; auto; contradiction. }
  split; [now apply main_progress_prefix with (pc := pc) | ].
  split.
  { apply (asteps_no_iterate Hsteps []);
      [reflexivity | exact Hfail | reflexivity]. }
  split; [now rewrite Hg | ].
  split; [exact Hterm | ].
  split; [intros o; now apply progress | ].
  intros o n Hr.
  assert (Hok : frames_ok false (stack cfg))
    by (apply (@run_frames_ok false sched initial_config tr cfg);
        [constructor | now apply choice_ok_no_signal | exact Hrun]).
  destruct Hinv as [Hmain _].
  destruct cfg as [g h stk m]. simpl in Hmain, Hok, Hg. subst m.
  assert (Hgr : running g = true) by now rewrite Hg.
  destruct (finish_stack Hok o g h (main_at pc))
    as (n1 & tr1 & h1 & g1 & Hrun1 & Hfail1 & Hsame & _).
  rewrite (Hsame eq_refl) in Hrun1.
  destruct (@main_to_loop pc (main_calls tr) o g h1 Hdone Hgr Hr)
    as (n2 & tr2 & client & h2 & Hrun2 & Hfail2).
  destruct (@retry_cycles_run o client g h2 n Hgr (Hr client))
    as (tr3 & Hrun3 & _ & Hfail3 & Hn).
  exists (n1 + (n2 + 5 * n))%nat, (tr1 ++ tr2 ++ tr3).
  eexists.
  rewrite <- (repeat_add (Run o) n1 (n2 + 5 * n)).
  rewrite <- (repeat_add (Run o) n2 (5 * n)).
  rewrite run_app, Hrun1, run_app, Hrun2, Hrun3.
  split; [reflexivity | ]. split.
  - apply Forall_app. split; [exact Hfail1 | ].
    apply Forall_app. now split.
  - rewrite !count_app, Hn. lia.
Qed.

End Reconnect.

(** ** Shutdown *)

Section Shutdown.

Context {T : LibraryTypes} {L : ClientLibrary}.











(** Once [running] is false, [main] reaches its return from every point
    when its calls return. *)
Lemma main_to_exit pc (o : Oracle) g h :
  running g = false ->
  exists n tr h',
    run {| globals := g; sigint_handler := h; stack := [];
           main_frame := main_at pc |} (repeat (Run o) n) =
    Some (tr, {| globals := g; sigint_handler := h'; stack := [];
                 main_frame := Ret EXIT_SUCCESS |}).
Proof.
  intros Hg.
  destruct pc;
    match goal with
    | |- context [main_at (at_connect ?cl)] =>
        destruct (o (c_UA_Client_connect cl endpointUrl)
                  =? UA_STATUSCODE_GOOD) eqn:Hconn;
        [exists 5%nat | exists 6%nat]
    | |- context [main_at ?p] => exists (steps_left p)
    end;
    eexists; eexists; cbn [steps_left repeat run];
    repeat (rewrite step_main_at; cbn [main_step];
            rewrite ?Hg; try rewrite Hconn; cbn [negb]);
    reflexivity.
Qed.


End Shutdown.

(** ** The theorems on one library and concrete inputs *)

Section Examples.

Import Example.

Local Existing Instance Example.types.
Local Existing Instance Example.library.

(** A batch of three elements: the registered handle with a DateTime,
    an unknown handle, the registered handle with another scalar. *)
Lemma handler_dispatches_in_batch_order_example :
  exec 0 (handler_currentTimeChanged 4096 7 NULL
            (batch [element 42 (scalar 12 a_time); element 7 empty;
                    element 42 (scalar 1 5)]))
       (oracle_of all_good) initial_globals =
  Some ([change_report; date_report (scalar 12 a_time); change_report],
        initial_globals, tt) /\
  List.length
    (filter is_change_report
       [change_report; date_report (scalar 12 a_time); change_report]) =
  2%nat.
Proof.
  exact (handler_dispatches_in_batch_order 0 4096 7 NULL
           (batch [element 42 (scalar 12 a_time); element 7 empty;
                   element 42 (scalar 1 5)])
           (oracle_of all_good) initial_globals eq_refl).
Defined.

Lemma handler_formats_DateTime_example :
  exists t_pre t_post,
    exec 0 (handler_currentTimeChanged 4096 7 NULL (batch [element 7 empty]))
         (oracle_of all_good) initial_globals =
      Some (t_pre, initial_globals, tt) /\
    exec 0 (handler_currentTimeChanged 4096 7 NULL
              (batch [element 42 (scalar 1 5)]))
         (oracle_of all_good) initial_globals =
      Some (t_post, initial_globals, tt) /\
    exec 0 (handler_currentTimeChanged 4096 7 NULL
              (batch ([element 7 empty] ++
                      element 42 (scalar 12 a_time) ::
                      [element 42 (scalar 1 5)])))
         (oracle_of all_good) initial_globals =
      Some (t_pre ++
            [c_UA_LOG UA_LOGLEVEL_INFO UA_Log_Stdout UA_LOGCATEGORY_USERLAND
               "currentTime has changed!" [];
             c_UA_LOG UA_LOGLEVEL_INFO UA_Log_Stdout UA_LOGCATEGORY_USERLAND
               "date is: %02u-%02u-%04u %02u:%02u:%02u.%03u"
               [29; 2; 2020; 12; 34; 56; 789]] ++ t_post,
            initial_globals, tt).
Proof.
  exact (handler_formats_DateTime 0 4096 7 NULL [element 7 empty]
           (element 42 (scalar 12 a_time)) [element 42 (scalar 1 5)]
           (oracle_of all_good) initial_globals eq_refl eq_refl eq_refl).
Defined.

Lemma handler_ignores_other_values_example :
  exists t_pre t_post,
    exec 0 (handler_currentTimeChanged 4096 7 NULL (batch [element 7 empty]))
         (oracle_of all_good) initial_globals =
      Some (t_pre, initial_globals, tt) /\
    exec 0 (handler_currentTimeChanged 4096 7 NULL (batch []))
         (oracle_of all_good) initial_globals =
      Some (t_post, initial_globals, tt) /\
    exec 0 (handler_currentTimeChanged 4096 7 NULL
              (batch ([element 7 empty] ++
                      element 42 (array 12 [a_time]) :: [])))
         (oracle_of all_good) initial_globals =
      Some (t_pre ++
            [c_UA_LOG UA_LOGLEVEL_INFO UA_Log_Stdout UA_LOGCATEGORY_USERLAND
               "currentTime has changed!" []] ++ t_post,
            initial_globals, tt).
Proof.
  exact (handler_ignores_other_values 0 4096 7 NULL [element 7 empty]
           (element 42 (array 12 [a_time])) []
           (oracle_of all_good) initial_globals eq_refl eq_refl eq_refl).
Defined.

Lemma stateCallback_requests_clientHandle_example :
  exists t,
    exec 0 (stateCallback 4096 UA_SECURECHANNELSTATE_OPEN
              UA_SESSIONSTATE_ACTIVATED 0)
         (oracle_of all_good) initial_globals =
      Some (t, initial_globals, tt) /\
    (forall h, In h (requested_handles t) -> h = 42) /\
    (UA_SESSIONSTATE_ACTIVATED = UA_SESSIONSTATE_ACTIVATED ->
     serviceResult
       (responseHeader (oracle_of all_good (subscription_request 4096)))
       = UA_STATUSCODE_GOOD ->
     In (monitored_item_request 4096
           (subscriptionId (oracle_of all_good (subscription_request 4096)))
           42) t /\
     requested_handles t = [42]).
Proof.
  exact (stateCallback_requests_clientHandle 0 4096
           UA_SECURECHANNELSTATE_OPEN UA_SESSIONSTATE_ACTIVATED 0
           (oracle_of all_good) initial_globals eq_refl).
Defined.

Lemma retry_run :
  run initial_config retry_schedule = Some (retry_trace, retry_config).
Proof. vm_compute. reflexivity. Qed.



Lemma retry_schedule_no_signal : no_signal retry_schedule.
Proof.
  apply Forall_forall. intros ch Hin. apply repeat_spec in Hin.
  subst ch. discriminate.
Defined.

Lemma retry_trace_connects_fail : connects_fail retry_trace.
Proof.
  repeat (apply Forall_cons; [simpl; try exact I; discriminate | ]).
  apply Forall_nil.
Defined.

(** Three failed connection attempts in a row. *)
Lemma three_failed_attempts :
  (exists client cc n,
     prefix (main_calls retry_trace)
            (startup_calls client cc ++
             List.concat (repeat (retry_cycle client) n))) /\
  count is_iterate retry_trace = 0%nat /\
  running (globals retry_config) = true /\
  terminated retry_config = None /\
  (forall o, step retry_config (Run o) <> None) /\
  (forall (o : Oracle) n,
     (forall client,
        o (c_UA_Client_connect client endpointUrl) <> UA_STATUSCODE_GOOD) ->
     exists steps tr' cfg',
       run retry_config (repeat (Run o) steps) = Some (tr', cfg') /\
       connects_fail tr' /\
       (n <= count is_connect tr')%nat).
Proof.
  exact (@retries_while_connects_fail _ _ retry_schedule retry_trace
           retry_config retry_run retry_schedule_no_signal
           retry_trace_connects_fail).
Qed.



(** In that run the flag is true until the handler clears it, and the
    program then returns 0. *)
Lemma stop_run_values :
  running_history initial_config stop_schedule =
    repeat true 11 ++ repeat false 2 /\
  running (globals stop_config) = false /\
  terminated exit_config = Some 0.
Proof. vm_compute. repeat split. Qed.


(** C3 as stated fails: the creation of the subscription returns a status
    that is not Good, and the failed request is the last thing the
    callback does; the two log calls precede the request, nothing is
    logged after it. *)
Lemma stateCallback_failure_not_reported :
  serviceResult
    (responseHeader (oracle_of subscription_fails (subscription_request 4096)))
    <> UA_STATUSCODE_GOOD /\
  exec 0 (stateCallback 4096 UA_SECURECHANNELSTATE_OPEN
            UA_SESSIONSTATE_ACTIVATED 0)
       (oracle_of subscription_fails) initial_globals =
  Some ([c_UA_LOG UA_LOGLEVEL_INFO UA_Log_Stdout UA_LOGCATEGORY_USERLAND
           "A SecureChannel to the server is open" [];
         c_UA_LOG UA_LOGLEVEL_INFO UA_Log_Stdout UA_LOGCATEGORY_USERLAND
           "A session with the server is activated" []] ++
        [subscription_request 4096],
        initial_globals, tt) /\
  forall t before after,
    exec 0 (stateCallback 4096 UA_SECURECHANNELSTATE_OPEN
              UA_SESSIONSTATE_ACTIVATED 0)
         (oracle_of subscription_fails) initial_globals =
      Some (t, initial_globals, tt) ->
    t = before ++ subscription_request 4096 :: after ->
    existsb is_log after = false.
Proof.
  split; [discriminate | ]. split; [reflexivity | ].
  intros t before after Ht Heq.
  assert (Hex : exec 0 (stateCallback 4096 UA_SECURECHANNELSTATE_OPEN
                          UA_SESSIONSTATE_ACTIVATED 0)
                     (oracle_of subscription_fails) initial_globals =
                Some ([c_UA_LOG UA_LOGLEVEL_INFO UA_Log_Stdout
                         UA_LOGCATEGORY_USERLAND
                         "A SecureChannel to the server is open" [];
                       c_UA_LOG UA_LOGLEVEL_INFO UA_Log_Stdout
                         UA_LOGCATEGORY_USERLAND
                         "A session with the server is activated" [];
                       subscription_request 4096], initial_globals, tt))
    by reflexivity.
  rewrite Hex in Ht. injection Ht as <-.
  destruct before as [ | b1 [ | b2 [ | b3 before]]]; try discriminate.
  - injection Heq as _ _ <-. reflexivity.
  - destruct before; discriminate.
Qed.

(** C7 as stated fails: the session is activated and subscription 7 is
    created with the item of handle 42; the deletion callback is called
    for subscription 7; a batch with handle 42 is still handled
    afterwards, so nothing the handler answers to was discarded. *)
Lemma deleteSubscriptionCallback_discards_nothing :
  exists t g,
    exec 0 (stateCallback 4096 UA_SECURECHANNELSTATE_OPEN
              UA_SESSIONSTATE_ACTIVATED 0)
         (oracle_of all_good) initial_globals = Some (t, g, tt) /\
    In (monitored_item_request 4096 7 42) t /\
    exists t' g',
      exec 0 (deleteSubscriptionCallback 4096 7 NULL)
           (oracle_of all_good) g = Some (t', g', tt) /\
      exec 0 (handler_currentTimeChanged 4096 7 NULL
                (batch [element 42 (scalar 12 a_time)]))
           (oracle_of all_good) g' =
      Some ([change_report; date_report (scalar 12 a_time)], g', tt).
Proof.
  eexists. eexists. split; [reflexivity | ]. split.
  - simpl. right. right. right. right. left. reflexivity.
  - eexists. eexists. split; reflexivity.
Qed.

End Examples.

(** * Further properties of the program *)

(** ** What every call of every run satisfies *)

Section Discipline.

Context {T : LibraryTypes} {L : ClientLibrary}.

Local Open Scope prog_scope.

Lemma all_calls_handle42_bind P A B (p : prog A) (f : A -> prog B) :
  all_calls_handle42 P p -> (forall a, all_calls_handle42 P (f a)) ->
  all_calls_handle42 P (bind p f).
Proof.
  revert f. induction p as [A r | A c k IH | A cond _ body _ k IHk];
    intros f Hp Hf; simpl in *.
  - apply Hf.
  - destruct Hp as [Hc Hk]. split; [exact Hc | ].
    intros a Ha. now apply IH; [apply Hk | ].
  - destruct Hp as (Hcond & Hbody & Hk). repeat split; auto.
Qed.

Lemma all_calls_handle42_each P A (l : list A) (f : A -> prog unit) :
  (forall x, all_calls_handle42 P (f x)) -> all_calls_handle42 P (each l f).
Proof.
  intros Hf. induction l as [ | x l IH]; simpl; [exact I | ].
  apply all_calls_handle42_bind; auto.
Qed.

Ltac discipline :=
  repeat first
    [ exact I
    | reflexivity
    | progress intros
    | progress (unfold disciplined, UA_LOG_INFO, UA_LOG_ERROR, call, call_;
                simpl)
    | split ].

Lemma disciplined_stateCallback client cs ss rs :
  all_calls_handle42 disciplined (stateCallback client cs ss rs).
Proof.
  unfold stateCallback.
  apply all_calls_handle42_bind; [destruct cs; discipline | ]. intros _.
  destruct ss; discipline.
  destruct (serviceResult _ =? _); discipline; subst; discipline.
  destruct (statusCode _ =? _); discipline.
Qed.

Lemma disciplined_handle_notification mn :
  all_calls_handle42 disciplined (handle_notification mn).
Proof.
  unfold handle_notification. discipline.
  destruct (mn_clientHandle mn =? a); discipline.
  destruct (UA_Variant_hasScalarType _ _); discipline.
Qed.

Lemma disciplined_body_of i : all_calls_handle42 disciplined (body_of i).
Proof.
  destruct i; simpl body_of.
  - apply disciplined_stateCallback.
  - rewrite handler_each. apply all_calls_handle42_each.
    apply disciplined_handle_notification.
  - unfold deleteSubscriptionCallback. discipline.
  - unfold subscriptionInactivityCallback. discipline.
Qed.

Lemma disciplined_signal_body handler signum p :
  signal_body handler signum = Some p -> all_calls_handle42 disciplined p.
Proof.
  destruct handler; simpl; try discriminate.
  intros [= <-]. unfold stopHandler. discipline.
Qed.

Lemma disciplined_main : all_calls_handle42 disciplined main.
Proof.
  unfold main, main_loop_body, main_cleanup. discipline.
  destruct (negb _); discipline.
Qed.

Lemma all_calls_handle42_unfold_While P R cond body (k : prog R) :
  all_calls_handle42 P (While cond body k) ->
  all_calls_handle42 P (unfold_While cond body k).
Proof.
  simpl. intros (Hcond & Hbody & Hk). unfold unfold_While.
  apply all_calls_handle42_bind; [exact Hcond | ]. intros [ | ]; [ | exact Hk].
  apply all_calls_handle42_bind; [exact Hbody | ]. intros _. simpl. auto.
Qed.

Lemma step_prog_within P R o d (p p' : prog R) g g' l :
  currentTimeClientHandle g = 42 ->
  all_calls_handle42 P p -> step_prog o d p g = Some (l, p', g') ->
  currentTimeClientHandle g' = 42 /\
  all_calls_handle42 P p' /\
  match l with LCall _ c _ => P c | _ => True end.
Proof.
  intros Hg. destruct p as [r | c k | cond body k]; simpl; intros Hp Hstep.
  - discriminate.
  - destruct (perform o c g) as [a g1] eqn:Hperf.
    injection Hstep as <- <- <-. destruct Hp as [Hc Hk].
    assert (Ha : answer_ok c a /\ currentTimeClientHandle g1 = 42)
      by (destruct c; simpl in Hperf; injection Hperf as <- <-;
          simpl; auto).
    destruct Ha as [Ha Hg1]. repeat split; auto.
  - injection Hstep as <- <- <-.
    repeat split; auto. now apply all_calls_handle42_unfold_While.
Qed.

Lemma step_within cfg ch l cfg' :
  within disciplined cfg -> step cfg ch = Some (l, cfg') ->
  within disciplined cfg' /\
  match l with LCall _ c _ => disciplined c | _ => True end.
Proof.
  intros (Hg & Hmain & Hstack) Hstep.
  destruct ch as [o | i | ]; simpl in Hstep.
  - destruct (stack cfg) as [ | f rest] eqn:Hs.
    + destruct (step_prog o 0 (main_frame cfg) (globals cfg))
        as [[[l' p'] g'] | ] eqn:Hsp; [ | discriminate].
      injection Hstep as <- <-.
      destruct (@step_prog_within _ _ _ _ _ _ _ _ _ Hg Hmain Hsp) as (Hg' & Hp' & Hl).
      split; [ | exact Hl]. repeat split; auto.
    + inversion Hstack as [ | f' rest' Hf Hrest]; subst f' rest'.
      destruct f as [r | c k | cond body k].
      * injection Hstep as <- <-. split; [ | exact I]. repeat split; auto.
      * destruct (step_prog o (depth cfg) (Do c k) (globals cfg))
          as [[[l' f'] g'] | ] eqn:Hsp; [ | discriminate].
        injection Hstep as <- <-.
        destruct (@step_prog_within _ _ _ _ _ _ _ _ _ Hg Hf Hsp) as (Hg' & Hp' & Hl).
        split; [ | exact Hl]. repeat split; auto. now constructor.
      * destruct (step_prog o (depth cfg) (While cond body k) (globals cfg))
          as [[[l' f'] g'] | ] eqn:Hsp; [ | discriminate].
        injection Hstep as <- <-.
        destruct (@step_prog_within _ _ _ _ _ _ _ _ _ Hg Hf Hsp) as (Hg' & Hp' & Hl).
        split; [ | exact Hl]. repeat split; auto. now constructor.
  - match type of Hstep with
    | (if ?b then _ else _) = _ => destruct b; [ | discriminate]
    end.
    injection Hstep as <- <-. split; [ | exact I]. repeat split; auto.
    simpl. constructor; [apply disciplined_body_of | exact Hstack].
  - destruct (terminated cfg); [discriminate | ].
    destruct (signal_body (sigint_handler cfg) SIGINT) as [p | ] eqn:Hp;
      [ | discriminate].
    injection Hstep as <- <-. split; [ | exact I]. repeat split; auto.
    simpl. constructor; [ | exact Hstack].
    now apply disciplined_signal_body with (1 := Hp).
Qed.

Lemma run_within sched : forall cfg tr cfg',
  within disciplined cfg -> run cfg sched = Some (tr, cfg') ->
  Forall (fun l => match l with LCall _ c _ => disciplined c | _ => True end)
         tr.
Proof.
  induction sched as [ | ch sched IH]; intros cfg tr cfg' Hin Hrun;
    simpl in Hrun.
  - injection Hrun as <- <-. constructor.
  - destruct (step cfg ch) as [[l cfg1] | ] eqn:Hstep; [ | discriminate].
    destruct (run cfg1 sched) as [[t cfg2] | ] eqn:Hrest; [ | discriminate].
    injection Hrun as <- <-.
    destruct (@step_within cfg ch l cfg1 Hin Hstep) as [Hin1 Hl].
    constructor; [exact Hl | ]. now apply (IH cfg1 t cfg2).
Qed.

Lemma run_disciplined sched tr cfg d c a :
  run initial_config sched = Some (tr, cfg) ->
  In (LCall d c a) tr -> disciplined c.
Proof.
  intros Hrun Hin.
  assert (Hw : within disciplined initial_config)
    by (split; [reflexivity | split; [apply disciplined_main | constructor]]).
  pose proof (@run_within sched initial_config tr cfg Hw Hrun) as Hall.
  rewrite Forall_forall in Hall. exact (Hall _ Hin).
Qed.

(** X1. In every run of the program, whatever the environment does,
    every monitored item the program asks for is created with the client
    handle 42 in its requested parameters, with both timestamps, and
    with no context and no callback of its own, also when callbacks are
    entered again while one is in progress and when signals arrive in
    between. *)
Theorem every_monitored_item_has_handle_42
    sched tr cfg d client subId timestampsToReturn item context callback
    deleteCallback a :
  run initial_config sched = Some (tr, cfg) ->
  In (LCall d (c_UA_Client_MonitoredItems_createDataChange
                 client subId timestampsToReturn item context callback
                 deleteCallback) a) tr ->
  clientHandle (requestedParameters item) = 42 /\
  timestampsToReturn = UA_TIMESTAMPSTORETURN_BOTH /\
  context = NULL /\ callback = fn_NULL /\ deleteCallback = fn_NULL.
Proof.
  intros Hrun Hin.
  exact (proj1 (@run_disciplined sched tr cfg d _ a Hrun Hin)).
Qed.

(** X2. In every run of the program the endpoint, the time-out and the
    back-off never vary: every connection attempt goes to
    opc.tcp://localhost:4840, every call of [UA_Client_run_iterate] is
    given 1000 ms and every sleep lasts 1000 ms. *)
Theorem endpoint_and_delays_are_fixed sched tr cfg d c a :
  run initial_config sched = Some (tr, cfg) ->
  In (LCall d c a) tr ->
  match c with
  | c_UA_Client_connect _ url => url = "opc.tcp://localhost:4840"
  | c_UA_Client_run_iterate _ timeout => timeout = 1000
  | c_sleep_ms ms => ms = 1000
  | _ => True
  end.
Proof.
  intros Hrun Hin.
  exact (proj1 (proj2 (@run_disciplined sched tr cfg d c a Hrun Hin))).
Qed.

(** X3. In every run of the program each function of the program is
    registered in its own role and in no other: [signal] is called for
    SIGINT with [stopHandler] only; the state callback of the
    configuration is [stateCallback] and its inactivity callback is
    [subscriptionInactivityCallback]; every subscription is created with
    [deleteSubscriptionCallback] as its delete callback,
    [handler_currentTimeChanged] as its data-change callback and no
    status-change callback; the items have no callback of their own. *)
Theorem callbacks_registered_in_their_roles sched tr cfg d c a :
  run initial_config sched = Some (tr, cfg) ->
  In (LCall d c a) tr ->
  match c with
  | c_signal signum handler => signum = SIGINT /\ handler = fn_stopHandler
  | c_set_stateCallback _ f => f = fn_stateCallback
  | c_set_subscriptionInactivityCallback _ f =>
      f = fn_subscriptionInactivityCallback
  | c_UA_Client_Subscriptions_createCompleteDataChange
      _ _ _ statusChangeCallback deleteCallback dataChangeCallback =>
      statusChangeCallback = fn_NULL /\
      deleteCallback = fn_deleteSubscriptionCallback /\
      dataChangeCallback = fn_handler_currentTimeChanged
  | c_UA_Client_MonitoredItems_createDataChange _ _ _ _ _ callback
      deleteCallback =>
      callback = fn_NULL /\ deleteCallback = fn_NULL
  | _ => True
  end.
Proof.
  intros Hrun Hin.
  exact (proj2 (proj2 (@run_disciplined sched tr cfg d c a Hrun Hin))).
Qed.

(** Once installed, the handler of SIGINT stays [stopHandler]. *)
Lemma step_sigint_handler cfg ch l cfg' :
  step cfg ch = Some (l, cfg') ->
  sigint_handler cfg' = installs l (sigint_handler cfg).
Proof.
  intros Hstep. destruct ch as [o | i | ]; simpl in Hstep.
  - destruct (stack cfg) as [ | f rest].
    + destruct (step_prog o 0 (main_frame cfg) (globals cfg))
        as [[[l' p'] g'] | ]; [ | discriminate].
      now injection Hstep as <- <-.
    + destruct f as [r | c k | cond body k].
      * now injection Hstep as <- <-.
      * destruct (step_prog o (depth cfg) (Do c k) (globals cfg))
          as [[[l' f'] g'] | ]; [ | discriminate].
        now injection Hstep as <- <-.
      * destruct (step_prog o (depth cfg) (While cond body k) (globals cfg))
          as [[[l' f'] g'] | ]; [ | discriminate].
        now injection Hstep as <- <-.
  - match type of Hstep with
    | (if ?b then _ else _) = _ => destruct b; [ | discriminate]
    end.
    now injection Hstep as <- <-.
  - destruct (terminated cfg); [discriminate | ].
    destruct (signal_body (sigint_handler cfg) SIGINT); [ | discriminate].
    now injection Hstep as <- <-.
Qed.

Lemma run_keeps_sigint_handler sched : forall cfg tr cfg',
  within disciplined cfg -> sigint_handler cfg = fn_stopHandler ->
  run cfg sched = Some (tr, cfg') -> sigint_handler cfg' = fn_stopHandler.
Proof.
  induction sched as [ | ch sched IH]; intros cfg tr cfg' Hin Hh Hrun;
    simpl in Hrun.
  - now injection Hrun as <- <-.
  - destruct (step cfg ch) as [[l cfg1] | ] eqn:Hstep; [ | discriminate].
    destruct (run cfg1 sched) as [[t cfg2] | ] eqn:Hrest; [ | discriminate].
    injection Hrun as <- <-.
    destruct (@step_within cfg ch l cfg1 Hin Hstep) as [Hin1 Hl].
    apply (IH cfg1 t cfg2 Hin1); [ | exact Hrest].
    rewrite (step_sigint_handler _ _ Hstep), Hh.
    destruct l as [d c a | | | | ]; try reflexivity.
    destruct c; try reflexivity.
    destruct Hl as (_ & _ & _ & ->). simpl. now destruct (_ =? _).
Qed.

Lemma within_initial : within disciplined initial_config.
Proof. split; [reflexivity | split; [apply disciplined_main | constructor]]. Qed.

Lemma run_installs_stopHandler sched tr cfg :
  run initial_config sched = Some (tr, cfg) -> sched <> [] ->
  sigint_handler cfg = fn_stopHandler.
Proof.
  destruct sched as [ | ch sched]; [congruence | ]. intros Hrun _.
  simpl in Hrun.
  destruct (step initial_config ch) as [[l cfg1] | ] eqn:Hstep;
    [ | discriminate].
  destruct (run cfg1 sched) as [[t cfg2] | ] eqn:Hrest; [ | discriminate].
  injection Hrun as <- <-.
  destruct (@step_within _ ch l cfg1 within_initial Hstep) as [Hin1 _].
  apply (@run_keeps_sigint_handler sched cfg1 t cfg2 Hin1); [ | exact Hrest].
  destruct ch as [o | i | ]; simpl in Hstep; try discriminate.
  now injection Hstep as <- <-.
Qed.

End Discipline.

(** ** The shape of the runs *)

Section Shape.

Context {T : LibraryTypes} {L : ClientLibrary}.

(** A property of the point [main] is at, of the globals and of what the
    run has shown so far holds along a run when the steps of [main] and
    those of the callbacks keep it. *)
Lemma asteps_accumulate signals
    (I : MainPC -> Globals -> list Label -> Prop) :
  (forall pc o g l pc' acc,
     main_step pc o g = Some (l, pc') ->
     I pc g acc -> I pc' g (acc ++ [l])) ->
  (forall pc g l acc,
     is_main_label l = false -> frame_label signals l ->
     I pc g acc -> I pc (apply_label l g) (acc ++ [l])) ->
  forall a tr b,
    asteps signals a tr b ->
    forall acc, I (fst a) (snd a) acc -> I (fst b) (snd b) (acc ++ tr).
Proof.
  intros Hmain Hframe.
  induction 1 as [ | [pc g] l [pc1 g1] tr c Hstep _ IH]; intros acc Hacc.
  - now rewrite app_nil_r.
  - replace (acc ++ l :: tr) with ((acc ++ [l]) ++ tr)
      by now rewrite <- app_assoc.
    apply IH. simpl in Hacc |- *.
    inversion Hstep as [? o ? ? ? Hm | ? ? ? Hm Hf]; subst.
    + now apply Hmain with (o := o) (pc := pc).
    + now apply Hframe.
Qed.

Lemma run_accumulate signals
    (I : MainPC -> Globals -> list Label -> Prop) :
  (forall pc o g l pc' acc,
     main_step pc o g = Some (l, pc') ->
     I pc g acc -> I pc' g (acc ++ [l])) ->
  (forall pc g l acc,
     is_main_label l = false -> frame_label signals l ->
     I pc g acc -> I pc (apply_label l g) (acc ++ [l])) ->
  I at_signal initial_globals [] ->
  forall sched tr cfg,
    Forall (choice_ok signals) sched ->
    run initial_config sched = Some (tr, cfg) ->
    exists pc, inv signals cfg pc /\ I pc (globals cfg) tr.
Proof.
  intros Hmain Hframe Hinit sched tr cfg Hok Hrun.
  destruct (@run_asteps _ _ signals sched initial_config at_signal tr cfg
              (inv_initial signals) Hok Hrun) as (pc & Hinv & Hsteps).
  exists pc. split; [exact Hinv | ].
  exact (@asteps_accumulate signals I Hmain Hframe _ _ _ Hsteps [] Hinit).
Qed.

Lemma main_calls_app t1 t2 :
  main_calls (t1 ++ t2) = main_calls t1 ++ main_calls t2.
Proof. unfold main_calls. apply flat_map_app. Qed.

(** X4. In every run of the program the work is divided as in the
    source.  [main] itself only installs the signal handler, creates,
    configures, connects, iterates and deletes the client, sleeps,
    logs at the level of errors and reads [running]: it never requests
    a subscription or an item, never reads the handle and never writes
    [running].  The callbacks
    and the signal handler only log, request the subscription and the
    item, read the handle and clear [running]: they never connect,
    iterate, sleep, delete the client, install a handler or read
    [running], and never set [running] to true. *)
Theorem calls_by_caller sched tr cfg d c a :
  run initial_config sched = Some (tr, cfg) ->
  In (LCall d c a) tr ->
  (d = 0%nat -> main_call c) /\ (d <> 0%nat -> frame_call true c).
Proof.
  intros Hrun Hin.
  pose (placed := fun l =>
          match l with
          | LCall O c _ => main_call c
          | LCall (S _) c _ => frame_call true c
          | _ => True
          end).
  destruct (@run_accumulate true (fun _ _ acc => Forall placed acc))
    with (sched := sched) (tr := tr) (cfg := cfg) as (pc & _ & Hall);
    [ | | constructor | apply choice_ok_true | exact Hrun | ].
  - intros pc o g l pc' acc Hm Hacc. apply Forall_app. split; [exact Hacc | ].
    constructor; [ | constructor].
    destruct pc; simpl in Hm; try discriminate; injection Hm as <- _;
      simpl; auto.
  - intros pc g l acc Hl Hf Hacc. apply Forall_app. split; [exact Hacc | ].
    constructor; [ | constructor].
    destruct l as [[ | d'] c' a' | | | | ]; simpl; auto; discriminate.
  - rewrite Forall_forall in Hall. specialize (Hall _ Hin).
    destruct d; simpl in Hall; split; intros Hd; congruence.
Qed.

Lemma concat_snoc A (l : list (list A)) x :
  List.concat (l ++ [x]) = List.concat l ++ x.
Proof. rewrite concat_app. simpl. now rewrite app_nil_r. Qed.

Lemma main_history_step pc o g l pc' acc :
  main_step pc o g = Some (l, pc') ->
  main_history pc (main_calls acc) ->
  main_history pc' (main_calls (acc ++ [l])).
Proof.
  intros Hm H. rewrite main_calls_app.
  destruct pc; simpl in Hm; try discriminate; injection Hm as <- <-;
    cbn [main_history] in H |- *;
    try (rewrite H; reflexivity).
  - exists cc, []. split; [constructor | ]. rewrite H. reflexivity.
  - simpl. now rewrite app_nil_r.
  - simpl. rewrite app_nil_r. now destruct (running g).
  - destruct H as (cc & its & Hits & ->).
    destruct (negb _); exists cc, its; (split; [exact Hits | ]);
      now rewrite <- app_assoc.
  - destruct H as (cc & its & Hits & ->). exists cc, its.
    split; [exact Hits | ]. now rewrite <- !app_assoc.
  - destruct H as (cc & its & Hits & ->).
    exists cc, (its ++ [retry_cycle client]). split.
    + apply Forall_app. split; [exact Hits | ].
      constructor; [now left | constructor].
    + rewrite concat_snoc, <- !app_assoc. reflexivity.
  - destruct H as (cc & its & Hits & ->).
    exists cc, (its ++ [iterate_cycle client]). split.
    + apply Forall_app. split; [exact Hits | ].
      constructor; [now right | constructor].
    + rewrite concat_snoc, <- !app_assoc. reflexivity.
  - destruct H as (cc & its & Hits & ->). exists client, cc, its.
    split; [exact Hits | ]. now rewrite <- !app_assoc.
Qed.

Lemma main_history_prefix pc done :
  main_history pc done ->
  exists client cc its,
    Forall (iteration client) its /\
    prefix done (startup_calls client cc ++ List.concat its ++
                 [c_UA_Client_delete client]).
Proof.
  unfold prefix. destruct pc; cbn [main_history]; intros H;
    try (subst done; exists 0, 0, []; split; [constructor | ];
         eexists; reflexivity);
    try (subst done; exists client, 0, []; split; [constructor | ];
         eexists; reflexivity);
    try (subst done; exists client, cc, []; split; [constructor | ];
         eexists; reflexivity).
  - destruct H as (cc & its & Hits & ->). exists client, cc, its.
    split; [exact Hits | ]. eexists. now rewrite <- app_assoc.
  - destruct H as (cc & its & Hits & ->). exists client, cc, its.
    split; [exact Hits | ]. eexists. now rewrite <- app_assoc.
  - destruct H as (cc & its & Hits & ->). exists client, cc, its.
    split; [exact Hits | ]. eexists. now rewrite <- app_assoc.
  - destruct H as (cc & its & Hits & ->).
    exists client, cc, (its ++ [retry_cycle client]). split.
    + apply Forall_app. split; [exact Hits | ].
      constructor; [now left | constructor].
    + exists [connect_error_log; c_sleep_ms 1000;
              c_UA_Client_delete client].
      rewrite concat_snoc, <- !app_assoc. reflexivity.
  - destruct H as (cc & its & Hits & ->).
    exists client, cc, (its ++ [retry_cycle client]). split.
    + apply Forall_app. split; [exact Hits | ].
      constructor; [now left | constructor].
    + exists [c_sleep_ms 1000; c_UA_Client_delete client].
      rewrite concat_snoc, <- !app_assoc. reflexivity.
  - destruct H as (cc & its & Hits & ->).
    exists client, cc, (its ++ [iterate_cycle client]). split.
    + apply Forall_app. split; [exact Hits | ].
      constructor; [now right | constructor].
    + exists [c_UA_Client_run_iterate client 1000;
              c_UA_Client_delete client].
      rewrite concat_snoc, <- !app_assoc. reflexivity.
  - destruct H as (cc & its & Hits & ->). exists client, cc, its.
    split; [exact Hits | ]. eexists. now rewrite <- app_assoc.
  - destruct H as (client & cc & its & Hits & ->). exists client, cc, its.
    split; [exact Hits | ]. exists []. now rewrite app_nil_r.
Qed.

Lemma run_main_history sched tr cfg :
  run initial_config sched = Some (tr, cfg) ->
  exists pc, inv true cfg pc /\ main_history pc (main_calls tr).
Proof.
  intros Hrun.
  apply (@run_accumulate true (fun pc _ acc => main_history pc (main_calls acc)))
    with (sched := sched); [ | | reflexivity | apply choice_ok_true | exact Hrun].
  - intros pc o g l pc' acc. apply main_history_step.
  - intros pc g l acc Hl _ H. rewrite main_calls_app, main_calls_frame by exact Hl.
    now rewrite app_nil_r.
Qed.

(** X5. In every run of the program, whatever the answers, the callbacks
    and the signals, what [main] itself calls outside the program is a
    prefix of: the six calls of the start (signal handler, new client,
    its configuration, the defaults, the two callbacks), then any number
    of iterations, each either a connection attempt followed by the
    error report and the sleep, or a connection attempt followed by
    [UA_Client_run_iterate], all on the same client, then the deletion
    of that client.  When [main] has returned it is the whole of
    it. *)
Theorem main_calls_shape sched tr cfg :
  run initial_config sched = Some (tr, cfg) ->
  exists client cc its,
    Forall (iteration client) its /\
    prefix (main_calls tr)
           (startup_calls client cc ++ List.concat its ++
            [c_UA_Client_delete client]) /\
    (forall code,
       terminated cfg = Some code ->
       main_calls tr =
       startup_calls client cc ++ List.concat its ++
       [c_UA_Client_delete client]).
Proof.
  intros Hrun.
  destruct (@run_main_history sched tr cfg Hrun) as (pc & Hinv & Hhist).
  destruct (terminated cfg) as [code | ] eqn:Hterm.
  - destruct (terminated_inv Hinv Hterm) as [-> _]. simpl in Hhist.
    destruct Hhist as (client & cc & its & Hits & Heq).
    exists client, cc, its. split; [exact Hits | ]. split.
    + exists []. now rewrite app_nil_r.
    + intros _ _. exact Heq.
  - destruct (main_history_prefix _ _ Hhist) as (client & cc & its & Hits & Hp).
    exists client, cc, its. split; [exact Hits | ]. split; [exact Hp | ].
    discriminate.
Qed.

End Shape.

(** ** What follows what *)

Section Order.

Context {T : LibraryTypes} {L : ClientLibrary}.

Lemma last_main_call_snoc acc l :
  last_main_call (acc ++ [l]) =
  match l with
  | LCall O c _ => if is_memory c then last_main_call acc else Some l
  | _ => last_main_call acc
  end.
Proof. unfold last_main_call. rewrite fold_left_app. reflexivity. Qed.

Lemma snoc_split A (acc pre post : list A) l l' :
  acc ++ [l] = pre ++ l' :: post ->
  (post = [] /\ pre = acc /\ l' = l) \/
  (exists post', post = post' ++ [l] /\ acc = pre ++ l' :: post').
Proof.
  intros H. destruct (exists_last (l := l' :: post)) as (q & x & Hq);
    [discriminate | ].
  rewrite Hq, app_assoc in H. apply app_inj_tail in H. destruct H as [-> ->].
  destruct q as [ | y q]; simpl in Hq.
  - left. injection Hq as -> ->. now rewrite app_nil_r.
  - right. injection Hq as -> ->. exists q. split; reflexivity.
Qed.

Lemma branches_follow_connect_snoc acc l :
  branches_follow_connect acc -> follows_connect acc l ->
  branches_follow_connect (acc ++ [l]).
Proof.
  intros Hacc Hl pre l' post Heq.
  destruct (@snoc_split _ acc pre post l l' Heq) as [(_ & -> & ->) | (post' & _ & ->)].
  - exact Hl.
  - now apply (Hacc pre l' post').
Qed.

(** What the answer to the connection attempt decides, along every
    run. *)
Lemma run_branches_follow_connect sched tr cfg :
  run initial_config sched = Some (tr, cfg) -> branches_follow_connect tr.
Proof.
  intros Hrun.
  destruct (@run_accumulate _ _ true
              (fun pc _ acc =>
                 branches_follow_connect acc /\ after_connect pc acc))
    with (sched := sched) (tr := tr) (cfg := cfg)
    as (pc & _ & Hall & _);
    [ | | | apply choice_ok_true | exact Hrun | exact Hall].
  - intros pc o g l0 pc' acc Hm [Hacc Hpc]. split.
    + apply branches_follow_connect_snoc; [exact Hacc | ].
      destruct pc; simpl in Hm; try discriminate; injection Hm as <- _;
        simpl; auto.
      destruct Hpc as (r & Hlast & Hr). now exists client, r.
    + destruct pc; simpl in Hm; try discriminate; injection Hm as <- <-;
        try exact I.
      * now destruct (running g).
      * unfold endpointUrl.
        destruct (_ =? UA_STATUSCODE_GOOD) eqn:Hr; cbn [negb after_connect];
          rewrite last_main_call_snoc; cbn [is_memory].
        -- eexists. split; [reflexivity | ]. now apply Z.eqb_eq.
        -- eexists. split; [reflexivity | ]. now apply Z.eqb_neq.
      * cbn [after_connect]. rewrite last_main_call_snoc. eexists.
        reflexivity.
  - intros pc g l0 acc Hl Hf [Hacc Hpc]. split.
    + apply branches_follow_connect_snoc; [exact Hacc | ].
      destruct l0 as [[ | d] c a | | | | ]; simpl; auto; try discriminate.
      destruct c; simpl in Hf |- *; auto; contradiction.
    + assert (Hsame : last_main_call (acc ++ [l0]) = last_main_call acc)
        by (rewrite last_main_call_snoc;
            destruct l0 as [[ | d] c a | | | | ]; auto; discriminate).
      destruct pc; cbn [after_connect] in Hpc |- *; auto;
        now rewrite Hsame.
  - split; [ | exact I]. intros p l0 q Hnil. destruct p; discriminate.
Qed.

(** X6. In every run of the program the three calls in the body of the
    loop come where the answer to the connection attempt sends them:
    [UA_Client_run_iterate] is called only when the last call [main]
    made outside the program was a connection attempt of the same client
    that returned Good; [main] logs only when its last call was a
    connection attempt that did not return Good; and the sleep comes
    only when the last call of [main] was that report.  Callbacks and signal handlers that run
    in between do not change this. *)
Theorem loop_branches_follow_connect sched tr cfg pre l post :
  run initial_config sched = Some (tr, cfg) ->
  tr = pre ++ l :: post ->
  follows_connect pre l.
Proof.
  intros Hrun Heq.
  pose proof (@run_branches_follow_connect sched tr cfg Hrun) as Hall.
  exact (Hall pre l post Heq).
Qed.

(** A run up to one of its steps, the step, and the rest. *)
Lemma run_split sched : forall cfg pre l post cfg',
  run cfg sched = Some (pre ++ l :: post, cfg') ->
  exists s1 ch s2 c1 c2,
    sched = s1 ++ ch :: s2 /\
    run cfg s1 = Some (pre, c1) /\
    step c1 ch = Some (l, c2) /\
    run c2 s2 = Some (post, cfg').
Proof.
  induction sched as [ | ch sched IH]; intros cfg pre l post cfg' Hrun;
    simpl in Hrun.
  - injection Hrun as Hnil _. destruct pre; discriminate.
  - destruct (step cfg ch) as [[l1 cfg1] | ] eqn:Hstep; [ | discriminate].
    destruct (run cfg1 sched) as [[t cfg2] | ] eqn:Hrest; [ | discriminate].
    injection Hrun as Htr <-.
    destruct pre as [ | l2 pre]; simpl in Htr.
    + injection Htr as -> ->.
      exists [], ch, sched, cfg, cfg1. repeat split; auto.
    + injection Htr as -> ->.
      destruct (IH _ _ _ _ _ Hrest)
        as (s1 & ch' & s2 & c1 & c2 & -> & Hr1 & Hst & Hr2).
      exists (ch :: s1), ch', s2, c1, c2. simpl. rewrite Hstep, Hr1.
      repeat split; auto.
Qed.

(** Once [main] is at its return it takes no step of its own any
    more. *)
Lemma asteps_at_return signals a tr b :
  asteps signals a tr b ->
  fst a = at_return -> fst b = at_return /\ main_steps tr = 0%nat.
Proof.
  induction 1 as [ | [pc g] l [pc1 g1] tr c Hstep _ IH]; intros Hpc.
  - split; [exact Hpc | reflexivity].
  - simpl in Hpc. subst pc.
    inversion Hstep as [? o ? ? ? Hm | ? ? ? Hm Hf]; subst.
    + discriminate.
    + destruct (IH eq_refl) as [Hb Hn]. split; [exact Hb | ].
      unfold main_steps in *. simpl. now rewrite Hm.
Qed.

(** X7. In every run of the program it is [main] itself that calls
    [UA_Client_delete], never a callback or the signal handler, and the
    call is the last step [main] takes: after it [main] makes no call
    and enters no loop, and what is left of it is to return 0.  [main]
    never uses the client after it has deleted it. *)
Theorem delete_is_the_last_step_of_main sched tr cfg pre d client a post :
  run initial_config sched = Some (tr, cfg) ->
  tr = pre ++ LCall d (c_UA_Client_delete client) a :: post ->
  d = 0%nat /\ main_steps post = 0%nat /\ main_calls post = [] /\
  main_frame cfg = Ret EXIT_SUCCESS.
Proof.
  intros Hrun ->.
  destruct (@run_split sched initial_config pre _ post cfg Hrun)
    as (s1 & ch & s2 & c1 & c2 & _ & Hr1 & Hstep & Hr2).
  destruct (@run_asteps _ _ true s1 initial_config at_signal pre c1
              (inv_initial true) (choice_ok_true s1) Hr1)
    as (pc1 & Hinv1 & _).
  assert (Hch : choice_ok true ch) by (destruct ch; simpl; auto).
  destruct (@step_astep _ _ true c1 pc1 ch _ c2 Hinv1 Hch Hstep)
    as (pc2 & Hinv2 & Hastep).
  inversion Hastep as [? o ? ? ? Hm | ? ? ? Hm Hf]; subst.
  - destruct pc1; simpl in Hm; try discriminate.
    assert (Hd : d = 0%nat) by congruence. subst d.
    assert (Hpc : pc2 = at_return) by congruence. subst pc2.
    destruct (@run_asteps _ _ true s2 c2 at_return post cfg Hinv2
                (choice_ok_true s2) Hr2) as (pc3 & [Hmain3 _] & Hsteps).
    destruct (@asteps_at_return true _ _ _ Hsteps eq_refl) as [Hpc3 Hn].
    simpl in Hpc3. subst pc3.
    split; [reflexivity | ]. split; [exact Hn | ]. split; [ | exact Hmain3].
    clear - Hn. unfold main_steps in Hn.
    induction post as [ | l post IH]; [reflexivity | ].
    rewrite main_calls_cons. simpl in Hn.
    destruct (is_main_label l) eqn:Hl; [discriminate | ].
    rewrite (main_calls_frame _ Hl). now apply IH.
  - destruct Hf.
Qed.

(** The signal handler, once entered, clears [running] and returns. *)
Lemma stopHandler_run (o : Oracle) g h stk m signum :
  exists tr,
    run {| globals := g; sigint_handler := h;
           stack := stopHandler signum :: stk; main_frame := m |}
        (repeat (Run o) 3) =
    Some (tr, {| globals :=
                   {| running := false;
                      currentTimeClientHandle := currentTimeClientHandle g |};
                 sigint_handler := h; stack := stk; main_frame := m |}).
Proof. eexists. reflexivity. Qed.

(** X8. SIGINT ends the program from everywhere.  At every moment of
    every run after the first step (the handler is then installed and
    stays installed) and before [main] has returned, the signal is
    taken: the handler runs, and when from then on every call returns,
    the callbacks in progress finish, [running] is false and [main]
    leaves the loop, deletes the client and returns 0. *)
Theorem sigint_ends_the_program sched tr cfg (o : Oracle) :
  run initial_config sched = Some (tr, cfg) ->
  sched <> [] ->
  terminated cfg = None ->
  exists n tr' cfg',
    run cfg (Signal :: repeat (Run o) n) = Some (tr', cfg') /\
    terminated cfg' = Some EXIT_SUCCESS /\
    running (globals cfg') = false.
Proof.
  intros Hrun Hne Hterm.
  pose proof (@run_installs_stopHandler _ _ sched tr cfg Hrun Hne) as Hh.
  destruct (@run_asteps _ _ true sched initial_config at_signal tr cfg
              (inv_initial true) (choice_ok_true sched) Hrun)
    as (pc & [Hmain _] & _).
  assert (Hok : frames_ok true (stack cfg)).
  { apply (@run_frames_ok _ _ true sched initial_config tr cfg);
      [constructor | apply choice_ok_true | exact Hrun]. }
  destruct cfg as [g h stk m]. simpl in Hh, Hmain, Hok. subst h m.
  set (g1 := {| running := false;
                currentTimeClientHandle := currentTimeClientHandle g |}).
  destruct (@finish_stack _ _ true stk Hok o g1 fn_stopHandler (main_at pc))
    as (n1 & tr1 & h1 & g2 & Hrun1 & _ & _ & Hfalse).
  destruct (@main_to_exit _ _ pc o g2 h1 (Hfalse eq_refl))
    as (n2 & tr2 & h2 & Hrun2).
  destruct (@stopHandler_run o g fn_stopHandler stk (main_at pc) SIGINT)
    as (tr0 & Hrun0).
  exists (3 + (n1 + n2))%nat. eexists. eexists. split.
  - cbn [run step]. rewrite Hterm.
    cbn [sigint_handler signal_body]. unfold push.
    cbn [stack globals sigint_handler main_frame].
    rewrite <- (repeat_add (Run o) 3 (n1 + n2)).
    rewrite run_app, Hrun0.
    rewrite <- (repeat_add (Run o) n1 n2), run_app.
    fold g1. rewrite Hrun1, Hrun2.
    reflexivity.
  - split; [reflexivity | ]. simpl. now apply Hfalse.
Qed.

(** X9. Without SIGINT the program does not end: in every run in which
    no signal arrives, whatever the server answers and whatever the
    callbacks do, [running] is true, [UA_Client_delete] is not called,
    [main] has not returned, and the program can take another step. *)
Theorem runs_until_sigint sched tr cfg :
  run initial_config sched = Some (tr, cfg) ->
  no_signal sched ->
  running (globals cfg) = true /\
  count is_delete tr = 0%nat /\
  terminated cfg = None /\
  forall o, step cfg (Run o) <> None.
Proof.
  intros Hrun Hns.
  destruct (@run_accumulate _ _ false
              (fun pc g acc =>
                 running g = true /\ leaving pc = false /\
                 count is_delete acc = 0%nat))
    with (sched := sched) (tr := tr) (cfg := cfg)
    as (pc & Hinv & Hg & Hpc & Hdel);
    [ | | repeat split | now apply choice_ok_no_signal | exact Hrun | ].
  - intros pc o g l pc' acc Hm (Hg & Hpc & Hdel).
    rewrite count_app, Hdel. split; [exact Hg | ].
    destruct pc; simpl in Hm, Hpc; try discriminate;
      injection Hm as <- <-; try (split; reflexivity).
    + rewrite Hg. split; reflexivity.
    + destruct (negb _); split; reflexivity.
  - intros pc g l acc Hl Hf (Hg & Hpc & Hdel).
    rewrite count_app, Hdel.
    destruct l as [d c a | | | | ]; simpl; auto.
    destruct c; simpl in Hf |- *; auto; try contradiction.
    destruct Hf as [Hf _]. discriminate.
  - assert (Hterm : terminated cfg = None).
    { destruct (terminated cfg) as [code | ] eqn:Hterm; [ | reflexivity].
      destruct (terminated_inv Hinv Hterm) as [-> _]. discriminate. }
    repeat split; auto. intros o. now apply progress.
Qed.

End Order.

(** ** The iteration after a failed connection *)

Section Retry.

Context {T : LibraryTypes} {L : ClientLibrary}.

Lemma main_step_is_main_label pc o g l pc' :
  main_step pc o g = Some (l, pc') -> is_main_label l = true.
Proof.
  destruct pc; simpl; try discriminate; intros [= <- _]; reflexivity.
Qed.

(** The steps of a run that [main] itself takes follow its control
    flow. *)
Lemma asteps_main_path signals a tr b :
  asteps signals a tr b -> main_path (fst a) (filter is_main_label tr).
Proof.
  induction 1 as [ | [pc g] l [pc1 g1] tr c Hstep _ IH]; [exact I | ].
  simpl in IH |- *.
  inversion Hstep as [? o ? ? ? Hm | ? ? ? Hm Hf]; subst.
  - rewrite (main_step_is_main_label _ _ _ Hm). simpl.
    exists o, g1, pc1. split; [exact Hm | exact IH].
  - rewrite Hm. exact IH.
Qed.

Lemma main_path_after_failed_connect client ls :
  main_path (at_log_error client) ls -> after_failed_connect client ls.
Proof.
  destruct ls as [ | l1 [ | l2 [ | l3 [ | l4 [ | l5 ls]]]]];
    cbn [main_path after_failed_connect]; intros H; auto.
  - destruct H as (o1 & g1 & pc1 & [= <- <-] & _). split; eauto.
  - destruct H as (o1 & g1 & pc1 & [= <- <-] & o2 & g2 & pc2 & [= <- <-] & _).
    split; eauto.
  - destruct H as (o1 & g1 & pc1 & [= <- <-] & o2 & g2 & pc2 & [= <- <-] &
                   o3 & g3 & pc3 & [= <- <-] & _).
    split; eauto.
  - destruct H as (o1 & g1 & pc1 & [= <- <-] & o2 & g2 & pc2 & [= <- <-] &
                   o3 & g3 & pc3 & [= <- <-] & o4 & g4 & pc4 & [= <- <-] & _).
    split; eauto. split; eauto.
  - destruct H as (o1 & g1 & pc1 & [= <- <-] & o2 & g2 & pc2 & [= <- <-] &
                   o3 & g3 & pc3 & [= <- <-] & o4 & g4 & pc4 & [= <- <-] &
                   o5 & g5 & pc5 & H5 & _).
    split; eauto. split; eauto. split; [reflexivity | ].
    exists (running g4). split; [reflexivity | ].
    destruct (running g4); simpl in H5; injection H5 as <- _; eauto.
Qed.

(** A connection attempt that fails is made by [main], to the endpoint
    of the source, and takes [main] to the error report. *)
Lemma failed_connect_step cfg pc ch d client url (r : UA_StatusCode) cfg' :
  inv true cfg pc ->
  step cfg ch = Some (LCall d (c_UA_Client_connect client url) r, cfg') ->
  r <> UA_STATUSCODE_GOOD ->
  d = 0%nat /\ url = endpointUrl /\ inv true cfg' (at_log_error client).
Proof.
  intros Hinv Hstep Hr.
  assert (Hch : choice_ok true ch) by (destruct ch; simpl; auto).
  destruct (@step_astep _ _ true cfg pc ch _ cfg' Hinv Hch Hstep)
    as (pc' & Hinv' & Hastep).
  inversion Hastep as [? o ? ? ? Hm | ? ? ? Hm Hf]; subst; [ | destruct Hf].
  assert (Hd : d = 0%nat)
    by (destruct pc; simpl in Hm; try discriminate; congruence).
  assert (Hans : option_map (fun p => connect_answer (fst p))
                            (main_step pc o (globals cfg)) =
                 Some (Some (client, url, r)))
    by (rewrite Hm; reflexivity).
  assert (Hpc : option_map snd (main_step pc o (globals cfg)) = Some pc')
    by (rewrite Hm; reflexivity).
  clear Hm Hastep.
  destruct pc; cbn [main_step option_map fst snd connect_answer] in Hans, Hpc;
    try discriminate.
  injection Hans as -> <- Hans. apply Z.eqb_neq in Hr.
  rewrite Hans, Hr in Hpc. cbn [negb] in Hpc. injection Hpc as <-. auto.
Qed.

Lemma last_main_call_split acc post x :
  last_main_call (acc ++ post) = Some x ->
  (exists p1 p2, post = p1 ++ x :: p2) \/ last_main_call acc = Some x.
Proof.
  induction post as [ | l q IH] using rev_ind; intros H.
  - right. now rewrite app_nil_r in H.
  - rewrite app_assoc, last_main_call_snoc in H.
    assert (Hq : last_main_call (acc ++ q) = Some x ->
                 (exists p1 p2, q ++ [l] = p1 ++ x :: p2) \/
                 last_main_call acc = Some x).
    { intros H'. destruct (IH H') as [(p1 & p2 & ->) | Hacc]; [ | now right].
      left. exists p1, (p2 ++ [l]). now rewrite <- app_assoc. }
    destruct l as [[ | d] c a | | | | ]; auto.
    destruct (is_memory c); auto.
    injection H as <-. left. exists q, []. reflexivity.
Qed.

(** Without a signal [running] stays true and [main] stays in the
    loop or before it, whatever the library answers. *)
Lemma run_without_signal sched tr cfg :
  run initial_config sched = Some (tr, cfg) ->
  no_signal sched ->
  exists pc,
    inv false cfg pc /\ running (globals cfg) = true /\ leaving pc = false.
Proof.
  intros Hrun Hns.
  destruct (@run_accumulate _ _ false
              (fun pc g _ => running g = true /\ leaving pc = false))
    with (sched := sched) (tr := tr) (cfg := cfg)
    as (pc & Hinv & Hg & Hpc);
    [ | | split; reflexivity | now apply choice_ok_no_signal | exact Hrun
      | now exists pc ].
  - intros pc o g l pc' acc Hm (Hg & Hpc). split; [exact Hg | ].
    destruct pc; simpl in Hm, Hpc; try discriminate;
      injection Hm as <- <-; try reflexivity.
    + now rewrite Hg.
    + now destruct (negb _).
  - intros pc g l acc Hl Hf (Hg & Hpc). split; [ | exact Hpc].
    destruct l as [d c a | | | | ]; simpl; auto.
    destruct c; simpl in Hf |- *; auto; try contradiction.
    destruct Hf as [Hf _]. discriminate.
Qed.

(** From every point before the end of the loop [main] reaches the loop
    again when its calls return and the connection attempts fail. *)
Lemma main_to_loop_from pc (o : Oracle) g h :
  leaving pc = false ->
  running g = true ->
  (forall client,
     o (c_UA_Client_connect client endpointUrl) <> UA_STATUSCODE_GOOD) ->
  exists n tr client h',
    run {| globals := g; sigint_handler := h; stack := [];
           main_frame := main_at pc |} (repeat (Run o) n) =
    Some (tr, loop_config client g h') /\
    connects_fail tr.
Proof.
  intros Hpc Hg Hr.
  assert (Hneq : forall client,
             (o (c_UA_Client_connect client endpointUrl)
              =? UA_STATUSCODE_GOOD) = false)
    by (intros client; apply Z.eqb_neq, Hr).
  unfold loop_config.
  destruct pc; simpl in Hpc; try discriminate;
    [ exists 6%nat | exists 5%nat | exists 4%nat | exists 3%nat
    | exists 2%nat | exists 1%nat | exists 0%nat | exists 4%nat
    | exists 3%nat | exists 2%nat | exists 1%nat | exists 1%nat ];
    eexists; eexists; eexists; cbn [repeat run];
    repeat (rewrite step_main_at; cbn [main_step];
            rewrite ?Hg, ?Hneq; cbn [negb]);
    (split; [reflexivity | ]);
    repeat (apply Forall_cons; [simpl; try exact I; apply Hr | ]);
    apply Forall_nil.
Qed.

(** C4. In every run of the program, whatever the library answers,
    whatever callbacks run and whenever signals arrive, also after
    connections that succeeded: a connection attempt that returns a
    status other than Good is made by [main] to the endpoint of the
    source, and the steps [main] takes after it are, in this order and
    as far as the run goes, the error report, the sleep of 1000 ms, the
    loop again and the read of [running], followed by the next
    connection attempt on the same client when [running] was read true
    (by the deletion of the client when it was read false);
    [UA_Client_run_iterate] is not called in that iteration: a call of
    it later in the run comes after a later connection attempt, which
    returned Good.  The sleep is 1000 ms in every such iteration and the
    iterations are not counted: as long as no signal was delivered,
    [running] is true, [main] has not returned and the program takes a
    further step, and when from there on every call returns and the
    connection attempts fail, [main] makes as many further attempts as
    one asks for. *)
Theorem reconnect_loop_retries_forever sched tr cfg :
  run initial_config sched = Some (tr, cfg) ->
  (forall pre d client url (r : UA_StatusCode) post,
     tr = pre ++ LCall d (c_UA_Client_connect client url) r :: post ->
     r <> UA_STATUSCODE_GOOD ->
     d = 0%nat /\ url = endpointUrl /\
     after_failed_connect client (filter is_main_label post) /\
     forall post1 d' cl timeout u post2,
       post = post1 ++
              LCall d' (c_UA_Client_run_iterate cl timeout) u :: post2 ->
       exists p1 (r' : UA_StatusCode) p2,
         post1 = p1 ++ LCall 0 (c_UA_Client_connect cl endpointUrl) r' :: p2 /\
         r' = UA_STATUSCODE_GOOD) /\
  (no_signal sched ->
   running (globals cfg) = true /\
   terminated cfg = None /\
   (forall o, step cfg (Run o) <> None) /\
   forall (o : Oracle) n,
     (forall client,
        o (c_UA_Client_connect client endpointUrl) <> UA_STATUSCODE_GOOD) ->
     exists steps tr' cfg',
       run cfg (repeat (Run o) steps) = Some (tr', cfg') /\
       connects_fail tr' /\
       (n <= count is_connect tr')%nat /\
       running (globals cfg') = true /\
       terminated cfg' = None).
Proof.
  intros Hrun. split.
  - intros pre d client url r post Htr Hr.
    assert (Hrun' : run initial_config sched =
                    Some (pre ++ LCall d (c_UA_Client_connect client url) r
                              :: post, cfg)) by now rewrite <- Htr.
    destruct (@run_split _ _ sched initial_config pre _ post cfg Hrun')
      as (s1 & ch & s2 & c1 & c2 & _ & Hr1 & Hstep & Hr2).
    destruct (@run_asteps _ _ true s1 initial_config at_signal pre c1
                (inv_initial true) (choice_ok_true s1) Hr1)
      as (pc1 & Hinv1 & _).
    destruct (@failed_connect_step c1 pc1 ch d client url r c2 Hinv1 Hstep Hr)
      as (-> & -> & Hinv2).
    split; [reflexivity | ]. split; [reflexivity | ].
    destruct (@run_asteps _ _ true s2 c2 (at_log_error client) post cfg
                Hinv2 (choice_ok_true s2) Hr2) as (pc3 & _ & Hsteps).
    split.
    + apply main_path_after_failed_connect.
      exact (@asteps_main_path true _ _ _ Hsteps).
    + intros post1 d' cl timeout u post2 Hpost.
      pose proof (@run_branches_follow_connect _ _ sched tr cfg Hrun) as Hall.
      assert (Hsplit : tr =
                (pre ++ LCall 0 (c_UA_Client_connect client endpointUrl) r
                     :: post1) ++
                LCall d' (c_UA_Client_run_iterate cl timeout) u :: post2)
        by (rewrite Htr, Hpost, <- app_assoc; reflexivity).
      assert (Hfc : exists r' : UA_StatusCode,
                last_main_call
                  (pre ++ LCall 0 (c_UA_Client_connect client endpointUrl) r
                       :: post1) =
                Some (LCall 0 (c_UA_Client_connect cl endpointUrl) r') /\
                r' = UA_STATUSCODE_GOOD)
        by (pose proof (Hall _ _ _ Hsplit) as Hfc; destruct d'; exact Hfc).
      destruct Hfc as (r' & Hlast & Hgood).
      replace (pre ++ LCall 0 (c_UA_Client_connect client endpointUrl) r
                   :: post1)
        with ((pre ++ [LCall 0 (c_UA_Client_connect client endpointUrl) r])
              ++ post1) in Hlast by (rewrite <- app_assoc; reflexivity).
      destruct (last_main_call_split _ _ Hlast) as [(p1 & p2 & Hp) | Hacc].
      * exists p1, r', p2. split; [exact Hp | exact Hgood].
      * rewrite last_main_call_snoc in Hacc. cbn [is_memory] in Hacc.
        apply (f_equal (option_map connect_answer)) in Hacc.
        simpl in Hacc. congruence.
  - intros Hns.
    destruct (@run_without_signal sched tr cfg Hrun Hns)
      as (pc & Hinv & Hg & Hpc).
    assert (Hterm : terminated cfg = None).
    { destruct (terminated cfg) as [code | ] eqn:Hterm; [ | reflexivity].
      destruct (terminated_inv Hinv Hterm) as [-> _]. discriminate. }
    split; [exact Hg | ]. split; [exact Hterm | ].
    split; [intros o; now apply progress | ].
    intros o n Hr.
    assert (Hok : frames_ok false (stack cfg))
      by (apply (@run_frames_ok _ _ false sched initial_config tr cfg);
          [constructor | now apply choice_ok_no_signal | exact Hrun]).
    destruct Hinv as [Hmain _].
    destruct cfg as [g h stk m]. simpl in Hmain, Hok, Hg. subst m.
    destruct (@finish_stack _ _ false stk Hok o g h (main_at pc))
      as (n1 & tr1 & h1 & g1 & Hrun1 & Hfail1 & Hsame & _).
    rewrite (Hsame eq_refl) in Hrun1.
    destruct (@main_to_loop_from pc o g h1 Hpc Hg Hr)
      as (n2 & tr2 & client & h2 & Hrun2 & Hfail2).
    destruct (@retry_cycles_run _ _ o client g h2 n Hg (Hr client))
      as (tr3 & Hrun3 & _ & Hfail3 & Hn).
    exists (n1 + (n2 + 5 * n))%nat, (tr1 ++ tr2 ++ tr3).
    eexists.
    rewrite <- (repeat_add (Run o) n1 (n2 + 5 * n)).
    rewrite <- (repeat_add (Run o) n2 (5 * n)).
    rewrite run_app, Hrun1, run_app, Hrun2, Hrun3.
    split; [reflexivity | ]. split; [ | split; [ | split]].
    + apply Forall_app. split; [exact Hfail1 | ].
      apply Forall_app. now split.
    + rewrite !count_app, Hn. lia.
    + exact Hg.
    + reflexivity.
Qed.

End Retry.

(** ** Requests and what entitles to them *)

Section Credit.

Context {T : LibraryTypes} {L : ClientLibrary}.

Local Open Scope prog_scope.

Section Generic.

Variable cost : Call -> nat.
Variable gain : forall c : Call, Ans c -> nat.
Variable entry : Invocation -> nat.

Hypothesis main_free : all_calls (free cost gain) main.
Hypothesis body_affords : forall i, affords cost gain (entry i) (body_of i).
Hypothesis stopHandler_affords :
  forall signum, affords cost gain 0 (stopHandler signum).

Lemma step_credit cfg ch l cfg' ns :
  all_calls (free cost gain) (main_frame cfg) ->
  Forall2 (fun n f => affords cost gain n f) ns (stack cfg) ->
  step cfg ch = Some (l, cfg') ->
  exists ns',
    all_calls (free cost gain) (main_frame cfg') /\
    Forall2 (fun n f => affords cost gain n f) ns' (stack cfg') /\
    (label_cost cost l + list_sum ns' <=
     label_gain gain entry l + list_sum ns)%nat.
Proof.
  intros Hmain Hstk Hstep. destruct ch as [o | i | ]; simpl in Hstep.
  - destruct (stack cfg) as [ | f rest] eqn:Hs.
    + destruct (step_prog o 0 (main_frame cfg) (globals cfg))
        as [[[l' p'] g'] | ] eqn:Hsp; [ | discriminate].
      injection Hstep as <- <-.
      destruct (@step_prog_all_calls _ _ _ _ _ _ _ _ _ _ Hmain Hsp)
        as (Hp' & Hl & _).
      inversion Hstk; subst. exists []. split; [exact Hp' | ].
      split; [constructor | ].
      destruct l' as [d c a | | | | ]; simpl; try lia.
      destruct Hl as [-> Hg]. rewrite Hg. lia.
    + inversion Hstk as [ | n f' ns0 rest' Hf Hrest]; subst.
      destruct f as [r | c k | cond body k].
      * injection Hstep as <- <-. exists ns0. split; [exact Hmain | ].
        split; [exact Hrest | ]. simpl. lia.
      * simpl in Hstep. destruct (perform o c (globals cfg)) as [a g'].
        injection Hstep as <- <-. destruct Hf as [Hc Hk].
        exists ((n - cost c + gain c a)%nat :: ns0).
        split; [exact Hmain | ]. split; [constructor; auto | ].
        simpl. lia.
      * destruct Hf.
  - match type of Hstep with
    | (if ?b then _ else _) = _ => destruct b; [ | discriminate]
    end.
    injection Hstep as <- <-. exists (entry i :: ns).
    split; [exact Hmain | ]. split; [constructor; auto | ]. simpl. lia.
  - destruct (terminated cfg); [discriminate | ].
    destruct (signal_body (sigint_handler cfg) SIGINT) as [p | ] eqn:Hp;
      [ | discriminate].
    injection Hstep as <- <-. exists (0%nat :: ns).
    split; [exact Hmain | ]. split; [ | simpl; lia].
    constructor; [ | exact Hstk].
    destruct (sigint_handler cfg); simpl in Hp; try discriminate.
    injection Hp as <-. apply stopHandler_affords.
Qed.

Lemma run_credit sched : forall cfg tr cfg' ns,
  all_calls (free cost gain) (main_frame cfg) ->
  Forall2 (fun n f => affords cost gain n f) ns (stack cfg) ->
  run cfg sched = Some (tr, cfg') ->
  (total (label_cost cost) tr <=
   total (label_gain gain entry) tr + list_sum ns)%nat.
Proof.
  unfold total.
  induction sched as [ | ch sched IH]; intros cfg tr cfg' ns Hmain Hstk Hrun;
    simpl in Hrun.
  - injection Hrun as <- <-. simpl. lia.
  - destruct (step cfg ch) as [[l cfg1] | ] eqn:Hstep; [ | discriminate].
    destruct (run cfg1 sched) as [[t cfg2] | ] eqn:Hrest; [ | discriminate].
    injection Hrun as <- <-.
    destruct (@step_credit cfg ch l cfg1 ns Hmain Hstk Hstep)
      as (ns' & Hmain' & Hstk' & Hle).
    pose proof (IH cfg1 t cfg2 ns' Hmain' Hstk' Hrest). simpl. lia.
Qed.

Lemma run_initial_credit sched tr cfg :
  run initial_config sched = Some (tr, cfg) ->
  (total (label_cost cost) tr <= total (label_gain gain entry) tr)%nat.
Proof.
  intros Hrun.
  pose proof (@run_credit sched initial_config tr cfg [] main_free
                (Forall2_nil _) Hrun) as H.
  simpl in H. lia.
Qed.

Lemma affords_bind_free A B (p : prog A) (f : A -> prog B) :
  loop_free p -> all_calls (fun c => cost c = 0%nat) p ->
  (forall a m, affords cost gain m (f a)) ->
  forall n, affords cost gain n (bind p f).
Proof.
  revert f. induction p as [A r | A c k IH | A cond _ body _ k _];
    intros f Hlf Hp Hf n; simpl in *.
  - apply Hf.
  - destruct Hp as [Hc Hk]. split; [lia | ]. intros a. now apply IH.
  - destruct Hlf.
Qed.

Lemma affords_each A (l : list A) (f : A -> prog unit) :
  (forall x, loop_free (f x)) ->
  (forall x, all_calls (fun c => cost c = 0%nat) (f x)) ->
  forall n, affords cost gain n (each l f).
Proof.
  intros Hlf Hf. induction l as [ | x l IH]; intros n; simpl; [exact I | ].
  apply affords_bind_free; auto.
Qed.

End Generic.

Lemma total_count (f : Call -> bool) tr :
  total (label_cost (fun c => one (f c))) tr = count f tr.
Proof.
  unfold total. induction tr as [ | l tr IH]; [reflexivity | ].
  rewrite count_cons. simpl. rewrite IH. f_equal.
  destruct l as [d c a | | | | ]; try reflexivity.
  unfold count. simpl. now destruct (f c).
Qed.

Lemma total_filter (f : Label -> bool) tr :
  total (fun l => one (f l)) tr = List.length (filter f tr).
Proof.
  unfold total. induction tr as [ | l tr IH]; [reflexivity | ].
  simpl. rewrite IH. now destruct (f l).
Qed.

Lemma total_ext (f h : Label -> nat) tr :
  (forall l, f l = h l) -> total f tr = total h tr.
Proof.
  intros Hfh. unfold total. f_equal. apply map_ext. exact Hfh.
Qed.

Ltac credit :=
  repeat first
    [ exact I
    | reflexivity
    | lia
    | progress intros
    | progress (unfold free, one, UA_LOG_INFO, UA_LOG_ERROR, call, call_;
                simpl)
    | split ].

Lemma handle_notification_requests_nothing (f : Call -> bool) mn :
  (forall level logger category msg args,
     f (c_UA_LOG level logger category msg args) = false) ->
  f c_load_currentTimeClientHandle = false ->
  all_calls (fun c => one (f c) = 0%nat) (handle_notification mn).
Proof.
  intros Hlog Hload. unfold handle_notification. simpl.
  rewrite Hload. split; [reflexivity | ]. intros h.
  destruct (mn_clientHandle mn =? h); simpl; [ | exact I].
  rewrite Hlog. split; [reflexivity | ]. intros _.
  destruct (UA_Variant_hasScalarType _ _); simpl; auto.
  rewrite Hlog. auto.
Qed.

(** X10. In every run of the program, at every moment, the subscriptions
    requested so far are at most as many as the times the library has
    entered [stateCallback] with the session activated: the program
    requests a subscription only in answer to an activation, and at
    most one for each. *)
Theorem subscriptions_only_on_activation sched tr cfg :
  run initial_config sched = Some (tr, cfg) ->
  (count requests_subscription tr <=
   List.length (filter reports_activation tr))%nat.
Proof.
  intros Hrun.
  rewrite <- total_count, <- total_filter.
  rewrite (@total_ext (fun l => one (reports_activation l))
             (label_gain (fun _ _ => 0%nat) (fun i => one (activation i))))
    by (intros [ | | | | ]; reflexivity).
  apply run_initial_credit with (sched := sched) (cfg := cfg);
    [ | | | exact Hrun].
  - unfold main, main_loop_body, main_cleanup. credit.
    destruct (negb _); credit.
  - intros i. destruct i; simpl body_of.
    + unfold stateCallback.
      destruct channelState, sessionState; credit;
        (destruct (serviceResult _ =? _); credit);
        (destruct (statusCode _ =? _); credit).
    + rewrite handler_each. apply affords_each.
      * apply loop_free_handle_notification.
      * intros mn. now apply handle_notification_requests_nothing.
    + unfold deleteSubscriptionCallback. credit.
    + unfold subscriptionInactivityCallback. credit.
  - intros signum. unfold stopHandler. credit.
Qed.

(** X11. In every run of the program, at every moment, the monitored
    items requested so far are at most as many as the requests for a
    subscription that were answered Good: the program asks for an item
    only after a subscription was created, and for at most one item for
    each. *)
Theorem items_only_on_created_subscriptions sched tr cfg :
  run initial_config sched = Some (tr, cfg) ->
  (count requests_item tr <=
   List.length (filter subscription_created tr))%nat.
Proof.
  intros Hrun.
  rewrite <- total_count, <- total_filter.
  rewrite (@total_ext (fun l => one (subscription_created l))
             (label_gain (fun c a => one (created c a)) (fun _ => 0%nat)))
    by (intros [ | | | | ]; reflexivity).
  apply run_initial_credit with (sched := sched) (cfg := cfg);
    [ | | | exact Hrun].
  - unfold main, main_loop_body, main_cleanup. credit.
    destruct (negb _); credit.
  - intros i. destruct i; simpl body_of.
    + unfold stateCallback.
      destruct channelState, sessionState; credit;
        (destruct (serviceResult _ =? _); credit);
        (destruct (statusCode _ =? _); credit).
    + rewrite handler_each. apply affords_each.
      * apply loop_free_handle_notification.
      * intros mn. now apply handle_notification_requests_nothing.
    + unfold deleteSubscriptionCallback. credit.
    + unfold subscriptionInactivityCallback. credit.
  - intros signum. unfold stopHandler. credit.
Qed.

End Credit.

(** ** The state callback outside activation, and the pointers of [main] *)

Section Pointers.

Context {T : LibraryTypes} {L : ClientLibrary}.

(** X12. When the state of the session is anything but Activated,
    [stateCallback] only logs: the line for the state of the channel, if
    it is one of the four the callback knows, and the line for the
    closed session; at most two lines.  It sends no request, uses
    neither the client nor the recovery status, returns normally and
    leaves the globals as they were, whatever the environment would
    answer. *)
Theorem stateCallback_without_activation
    fuel client cs ss rs (o : Oracle) g :
  ss <> UA_SESSIONSTATE_ACTIVATED ->
  let t := channel_report cs ++ session_report ss in
  exec fuel (stateCallback client cs ss rs) o g = Some (t, g, tt) /\
  forallb is_log t = true /\
  (List.length t <= 2)%nat.
Proof.
  intros Hss t. subst t. rewrite exec_stateCallback.
  destruct ss; try congruence; destruct cs; simpl; repeat split; lia.
Qed.

(** X13. In every run of the program, every call [main] makes on a
    client ([UA_Client_getConfig], [UA_Client_connect],
    [UA_Client_run_iterate], [UA_Client_delete]) passes a pointer that
    [UA_Client_new] returned before in that run, and every call on a
    configuration passes a pointer that [UA_Client_getConfig] returned
    before. *)
Theorem main_passes_what_it_was_given sched tr cfg pre d c a post :
  run initial_config sched = Some (tr, cfg) ->
  tr = pre ++ LCall d c a :: post ->
  (forall client,
     passes_client c = Some client ->
     In (LCall 0 c_UA_Client_new client) pre) /\
  (forall cc,
     passes_config c = Some cc ->
     exists client, In (LCall 0 (c_UA_Client_getConfig client) cc) pre).
Proof.
  intros Hrun Heq.
  pose (known := fun (acc : list Label) (c : Call) =>
          (forall client,
             passes_client c = Some client ->
             In (LCall 0 c_UA_Client_new client) acc) /\
          (forall cc,
             passes_config c = Some cc ->
             exists client,
               In (LCall 0 (c_UA_Client_getConfig client) cc) acc)).
  destruct (@run_accumulate _ _ true
              (fun pc _ acc =>
                 (forall client, client_at pc = Some client ->
                                 In (LCall 0 c_UA_Client_new client) acc) /\
                 (forall cc, config_at pc = Some cc ->
                             exists client,
                               In (LCall 0 (c_UA_Client_getConfig client) cc)
                                  acc) /\
                 forall pre d c a post,
                   acc = pre ++ LCall d c a :: post -> known pre c))
    with (sched := sched) (tr := tr) (cfg := cfg)
    as (pc & _ & _ & _ & Hall);
    [ | | | apply choice_ok_true | exact Hrun
      | now apply (Hall pre d c a post) ].
  - intros pc o g l pc' acc Hm (Hcl & Hcc & Hacc).
    assert (Hlast : In l (acc ++ [l])) by (apply in_or_app; right; now left).
    assert (Hold : forall x, In x acc -> In x (acc ++ [l]))
      by (intros x Hx; apply in_or_app; now left).
    split; [ | split].
    + intros client Hpc'.
      destruct pc; simpl in Hm; try discriminate; injection Hm as <- <-;
        simpl in Hpc'; try discriminate;
        try (apply Hold, Hcl; exact Hpc');
        try (injection Hpc' as <-; exact Hlast).
      * destruct (running g); apply Hold, Hcl; exact Hpc'.
      * destruct (negb _); apply Hold, Hcl; exact Hpc'.
    + intros cc Hpc'.
      destruct pc; simpl in Hm; try discriminate; injection Hm as <- <-;
        simpl in Hpc'; try discriminate;
        try (destruct (Hcc cc Hpc') as [cl H]; exists cl; now apply Hold).
      * injection Hpc' as <-. exists client. exact Hlast.
      * destruct (running g); discriminate.
      * destruct (negb _); discriminate.
    + intros pre0 d0 c0 a0 post0 Hsplit.
      destruct (@snoc_split _ acc pre0 post0 l _ Hsplit)
        as [(_ & -> & Hl) | (post' & _ & Hacc')];
        [ | now apply (Hacc pre0 d0 c0 a0 post')].
      subst l.
      assert (Hc0 : option_map
                      (fun p => match fst p with
                                | LCall _ c1 _ => Some c1
                                | _ => None
                                end) (main_step pc o g) = Some (Some c0))
        by (rewrite Hm; reflexivity).
      clear Hm Hlast Hold Hsplit. split.
      * intros client Hc.
        destruct pc; simpl in Hc0; try discriminate;
          injection Hc0 as <-; simpl in Hc; try discriminate;
          injection Hc as <-; apply Hcl; reflexivity.
      * intros cc Hc.
        destruct pc; simpl in Hc0; try discriminate;
          injection Hc0 as <-; simpl in Hc; try discriminate;
          injection Hc as <-; apply Hcc; reflexivity.
  - intros pc g l acc Hl Hf (Hcl & Hcc & Hacc).
    assert (Hold : forall x, In x acc -> In x (acc ++ [l]))
      by (intros x Hx; apply in_or_app; now left).
    split; [ | split].
    + intros client Hpc. apply Hold, Hcl, Hpc.
    + intros cc Hpc. destruct (Hcc cc Hpc) as [cl H]. exists cl.
      now apply Hold.
    + intros pre0 d0 c0 a0 post0 Hsplit.
      destruct (@snoc_split _ acc pre0 post0 l _ Hsplit)
        as [(_ & -> & Hl0) | (post' & _ & Hacc')];
        [ | now apply (Hacc pre0 d0 c0 a0 post')].
      subst l. simpl in Hf.
      split; intros x Hc; destruct c0; simpl in Hf, Hc;
        try discriminate; contradiction.
  - split; [discriminate | ]. split; [discriminate | ].
    intros p ? ? ? ? Hnil. destruct p; discriminate.
Qed.

End Pointers.

(** ** The further properties on one session *)

Section FurtherExamples.

Import Example.

Local Existing Instance Example.types.
Local Existing Instance Example.library.

Ltac found := repeat first [left; reflexivity | right].

Lemma session_run :
  run initial_config Session.schedule =
  Some (Session.trace, Session.config).
Proof. vm_compute. reflexivity. Qed.

Lemma session_start_run :
  run initial_config Session.start_schedule =
  Some (Session.start_trace, Session.start_config).
Proof. vm_compute. reflexivity. Qed.

Lemma session_start_not_empty : Session.start_schedule <> [].
Proof. discriminate. Qed.

Lemma session_start_no_signal : no_signal Session.start_schedule.
Proof.
  unfold no_signal, Session.start_schedule. simpl.
  repeat (apply Forall_cons; [discriminate | ]). apply Forall_nil.
Qed.

Lemma session_start_goes_on : terminated Session.start_config = None.
Proof. reflexivity. Qed.

Lemma session_requests_item :
  In (LCall 1 (c_UA_Client_MonitoredItems_createDataChange
                 4096 7 UA_TIMESTAMPSTORETURN_BOTH Session.item
                 NULL fn_NULL fn_NULL)
            {| statusCode := 0; monitoredItemId := 1 |})
     Session.trace.
Proof. unfold Session.trace. found. Qed.

Lemma session_requests_subscription :
  In (LCall 1 (c_UA_Client_Subscriptions_createCompleteDataChange
                 4096 tt NULL fn_NULL fn_deleteSubscriptionCallback
                 fn_handler_currentTimeChanged)
            {| responseHeader := {| serviceResult := 0 |};
               subscriptionId := 7 |})
     Session.trace.
Proof. unfold Session.trace. found. Qed.

Lemma session_iterates :
  In (LCall 0 (c_UA_Client_run_iterate 4096 1000) 0) Session.trace.
Proof. unfold Session.trace. found. Qed.

Lemma session_clears_running :
  In (LCall 1 (c_store_running false) tt) Session.trace.
Proof. unfold Session.trace. found. Qed.

Lemma session_at_iterate :
  Session.trace =
  Session.before_iterate ++
  LCall 0 (c_UA_Client_run_iterate 4096 1000) 0 :: Session.after_iterate.
Proof. reflexivity. Qed.

Lemma session_at_delete :
  Session.trace =
  Session.before_delete ++ [LCall 0 (c_UA_Client_delete 4096) tt].
Proof. reflexivity. Qed.

Lemma every_monitored_item_has_handle_42_example :
  clientHandle (requestedParameters Session.item) = 42 /\
  UA_TIMESTAMPSTORETURN_BOTH = UA_TIMESTAMPSTORETURN_BOTH /\
  NULL = NULL /\ fn_NULL = fn_NULL /\ fn_NULL = fn_NULL.
Proof.
  exact (@every_monitored_item_has_handle_42 _ _ Session.schedule
           Session.trace Session.config 1 4096 7 UA_TIMESTAMPSTORETURN_BOTH
           Session.item NULL fn_NULL fn_NULL _ session_run
           session_requests_item).
Defined.

Lemma endpoint_and_delays_are_fixed_example : 1000 = 1000.
Proof.
  exact (@endpoint_and_delays_are_fixed _ _ Session.schedule Session.trace
           Session.config 0 (c_UA_Client_run_iterate 4096 1000) 0
           session_run session_iterates).
Defined.

Lemma callbacks_registered_in_their_roles_example :
  fn_NULL = fn_NULL /\
  fn_deleteSubscriptionCallback = fn_deleteSubscriptionCallback /\
  fn_handler_currentTimeChanged = fn_handler_currentTimeChanged.
Proof.
  exact (@callbacks_registered_in_their_roles _ _ Session.schedule
           Session.trace Session.config 1 _ _ session_run
           session_requests_subscription).
Defined.

Lemma calls_by_caller_example :
  (1%nat = 0%nat -> main_call (c_store_running false)) /\
  (1%nat <> 0%nat -> frame_call true (c_store_running false)).
Proof.
  exact (@calls_by_caller _ _ Session.schedule Session.trace Session.config
           1 (c_store_running false) tt session_run session_clears_running).
Defined.

Lemma main_calls_shape_example :
  exists client cc its,
    Forall (iteration client) its /\
    prefix (main_calls Session.trace)
           (startup_calls client cc ++ List.concat its ++
            [c_UA_Client_delete client]) /\
    (forall code,
       terminated Session.config = Some code ->
       main_calls Session.trace =
       startup_calls client cc ++ List.concat its ++
       [c_UA_Client_delete client]).
Proof.
  exact (@main_calls_shape _ _ Session.schedule Session.trace Session.config
           session_run).
Defined.

Lemma loop_branches_follow_connect_example :
  follows_connect Session.before_iterate
                  (LCall 0 (c_UA_Client_run_iterate 4096 1000) 0).
Proof.
  exact (@loop_branches_follow_connect _ _ Session.schedule Session.trace
           Session.config Session.before_iterate _ Session.after_iterate
           session_run session_at_iterate).
Defined.

Lemma delete_is_the_last_step_of_main_example :
  0%nat = 0%nat /\ main_steps [] = 0%nat /\ main_calls [] = [] /\
  main_frame Session.config = Ret EXIT_SUCCESS.
Proof.
  exact (@delete_is_the_last_step_of_main _ _ Session.schedule Session.trace
           Session.config Session.before_delete 0 4096 tt []
           session_run session_at_delete).
Defined.

Lemma sigint_ends_the_program_example :
  exists n tr' cfg',
    run Session.start_config
        (Signal :: repeat (Run (oracle_of all_good)) n) = Some (tr', cfg') /\
    terminated cfg' = Some EXIT_SUCCESS /\
    running (globals cfg') = false.
Proof.
  exact (@sigint_ends_the_program _ _ Session.start_schedule
           Session.start_trace Session.start_config (oracle_of all_good)
           session_start_run session_start_not_empty session_start_goes_on).
Defined.

Lemma runs_until_sigint_example :
  running (globals Session.start_config) = true /\
  count is_delete Session.start_trace = 0%nat /\
  terminated Session.start_config = None /\
  forall o, step Session.start_config (Run o) <> None.
Proof.
  exact (@runs_until_sigint _ _ Session.start_schedule Session.start_trace
           Session.start_config session_start_run session_start_no_signal).
Defined.

Lemma subscriptions_only_on_activation_example :
  (count requests_subscription Session.trace <=
   List.length (filter reports_activation Session.trace))%nat.
Proof.
  exact (@subscriptions_only_on_activation _ _ Session.schedule Session.trace
           Session.config session_run).
Defined.

Lemma items_only_on_created_subscriptions_example :
  (count requests_item Session.trace <=
   List.length (filter subscription_created Session.trace))%nat.
Proof.
  exact (@items_only_on_created_subscriptions _ _ Session.schedule
           Session.trace Session.config session_run).
Defined.

Lemma closed_is_not_activated :
  UA_SESSIONSTATE_CLOSED <> UA_SESSIONSTATE_ACTIVATED.
Proof. discriminate. Qed.

Lemma stateCallback_without_activation_example :
  let t := channel_report UA_SECURECHANNELSTATE_CLOSED ++
           session_report UA_SESSIONSTATE_CLOSED in
  exec 0 (stateCallback 4096 UA_SECURECHANNELSTATE_CLOSED
            UA_SESSIONSTATE_CLOSED 0) (oracle_of all_good) initial_globals =
    Some (t, initial_globals, tt) /\
  forallb is_log t = true /\
  (List.length t <= 2)%nat.
Proof.
  exact (@stateCallback_without_activation _ _ 0 4096
           UA_SECURECHANNELSTATE_CLOSED UA_SESSIONSTATE_CLOSED 0
           (oracle_of all_good) initial_globals closed_is_not_activated).
Defined.

Lemma main_passes_what_it_was_given_example :
  (forall client,
     passes_client (c_UA_Client_run_iterate 4096 1000) = Some client ->
     In (LCall 0 c_UA_Client_new client) Session.before_iterate) /\
  (forall cc,
     passes_config (c_UA_Client_run_iterate 4096 1000) = Some cc ->
     exists client,
       In (LCall 0 (c_UA_Client_getConfig client) cc)
          Session.before_iterate).
Proof.
  exact (@main_passes_what_it_was_given _ _ Session.schedule Session.trace
           Session.config Session.before_iterate 0
           (c_UA_Client_run_iterate 4096 1000) 0 Session.after_iterate
           session_run session_at_iterate).
Defined.

(** A connection that is lost: the second attempt fails after the
    first succeeded. *)
Lemma mixed_run :
  run initial_config Mixed.schedule = Some (Mixed.trace, Mixed.config).
Proof. vm_compute. reflexivity. Qed.

Lemma mixed_at_failure :
  Mixed.trace =
  Mixed.before_failure ++
  LCall 0 (c_UA_Client_connect 4096 endpointUrl) BadConnectionClosed ::
  Mixed.after_failure.
Proof. reflexivity. Qed.

Lemma mixed_failure : BadConnectionClosed <> UA_STATUSCODE_GOOD.
Proof. discriminate. Qed.

Lemma mixed_no_signal : no_signal Mixed.schedule.
Proof.
  unfold no_signal, Mixed.schedule. simpl.
  repeat (apply Forall_cons; [discriminate | ]). apply Forall_nil.
Qed.

Lemma reconnect_loop_retries_forever_example :
  (0%nat = 0%nat /\ endpointUrl = endpointUrl /\
   after_failed_connect 4096 (filter is_main_label Mixed.after_failure) /\
   forall post1 d' cl timeout u post2,
     Mixed.after_failure =
     post1 ++ LCall d' (c_UA_Client_run_iterate cl timeout) u :: post2 ->
     exists p1 (r' : UA_StatusCode) p2,
       post1 = p1 ++ LCall 0 (c_UA_Client_connect cl endpointUrl) r' :: p2 /\
       r' = UA_STATUSCODE_GOOD) /\
  (running (globals Mixed.config) = true /\
   terminated Mixed.config = None /\
   (forall o, step Mixed.config (Run o) <> None) /\
   forall (o : Oracle) n,
     (forall client,
        o (c_UA_Client_connect client endpointUrl) <> UA_STATUSCODE_GOOD) ->
     exists steps tr' cfg',
       run Mixed.config (repeat (Run o) steps) = Some (tr', cfg') /\
       connects_fail tr' /\
       (n <= count is_connect tr')%nat /\
       running (globals cfg') = true /\
       terminated cfg' = None).
Proof.
  exact (let H := @reconnect_loop_retries_forever _ _ Mixed.schedule
                    Mixed.trace Mixed.config mixed_run in
         conj (proj1 H Mixed.before_failure 0%nat 4096 endpointUrl
                 BadConnectionClosed Mixed.after_failure
                 mixed_at_failure mixed_failure)
              (proj2 H mixed_no_signal)).
Defined.

End FurtherExamples.
